(** * Hi-res texture replacement: name resolution, mip loading, cache, prefetch

    A shallow embedding of [Source/Core/VideoCommon/HiresTextures.cpp]
    (the RESHDP fork of Dolphin) and the properties of its natural-language
    specification.

    Conventions.
    - [u8] values are [byte]; [u32], [u64] and [size_t] values are [Z] with
      the wrap-around written where the source can overflow ([size_t] is
      taken to be 64 bits wide).
    - A raw buffer [(const u8* p, size_t n)] is the [list byte] of the [n]
      bytes at [p]; pointer arithmetic on it is an offset, and a read outside
      the list is the error [Fault] (undefined behaviour in C++).
    - The file-scope variables of the translation unit are the fields of
      [World]; a function that touches them lives in the state-and-error
      monad [M].
    - Loop counters that count levels of a vector are [nat]: a [u32] counter
      cannot wrap before the vector holds 2^32 levels.
    - [ERROR_LOG_FMT] calls only write to the log and are left out.
    - A function is modelled as it runs on its own thread. Of what another
      thread does meanwhile only the abort flag of the prefetcher is
      modelled, as the values its tests read. The operations on the cache
      mutex, the entries into [Load] and the writes of cache entries are
      recorded in a trace, so that one can tell whether the mutex is held
      when [Load] runs and when the cache is written.
    - Code outside the translation unit (the hash, the codecs, the file
      system, the clock) is a parameter of the section that uses it. *)

From Stdlib Require Import ZArith Lia String Ascii Strings.Byte List.
From Stdlib Require Import DecimalString HexadecimalString DecimalN DecimalPos.
From stdpp Require Import gmap strings list fin_maps.

Local Open Scope string_scope.
Local Open Scope list_scope.
Local Open Scope Z_scope.

(** ** Machine integers and [fmt::format] *)

Definition wrap32 (z : Z) : Z := z mod 2 ^ 32.
Definition wrap64 (z : Z) : Z := z mod 2 ^ 64.

Definition u8 (b : byte) : Z := Z.of_N (Byte.to_N b).

(** [fmt::format("{}", n)] for an unsigned [n]. *)
Definition fmt_uint (n : Z) : string :=
  DecimalString.NilZero.string_of_uint (N.to_uint (Z.to_N n)).

(** [fmt::format("{}", n)] for an [int]. *)
Definition fmt_int (n : Z) : string :=
  DecimalString.NilZero.string_of_int (Z.to_int n).

Fixpoint zeros (n : nat) : string :=
  match n with
  | O => ""
  | S k => String "0" (zeros k)
  end.

(** [fmt::format("{:016x}", n)]: lower-case hexadecimal, zero-padded to 16. *)
Definition fmt_016x (n : Z) : string :=
  let s := HexadecimalString.NilZero.string_of_uint (N.to_hex_uint (Z.to_N n)) in
  zeros (16 - String.length s) +:+ s.

(** ** Data model *)

Record DiskTexture := mkDiskTexture {
  path : string;
  has_arbitrary_mipmaps : bool
}.

(** Modelled from the spec: [AbstractTextureFormat] is declared in
    VideoCommon/TextureConfig.h, which is not among the sources; the spec's
    Level format is an enum of decoded RGBA and compressed block formats. *)
Inductive AbstractTextureFormat := RGBA8 | BGRA8 | DXT1 | DXT3 | DXT5 | BPTC.

(** Modelled from the spec: [HiresTexture::Level] is declared in
    VideoCommon/HiresTextures.h, which is not among the sources; the fields
    are the ones the source reads and writes. *)
Record Level := mkLevel {
  data : list byte;
  format : AbstractTextureFormat;
  width : Z;
  height : Z;
  row_length : Z
}.

Record HiresTexture := mkHiresTexture {
  m_levels : list Level;
  m_has_arbitrary_mipmaps : bool
}.

(** The rows of the RE3 mask table, [{id, tlut, tlut_alt}] in the source
    ([tlut_alt] defaults to the empty string). The fields carry the prefix
    [mask_] here, [id] being the identity function. *)
Record ReThreeMaskHackTlutToId := mkTlutToId {
  mask_id : string;
  mask_tlut : string;
  mask_tlut_alt : string
}.

#[global] Instance DiskTexture_eq_dec : EqDecision DiskTexture.
Proof. solve_decision. Defined.
#[global] Instance AbstractTextureFormat_eq_dec : EqDecision AbstractTextureFormat.
Proof. solve_decision. Defined.

(** What the cache mutex and the loader did, in program order. *)
Inductive Event :=
| EvLock                    (* s_textureCacheMutex acquired *)
| EvUnlock                  (* s_textureCacheMutex released *)
| EvLoad (name : string)    (* HiresTexture::Load entered *)
| EvInsert (name : string). (* an entry of s_textureCache written *)

(** [OSD::AddMessage] calls; the sizes are kept as byte counts. *)
Inductive OsdMessage :=
| OsdPrefetchAborted (size_sum : Z)
| OsdPrefetchLoaded (size_sum : Z) (elapsed_ms : Z).

Record VideoConfig := mkVideoConfig {
  bHiresTextures : bool;
  bCacheHiresTextures : bool
}.

(** The file-scope state. A [std::shared_ptr<HiresTexture>] is an
    [option HiresTexture], [None] being the null pointer. [tlutToId] points
    into [reThreeHackTexMap]; it is the key of the row it points to, and a
    key that has no row is a pointer that dangles. *)
Record World := mkWorld {
  s_textureMap : gmap string DiskTexture;
  s_textureCache : gmap string (option HiresTexture);
  reThreeHackTexMap : gmap string ReThreeMaskHackTlutToId;
  tlutToId : option string;
  g_ActiveConfig : VideoConfig;
  GFX_HIRES_TEXTURES : bool;
  osd : list OsdMessage;
  trace : list Event
}.

Definition set_textureMap (m : gmap string DiskTexture) (w : World) : World :=
  mkWorld m (s_textureCache w) (reThreeHackTexMap w) (tlutToId w)
          (g_ActiveConfig w) (GFX_HIRES_TEXTURES w) (osd w) (trace w).
Definition set_textureCache (c : gmap string (option HiresTexture)) (w : World) : World :=
  mkWorld (s_textureMap w) c (reThreeHackTexMap w) (tlutToId w)
          (g_ActiveConfig w) (GFX_HIRES_TEXTURES w) (osd w) (trace w).
Definition set_reThreeHackTexMap (t : gmap string ReThreeMaskHackTlutToId) (w : World) : World :=
  mkWorld (s_textureMap w) (s_textureCache w) t (tlutToId w)
          (g_ActiveConfig w) (GFX_HIRES_TEXTURES w) (osd w) (trace w).
Definition set_tlutToId (p : option string) (w : World) : World :=
  mkWorld (s_textureMap w) (s_textureCache w) (reThreeHackTexMap w) p
          (g_ActiveConfig w) (GFX_HIRES_TEXTURES w) (osd w) (trace w).
Definition set_GFX_HIRES_TEXTURES (b : bool) (w : World) : World :=
  mkWorld (s_textureMap w) (s_textureCache w) (reThreeHackTexMap w) (tlutToId w)
          (g_ActiveConfig w) b (osd w) (trace w).
Definition add_osd (m : OsdMessage) (w : World) : World :=
  mkWorld (s_textureMap w) (s_textureCache w) (reThreeHackTexMap w) (tlutToId w)
          (g_ActiveConfig w) (GFX_HIRES_TEXTURES w) (osd w ++ [m]) (trace w).
Definition add_event (e : Event) (w : World) : World :=
  mkWorld (s_textureMap w) (s_textureCache w) (reThreeHackTexMap w) (tlutToId w)
          (g_ActiveConfig w) (GFX_HIRES_TEXTURES w) (osd w) (trace w ++ [e]).

(** ** The state-and-error monad *)

Inductive result (A : Type) : Type :=
| Ok (a : A)
| Fault.
Arguments Ok {A} a.
Arguments Fault {A}.

Definition M (A : Type) : Type := World → result (A * World).

#[global] Instance M_ret : MRet M := λ A a w, Ok (a, w).
#[global] Instance M_bind : MBind M := λ A B f m w,
  match m w with
  | Ok (a, w') => f a w'
  | Fault => Fault
  end.

Definition get : M World := λ w, Ok (w, w).
Definition modify (f : World → World) : M unit := λ w, Ok (tt, f w).
Definition fault {A} : M A := λ _, Fault.

(** The value a call returns, the state dropped. *)
Definition value {A} (r : result (A * World)) : result A :=
  match r with
  | Ok (a, _) => Ok a
  | Fault => Fault
  end.

(** The bytes [p[off .. off+len)] of a buffer, [Fault] outside it. *)
Definition read_bytes (buf : list byte) (off len : Z) : M (list byte) :=
  if (0 <=? off) && (0 <=? len) && (off + len <=? Z.of_nat (length buf))
  then mret (take (Z.to_nat len) (drop (Z.to_nat off) buf))
  else fault.

(** ** Name resolution: [HiresTexture::GenBaseName] *)

(** Modelled from the spec: [Common::swap16] is declared in Common/Swap.h,
    which is not among the sources; it exchanges the two bytes of a 16-bit
    value (the spec's 14-bit entries are read through it). *)
Definition swap16 (v : Z) : Z :=
  Z.lor (Z.shiftr v 8) (Z.shiftl v 8) mod 2 ^ 16.

(** The three scans of the texel stream; the accumulator is [(min, max)]. *)

(** [case 16 * 2]: both nibbles of every byte. *)
Definition scan_nibbles (texture : list byte) (mm : Z * Z) : Z * Z :=
  fold_left (λ '(min, max) b,
    let low_nibble := Z.land (u8 b) 0xf in
    let high_nibble := Z.shiftr (u8 b) 4 in
    (Z.min (Z.min min low_nibble) high_nibble,
     Z.max (Z.max max low_nibble) high_nibble)) texture mm.

(** [case 256 * 2]: every byte. *)
Definition scan_bytes (texture : list byte) (mm : Z * Z) : Z * Z :=
  fold_left (λ '(min, max) b,
    let texture_byte := u8 b in
    (Z.min min texture_byte, Z.max max texture_byte)) texture mm.

(** [case 16384 * 2]: [i] advances by [sizeof(u16)] and the value swapped is
    [texture[i]], one [u8] converted to [u16]. *)
Fixpoint scan_halfwords (texture : list byte) (mm : Z * Z) : Z * Z :=
  match texture with
  | [] => mm
  | b :: rest =>
      let texture_halfword := Z.land (swap16 (u8 b)) 0x3fff in
      let mm' := (Z.min (fst mm) texture_halfword,
                  Z.max (snd mm) texture_halfword) in
      match rest with
      | [] => mm'
      | _ :: rest' => scan_halfwords rest' mm'
      end
  end.

Definition s_format_prefix : string := "tex1_".

(** [m.find(k) != m.end()] *)
Definition contains {V} (m : gmap string V) (k : string) : bool :=
  bool_decide (is_Some (m !! k)).

(** [m.empty()] *)
Definition is_empty {V} (m : gmap string V) : bool :=
  bool_decide (size m = 0%nat).

(** The local strings [GenBaseName] composes its result from. *)
Record NameParts := mkNameParts {
  base_name : string;
  tex_name : string;
  tlut_name : string;
  format_name : string
}.

Definition full_name (p : NameParts) : string :=
  base_name p +:+ tex_name p +:+ tlut_name p +:+ format_name p.

Section Resolver.

(** [XXH64(input, length, seed)] of the xxHash library: the hash of the
    [length] bytes at [input]. *)
Variable XXH64 : list byte → Z → Z.

(** The [switch (tlut_size)] over the palette size in bytes. *)
Definition pal_range (texture : list byte) (tlut_size : Z) : Z * Z :=
  let mm := (0xffff, 0) in
  if tlut_size =? 0 then mm
  else if tlut_size =? 16 * 2 then scan_nibbles texture mm
  else if tlut_size =? 256 * 2 then scan_bytes texture mm
  else if tlut_size =? 16384 * 2 then scan_halfwords texture mm
  else mm.

(** [if (tlut_size > 0) { tlut_size = 2 * (max + 1 - min); tlut += 2 * min; }]
    in [u32] arithmetic: the offset added to [tlut] and the new
    [tlut_size]. *)
Definition trim_tlut (texture : list byte) (tlut_size : Z) : Z * Z :=
  let '(min, max) := pal_range texture tlut_size in
  if 0 <? tlut_size
  then (wrap32 (2 * min), wrap32 (2 * (max + 1 - min)))
  else (0, tlut_size).

(** [tlut_size ? XXH64(tlut, tlut_size, 0) : 0] on the trimmed range. *)
Definition hash_tlut (texture tlut : list byte) : M Z :=
  let '(off, tlut_size) := trim_tlut texture (Z.of_nat (length tlut)) in
  if tlut_size =? 0 then mret 0
  else bytes ← read_bytes tlut off tlut_size; mret (XXH64 bytes 0).

(** [ReThreeMaskHack(texname, tlutname, width)]; [tlutname] is passed by
    reference, its value on return is the result. *)
Definition ReThreeMaskHack (texname tlutname : string) (width : Z) : M string :=
  w ← get;
  if (width =? 320) || (width =? 640) then
    (if contains (reThreeHackTexMap w) texname
     then modify (set_tlutToId (Some texname))
     else mret tt);;
    mret tlutname
  else if width =? 256 then
    match tlutToId w with
    | None => mret tlutname
    | Some key =>
        match reThreeHackTexMap w !! key with
        | None => fault
        | Some row =>
            if bool_decide (mask_tlut row = tlutname) then
              modify (set_tlutToId None);; mret (mask_id row)
            else if bool_decide (mask_tlut_alt row ≠ "")
                    && bool_decide (mask_tlut_alt row = tlutname) then
              modify (set_tlutToId None);; mret (mask_id row)
            else mret tlutname
        end
    end
  else mret tlutname.

(** The body of [GenBaseName] from the palette scan to the call of
    [ReThreeMaskHack]. *)
Definition name_parts (texture tlut : list byte) (width height format : Z)
    (has_mipmaps : bool) : M NameParts :=
  let tex_hash := XXH64 texture 0 in
  tlut_hash ← hash_tlut texture tlut;
  let tlut_size := snd (trim_tlut texture (Z.of_nat (length tlut))) in
  let base_name :=
    s_format_prefix +:+ fmt_uint width +:+ "x" +:+ fmt_uint height
      +:+ (if has_mipmaps then "_m" else "") in
  let tex_name := "_" +:+ fmt_016x tex_hash in
  let tlut_name := if tlut_size =? 0 then "" else "_" +:+ fmt_016x tlut_hash in
  let format_name := "_" +:+ fmt_int format in
  tlut_name ← ReThreeMaskHack tex_name tlut_name width;
  mret (mkNameParts base_name tex_name tlut_name format_name).

Definition GenBaseName (texture tlut : list byte) (width height format : Z)
    (has_mipmaps dump : bool) : M string :=
  w ← get;
  if negb dump && is_empty (s_textureMap w) then mret ""
  else
    p ← name_parts texture tlut width height format has_mipmaps;
    (* try to match a wildcard template *)
    if negb dump
       && contains (s_textureMap w) (base_name p +:+ tex_name p +:+ "_$" +:+ format_name p)
    then mret (base_name p +:+ tex_name p +:+ "_$" +:+ format_name p)
    (* try to match the TLUT wildcard template *)
    else if negb dump
       && contains (s_textureMap w) (base_name p +:+ "_$" +:+ tlut_name p +:+ format_name p)
    then mret (base_name p +:+ "_$" +:+ tlut_name p +:+ format_name p)
    (* else generate the complete texture *)
    else if dump || contains (s_textureMap w) (full_name p)
    then mret (full_name p)
    else mret "".

End Resolver.

(** The table [ReThreeMaskHackInit] fills [reThreeHackTexMap] with. *)
Definition ReThreeMaskHackInit_rows : list (string * ReThreeMaskHackTlutToId) :=
  [ ("_20c67ecf1252aacb", mkTlutToId "_R11B01" "_e3c364c1425f893c" "");
    ("_54cfa79672366bd7", mkTlutToId "_R11B0A" "_e3c364c1425f893c" "");
    ("_c492e7939b95fdf2", mkTlutToId "_R21801" "_91fbb229c7fa0f59" "_338ef6c05709e506");
    ("_9b12ad33a0f7ad05", mkTlutToId "_R21807" "_91fbb229c7fa0f59" "_338ef6c05709e506");
    ("_61d5ab40c32e722f", mkTlutToId "_R40F07" "_35ad92fce547a1d0" "");
    ("_55d89429aa7e4838", mkTlutToId "_R40F09" "_35ad92fce547a1d0" "") ].

(** [reThreeHackTexMap.clear()] and the six assignments. *)
Definition ReThreeMaskHackInit_table : gmap string ReThreeMaskHackTlutToId :=
  fold_left (λ m kv, <[kv.1 := kv.2]> m) ReThreeMaskHackInit_rows ∅.

(** [clear()] destroys the rows of the table, and [tlutToId] is not reset:
    a pointer that was pending dangles afterwards, also when a row with
    its key is assigned again. A dangling pointer is a key that has no
    row, for which [ReThreeMaskHack] is undefined where it dereferences
    the pointer. *)
Definition dangling : string := "".

Definition ReThreeMaskHackInit : M unit :=
  modify (λ w, set_tlutToId (match tlutToId w with
                             | Some _ => Some dangling
                             | None => None
                             end) w);;
  modify (set_reThreeHackTexMap ReThreeMaskHackInit_table).

(** [HiresTexture::Init] *)
Definition Init : M unit := ReThreeMaskHackInit.

(** ** Mip loading and validation: [HiresTexture::Load] *)

(** [while (levels.size() > mip_level) levels.pop_back();] *)
Fixpoint pop_back_to (fuel mip_level : nat) (levels : list Level) : list Level :=
  match fuel with
  | O => levels
  | S fuel' =>
      if bool_decide (mip_level < length levels)%nat
      then pop_back_to fuel' mip_level (removelast levels)
      else levels
  end.

(** The loop that verifies that each mip level is half the previous one.
    One unit of [fuel] is one test of the loop condition. *)
Fixpoint verify_mips (fuel mip_level : nat)
    (current_mip_width current_mip_height : Z) (levels : list Level) : list Level :=
  match fuel with
  | O => levels
  | S fuel' =>
      if bool_decide (mip_level < length levels)%nat then
        if negb (current_mip_width =? 1) || negb (current_mip_height =? 1) then
          let current_mip_width := Z.max (current_mip_width / 2) 1 in
          let current_mip_height := Z.max (current_mip_height / 2) 1 in
          match levels !! mip_level with
          | Some level =>
              if (current_mip_width =? width level)
                 && (current_mip_height =? height level)
              then (* continue *)
                verify_mips fuel' (S mip_level)
                  current_mip_width current_mip_height levels
              else (* drop this mip level and any others after it *)
                verify_mips fuel' (S mip_level)
                  current_mip_width current_mip_height
                  (pop_back_to (length levels) mip_level levels)
          | None => levels
          end
        else (* more than a single 1x1 mipmap *)
          verify_mips fuel' (S mip_level)
            current_mip_width current_mip_height
            (pop_back_to (length levels) mip_level levels)
      else levels
  end.

(** [std::any_of(levels, l.format != levels[0].format)] *)
Definition inconsistent_formats (levels : list Level) : bool :=
  match levels with
  | [] => false
  | first_mip :: _ =>
      existsb (λ l, negb (bool_decide (format l = format first_mip))) levels
  end.

(** [base_filename], with [fmt::format("_mip{}", mip_level)] appended for a
    level other than 0. *)
Definition mip_filename (base_filename : string) (mip_level : nat) : string :=
  match mip_level with
  | O => base_filename
  | S _ => base_filename +:+ "_mip" +:+ fmt_uint (Z.of_nat mip_level)
  end.

Section Loader.

(** The codec and the file system, outside this translation unit:
    [LoadDDSTexture(HiresTexture*, path)] gives the levels of a DDS file
    (none when the file is no DDS file), [LoadDDSTexture(Level&, path,
    mip_level)] one level, [ReadFile] the bytes [File::IOFile] reads and
    [LoadPNG] the decoded [(data, width, height)] of [Common::LoadPNG]. *)
Variable LoadDDSTexture_file : string → list Level.
Variable LoadDDSTexture_level : string → nat → option Level.
Variable ReadFile : string → list byte.
Variable LoadPNG : list byte → option (list byte * Z * Z).

Definition LoadTexture (buffer : list byte) : option Level :=
  match LoadPNG buffer with
  | None => None
  | Some (data, width, height) =>
      match data with
      | [] => None
      | _ :: _ => Some (mkLevel data RGBA8 width height width)
      end
  end.

(** One level: the DDS loader first, the PNG loader when it fails. *)
Definition load_level (path : string) (mip_level : nat) : option Level :=
  match LoadDDSTexture_level path mip_level with
  | Some level => Some level
  | None => LoadTexture (ReadFile path)
  end.

(** The loop over the remaining mip levels; [None] when [fuel] runs out
    before the loop breaks. *)
Fixpoint load_levels (fuel : nat) (textureMap : gmap string DiskTexture)
    (base_filename : string) (mip_level : nat) (levels : list Level)
    : option (list Level) :=
  match fuel with
  | O => None
  | S fuel' =>
      match textureMap !! mip_filename base_filename mip_level with
      | None => Some levels
      | Some file =>
          match load_level (path file) mip_level with
          | None => Some levels
          | Some level =>
              load_levels fuel' textureMap base_filename (S mip_level)
                          (levels ++ [level])
          end
      end
  end.

(** Everything after level 0 was found in the catalog: the checks on the
    assembled chain. [width] and [height], the native size, only feed the
    log. *)
Definition check_levels (has_arb : bool) (levels : list Level)
    : option HiresTexture :=
  match levels with
  | [] => None
  | first_mip :: _ =>
      let levels :=
        verify_mips (length levels) 1 (width first_mip) (height first_mip) levels in
      if inconsistent_formats levels then None
      else Some (mkHiresTexture levels has_arb)
  end.

Definition Load (base_filename : string) (width height : Z)
    : M (option HiresTexture) :=
  modify (add_event (EvLoad base_filename));;
  w ← get;
  match s_textureMap w !! base_filename with
  | None => mret None
  | Some first_mip_file =>
      let ret_levels := LoadDDSTexture_file (path first_mip_file) in
      match load_levels (S (size (s_textureMap w))) (s_textureMap w)
                        base_filename (length ret_levels) ret_levels with
      | None => fault
      | Some levels =>
          mret (check_levels (has_arbitrary_mipmaps first_mip_file) levels)
      end
  end.

(** ** The cache: [HiresTexture::Search] *)

Variable XXH64 : list byte → Z → Z.

Definition Search (texture tlut : list byte) (width height format : Z)
    (has_mipmaps : bool) : M (option HiresTexture) :=
  base_filename ←
    GenBaseName XXH64 texture tlut width height format has_mipmaps false;
  (* std::lock_guard<std::mutex> lk(s_textureCacheMutex); *)
  modify (add_event EvLock);;
  w ← get;
  match s_textureCache w !! base_filename with
  | Some ptr =>
      modify (add_event EvUnlock);;
      mret ptr
  | None =>
      ptr ← Load base_filename width height;
      (if bool_decide (is_Some ptr) && bCacheHiresTextures (g_ActiveConfig w)
       then
         modify (add_event (EvInsert base_filename));;
         modify (λ w, set_textureCache (<[base_filename := ptr]> (s_textureCache w)) w)
       else mret tt);;
      modify (add_event EvUnlock);;
      mret ptr
  end.

(** ** The prefetcher: [HiresTexture::Prefetch] *)

Definition recommended_min_mem : Z := wrap64 (2 * (1024 * 1024 * 1024)).

Definition max_mem (sys_mem : Z) : Z :=
  if sys_mem / 2 <? recommended_min_mem
  then sys_mem / 2
  else wrap64 (sys_mem - recommended_min_mem).

(** [for (const Level& l : levels) size_sum += l.data.size();] *)
Definition add_sizes (levels : list Level) (size_sum : Z) : Z :=
  fold_left (λ sum l, wrap64 (sum + Z.of_nat (length (data l)))) levels size_sum.

(** [m.insert(hint, {k, v})]: no effect when [k] is present. *)
Definition insert_new {V} (k : string) (v : V) (m : gmap string V) : gmap string V :=
  match m !! k with
  | Some _ => m
  | None => <[k := v]> m
  end.

(** The body of the loop over [s_textureMap] up to the test of the abort
    flag: the new [size_sum]. *)
Definition Prefetch_entry (base_filename : string) (size_sum : Z) : M Z :=
  if bool_decide (String.index 0 "_mip" base_filename = None) then
    modify (add_event EvLock);;
    w ← get;
    iter ←
      match s_textureCache w !! base_filename with
      | Some ptr => mret (Some ptr)
      | None =>
          (* unlock while loading a texture *)
          modify (add_event EvUnlock);;
          texture ← Load base_filename 0 0;
          modify (add_event EvLock);;
          match texture with
          | Some _ =>
              modify (add_event (EvInsert base_filename));;
              modify (λ w, set_textureCache
                             (insert_new base_filename texture (s_textureCache w)) w);;
              w ← get;
              mret (s_textureCache w !! base_filename)
          | None => mret None
          end
      end;
    size_sum ←
      match iter with
      | None => mret size_sum
      | Some None => fault
      | Some (Some t) => mret (add_sizes (m_levels t) size_sum)
      end;
    modify (add_event EvUnlock);;
    mret size_sum
  else mret size_sum.

(** [MemPhysical()], the two readings of the timer, and what the [n]-th
    test of [s_textureCacheAbortLoading] in a run reads (the flag is set
    from the thread that calls [Update] or [Shutdown]). *)
Variable MemPhysical : Z.
Variable start_time stop_time : Z.
Variable IsSet : nat → bool.

(** The loop over the entries; [Some size_sum] when it runs to its end,
    [None] when the function returned from inside it. *)
Fixpoint Prefetch_loop (max_mem : Z) (entries : list (string * DiskTexture))
    (polls : nat) (size_sum : Z) : M (option Z) :=
  match entries with
  | [] => mret (Some size_sum)
  | entry :: entries' =>
      size_sum ← Prefetch_entry entry.1 size_sum;
      if IsSet polls then mret None
      else if max_mem <? size_sum then
        modify (set_GFX_HIRES_TEXTURES false);;
        modify (add_osd (OsdPrefetchAborted size_sum));;
        mret None
      else Prefetch_loop max_mem entries' (S polls) size_sum
  end.

(** The entries are visited in the order [entries], one of the orders of
    the unordered map. *)
Definition Prefetch_in_order (entries : list (string * DiskTexture)) : M unit :=
  r ← Prefetch_loop (max_mem MemPhysical) entries 0 0;
  match r with
  | None => mret tt
  | Some size_sum =>
      modify (add_osd (OsdPrefetchLoaded size_sum (wrap32 (stop_time - start_time))))
  end.

Definition Prefetch : M unit :=
  w ← get;
  Prefetch_in_order (map_to_list (s_textureMap w)).

End Loader.

(** ** The catalog: [HiresTexture::Update], [Clear] *)

(** [s.rfind(needle)]: the last position [needle] starts at. *)
Fixpoint rfind (needle s : string) : option nat :=
  match s with
  | EmptyString => if String.prefix needle s then Some O else None
  | String _ s' =>
      match rfind needle s' with
      | Some i => Some (S i)
      | None => if String.prefix needle s then Some O else None
      end
  end.

(** [s.erase(pos, n)] *)
Definition erase (pos n : nat) (s : string) : string :=
  substring 0 pos s +:+ substring (pos + n) (String.length s - (pos + n)) s.

(** [m.try_emplace(k, v)]: the first entry of a name wins. *)
Definition try_emplace {V} (k : string) (v : V) (m : gmap string V) : gmap string V :=
  match m !! k with
  | Some _ => m
  | None => <[k := v]> m
  end.

(** [HiresTexture::Clear] *)
Definition Clear : M unit :=
  modify (set_textureMap ∅);;
  modify (set_textureCache ∅).

Section Catalog.

(** The directories [GetTextureDirectoriesWithGameId] returns, the files
    [Common::DoFileSearch] finds in one of them, and the file name
    [SplitPath] extracts from a path. *)
Variable texture_directories : list string.
Variable DoFileSearch : string → list string.
Variable SplitPath_filename : string → string.

(** The body of the loop over [texture_paths]. *)
Definition add_texture_path (path : string) (textureMap : gmap string DiskTexture)
    : gmap string DiskTexture :=
  let filename := SplitPath_filename path in
  if String.prefix s_format_prefix filename then
    let arb_index := rfind "_arb" filename in
    let has_arbitrary_mipmaps := bool_decide (is_Some arb_index) in
    let filename :=
      match arb_index with
      | Some i => erase i 4 filename
      | None => filename
      end in
    try_emplace filename (mkDiskTexture path has_arbitrary_mipmaps) textureMap
  else textureMap.

(** [Update] between the join of the old prefetcher and the start of the
    new one; the two thread operations are not part of the state. *)
Definition Update : M unit :=
  w ← get;
  if negb (bHiresTextures (g_ActiveConfig w)) then Clear
  else
    (if negb (bCacheHiresTextures (g_ActiveConfig w))
     then modify (set_textureCache ∅)
     else mret tt);;
    modify (λ w, set_textureMap
      (fold_left (λ m texture_directory,
                    fold_left (λ m path, add_texture_path path m)
                              (DoFileSearch texture_directory) m)
                 texture_directories (s_textureMap w)) w);;
    if bCacheHiresTextures (g_ActiveConfig w) then
      (* remove cached but deleted textures *)
      modify (λ w, set_textureCache
        (filter (λ kv, is_Some (s_textureMap w !! kv.1)) (s_textureCache w)) w)
    else mret tt.

End Catalog.

(** ** The hash function

    [XXH64] belongs to the xxHash library. The resolver above takes it as a
    parameter; this is the algorithm the library publishes (XXH64, 64-bit
    accumulators, little-endian reads), used where a hash value of concrete
    bytes is needed. *)

Module XXHash.

Definition PRIME64_1 : Z := 0x9E3779B185EBCA87.
Definition PRIME64_2 : Z := 0xC2B2AE3D27D4EB4F.
Definition PRIME64_3 : Z := 0x165667B19E3779F9.
Definition PRIME64_4 : Z := 0x85EBCA77C2B2AE63.
Definition PRIME64_5 : Z := 0x27D4EB2F165667C5.

Definition rotl64 (x r : Z) : Z :=
  Z.lor (wrap64 (Z.shiftl x r)) (Z.shiftr x (64 - r)).

(** Little-endian value of a run of bytes. *)
Fixpoint read_le (bs : list byte) : Z :=
  match bs with
  | [] => 0
  | b :: bs' => u8 b + 256 * read_le bs'
  end.

Definition round (acc input : Z) : Z :=
  wrap64 (rotl64 (wrap64 (acc + input * PRIME64_2)) 31 * PRIME64_1).

Definition mergeRound (acc val : Z) : Z :=
  wrap64 (Z.lxor acc (round 0 val) * PRIME64_1 + PRIME64_4).

(** The stripes of 32 bytes; returns the accumulators and the tail. *)
Fixpoint stripes (fuel : nat) (p : list byte) (v : Z * Z * Z * Z)
    : Z * Z * Z * Z * list byte :=
  match fuel with
  | O => (v, p)
  | S fuel' =>
      if bool_decide (32 ≤ length p)%nat then
        let '(v1, v2, v3, v4) := v in
        stripes fuel' (drop 32 p)
          (round v1 (read_le (take 8 p)),
           round v2 (read_le (take 8 (drop 8 p))),
           round v3 (read_le (take 8 (drop 16 p))),
           round v4 (read_le (take 8 (drop 24 p))))
      else (v, p)
  end.

Fixpoint finalize8 (fuel : nat) (p : list byte) (h64 : Z) : Z * list byte :=
  match fuel with
  | O => (h64, p)
  | S fuel' =>
      if bool_decide (8 ≤ length p)%nat then
        let k1 := round 0 (read_le (take 8 p)) in
        let h64 := Z.lxor h64 k1 in
        finalize8 fuel' (drop 8 p)
          (wrap64 (rotl64 h64 27 * PRIME64_1 + PRIME64_4))
      else (h64, p)
  end.

Definition finalize4 (p : list byte) (h64 : Z) : Z * list byte :=
  if bool_decide (4 ≤ length p)%nat then
    let h64 := Z.lxor h64 (wrap64 (read_le (take 4 p) * PRIME64_1)) in
    (wrap64 (rotl64 h64 23 * PRIME64_2 + PRIME64_3), drop 4 p)
  else (h64, p).

Definition finalize1 (p : list byte) (h64 : Z) : Z :=
  fold_left (λ h64 b,
    let h64 := Z.lxor h64 (wrap64 (u8 b * PRIME64_5)) in
    wrap64 (rotl64 h64 11 * PRIME64_1)) p h64.

Definition avalanche (h64 : Z) : Z :=
  let h64 := Z.lxor h64 (Z.shiftr h64 33) in
  let h64 := wrap64 (h64 * PRIME64_2) in
  let h64 := Z.lxor h64 (Z.shiftr h64 29) in
  let h64 := wrap64 (h64 * PRIME64_3) in
  Z.lxor h64 (Z.shiftr h64 32).

Definition XXH64 (input : list byte) (seed : Z) : Z :=
  let len := Z.of_nat (length input) in
  let '(h64, p) :=
    if bool_decide (32 ≤ length input)%nat then
      let '(v1, v2, v3, v4, p) :=
        stripes (length input) input
          (wrap64 (seed + PRIME64_1 + PRIME64_2), wrap64 (seed + PRIME64_2),
           wrap64 seed, wrap64 (seed - PRIME64_1)) in
      let h64 := wrap64 (rotl64 v1 1 + rotl64 v2 7 + rotl64 v3 12 + rotl64 v4 18) in
      let h64 := mergeRound h64 v1 in
      let h64 := mergeRound h64 v2 in
      let h64 := mergeRound h64 v3 in
      let h64 := mergeRound h64 v4 in
      (h64, p)
    else (wrap64 (seed + PRIME64_5), input) in
  let h64 := wrap64 (h64 + len) in
  let '(h64, p) := finalize8 (length p) p h64 in
  let '(h64, p) := finalize4 p h64 in
  avalanche (finalize1 p h64).

End XXHash.

(** * Definitions for the properties *)

Ltac unfold_M :=
  unfold mbind, mret, M_bind, M_ret, get, modify, fault in *.

(** The ceiling in the words of the specification: half of physical memory,
    or physical memory minus the reserve when that is smaller. *)
Definition max_mem_spec (sys_mem : Z) : Z :=
  if sys_mem - recommended_min_mem <? sys_mem / 2
  then sys_mem - recommended_min_mem
  else sys_mem / 2.

(** The 14-bit scan in the words of the specification: every consecutive
    16-bit little-endian entry of the texel stream, masked to 14 bits. *)
Fixpoint scan_halfwords_spec (texture : list byte) (mm : Z * Z) : Z * Z :=
  match texture with
  | b0 :: b1 :: rest =>
      let entry := Z.land (u8 b0 + 256 * u8 b1) 0x3fff in
      scan_halfwords_spec rest (Z.min (fst mm) entry, Z.max (snd mm) entry)
  | _ => mm
  end.

(** The first of [names] that has a catalog entry, the empty string when
    none has. *)
Definition first_existing (textureMap : gmap string DiskTexture)
    (names : list string) : string :=
  default "" (find (contains textureMap) names).

(** What a scan can leave in [(min, max)]: the initial values, or a
    non-empty range of 16-bit indices. *)
Definition scanned (mm : Z * Z) : Prop :=
  mm = (0xffff, 0) ∨ (0 ≤ mm.1 ∧ mm.1 ≤ mm.2 ∧ mm.2 ≤ 0xffff).

(** Entry [i] of a palette: the two bytes at [2 i]. *)
Definition tlut_entry (tlut : list byte) (i : Z) : option byte * option byte :=
  (tlut !! Z.to_nat (2 * i), tlut !! Z.to_nat (2 * i + 1)).

(** The palette part of a name in the words of the specification: [_] and
    the hash of the trimmed palette in 16 hexadecimal digits, and nothing
    when no palette is left to hash. *)
Definition palette_part (XXH64 : list byte → Z → Z) (texture tlut : list byte)
    : string :=
  let '(off, tlut_size) := trim_tlut texture (Z.of_nat (length tlut)) in
  if tlut_size =? 0 then ""
  else "_" +:+ fmt_016x (XXH64 (take (Z.to_nat tlut_size)
                                     (drop (Z.to_nat off) tlut)) 0).

(** A palette part is the one a row of the mask table stands for: its
    [tlut], or its [tlut_alt] when that is not empty. *)
Definition row_matches (row : ReThreeMaskHackTlutToId) (part : string) : bool :=
  bool_decide (mask_tlut row = part)
  || (bool_decide (mask_tlut_alt row ≠ "") && bool_decide (mask_tlut_alt row = part)).

(** The chain in the words of the specification. [mip_chain_prefix w h rest]
    keeps the levels of [rest] that may follow a level of size [w] x [h]:
    no level follows a 1x1 level, and a level is kept when its size is
    [max(1, previous / 2)] in both axes; the first level that is not kept
    ends the chain. *)
Fixpoint mip_chain_prefix (w h : Z) (rest : list Level) : list Level :=
  match rest with
  | [] => []
  | level :: rest' =>
      if (w =? 1) && (h =? 1) then []
      else if (width level =? Z.max 1 (w / 2)) && (height level =? Z.max 1 (h / 2))
      then level :: mip_chain_prefix (width level) (height level) rest'
      else []
  end.

Definition valid_mip_prefix (levels : list Level) : list Level :=
  match levels with
  | [] => []
  | first_mip :: rest =>
      first_mip :: mip_chain_prefix (width first_mip) (height first_mip) rest
  end.

(** [level] has the size a mip level that follows [prev] must have, and
    [prev] is not yet 1x1. *)
Definition halved (prev level : Level) : Prop :=
  (width prev ≠ 1 ∨ height prev ≠ 1)
  ∧ width level = Z.max 1 (width prev / 2)
  ∧ height level = Z.max 1 (height prev / 2).

(** The names [Load] was entered for while the cache mutex was held, and
    whether the mutex is held after a run of events; [held] is the state of
    the mutex before the first event. *)
Fixpoint loads_under_mutex (held : bool) (events : list Event) : list string :=
  match events with
  | [] => []
  | EvLock :: events' => loads_under_mutex true events'
  | EvUnlock :: events' => loads_under_mutex false events'
  | EvLoad name :: events' =>
      if held then name :: loads_under_mutex held events'
      else loads_under_mutex held events'
  | EvInsert _ :: events' => loads_under_mutex held events'
  end.

(** The names the cache was written for while the mutex was not held. *)
Fixpoint inserts_without_mutex (held : bool) (events : list Event) : list string :=
  match events with
  | [] => []
  | EvLock :: events' => inserts_without_mutex true events'
  | EvUnlock :: events' => inserts_without_mutex false events'
  | EvLoad _ :: events' => inserts_without_mutex held events'
  | EvInsert name :: events' =>
      if held then inserts_without_mutex held events'
      else name :: inserts_without_mutex held events'
  end.

Fixpoint held_after (held : bool) (events : list Event) : bool :=
  match events with
  | [] => held
  | EvLock :: events' => held_after true events'
  | EvUnlock :: events' => held_after false events'
  | EvLoad _ :: events' => held_after held events'
  | EvInsert _ :: events' => held_after held events'
  end.

Section Resolved.

Variable XXH64 : list byte → Z → Z.

(** [resolved w w']: some sequence of [GenBaseName] calls leads from [w]
    to [w']. *)
Inductive resolved (w : World) : World → Prop :=
| resolved_refl : resolved w w
| resolved_step (w1 w2 : World) (texture tlut : list byte)
    (width height format : Z) (has_mipmaps dump : bool) (name : string) :
    resolved w w1 →
    GenBaseName XXH64 texture tlut width height format has_mipmaps dump w1
      = Ok (name, w2) →
    resolved w w2.

End Resolved.

Section LoadResults.

Variable LoadDDSTexture_file : string → list Level.
Variable LoadDDSTexture_level : string → nat → option Level.
Variable ReadFile : string → list byte.
Variable LoadPNG : list byte → option (list byte * Z * Z).

(** The chain [Load] has assembled for an entry of the catalog when the
    loop over the mip files is left. *)
Definition assembled_levels (textureMap : gmap string DiskTexture)
    (base_filename : string) (first_mip_file : DiskTexture) : list Level :=
  let ret_levels := LoadDDSTexture_file (path first_mip_file) in
  default ret_levels
    (load_levels LoadDDSTexture_level ReadFile LoadPNG
       (S (size textureMap)) textureMap base_filename
       (length ret_levels) ret_levels).

(** What [Load] returns for a name, as a function of the catalog. *)
Definition load_texture (textureMap : gmap string DiskTexture)
    (base_filename : string) : option HiresTexture :=
  match textureMap !! base_filename with
  | None => None
  | Some first_mip_file =>
      check_levels (has_arbitrary_mipmaps first_mip_file)
        (assembled_levels textureMap base_filename first_mip_file)
  end.

(** A texture some call of [Load] has returned. *)
Definition loaded (t : HiresTexture) : Prop :=
  ∃ textureMap base_filename, load_texture textureMap base_filename = Some t.

(** Every pointer the cache stores is non-null and points to a loaded
    texture. *)
Definition cache_inv (cache : gmap string (option HiresTexture)) : Prop :=
  ∀ name ptr, cache !! name = Some ptr → ∃ t, ptr = Some t ∧ loaded t.

End LoadResults.

(** ** Sample data *)

Definition sample_config : VideoConfig := mkVideoConfig true true.

(** A world whose catalog holds one texture-wildcard entry for unpaletted
    32x32 textures of format 0. *)
Definition wildcard_world : World :=
  mkWorld {[ "tex1_32x32_$_0" := mkDiskTexture "Load/Textures/tex1_32x32_$_0.png" false ]}
          ∅ ∅ None sample_config true [] [].

(** A hash function to run the resolver on the rows of the mask table: the
    big-endian value of the first eight bytes of the input. The keys of the
    table are [XXH64] values of textures of the game, which are not at
    hand; with this function a buffer that hashes to a given key is its
    eight bytes. *)
Definition prefix_hash (input : list byte) (seed : Z) : Z :=
  fold_left (λ acc b, 256 * acc + u8 b) (take 8 input) 0.

(** A 640x480 background whose hash is the key of the first row of the
    table, and a 256x256 mask texture with a 16-colour palette; the mask
    uses the palette entries 0 to 3, whose eight bytes hash to the [tlut]
    field of that row. *)
Definition background_texels : list byte := [x20; xc6; x7e; xcf; x12; x52; xaa; xcb].
Definition mask_texels : list byte := [x01; x23].
Definition mask_palette : list byte :=
  [xe3; xc3; x64; xc1; x42; x5f; x89; x3c] ++ repeat x00 24.

(** The state after [Init], with a catalog of one replacement, named after
    the id of the row. *)
Definition re3_world : World :=
  mkWorld {[ "tex1_256x256_0000000000000123_R11B01_8" :=
               mkDiskTexture "tex1_256x256_0000000000000123_R11B01_8.png" false ]}
          ∅ ReThreeMaskHackInit_table None sample_config true [] [].

Definition re3_pending_world : World :=
  set_tlutToId (Some "_20c67ecf1252aacb") re3_world.

(** The same two states with the replacement named after the palette
    hash of the mask, as a dump names it. *)
Definition re3_hashed_world : World :=
  set_textureMap
    {[ "tex1_256x256_0000000000000123_e3c364c1425f893c_8" :=
         mkDiskTexture "tex1_256x256_0000000000000123_e3c364c1425f893c_8.png" false ]}
    re3_world.

Definition re3_hashed_pending_world : World :=
  set_tlutToId (Some "_20c67ecf1252aacb") re3_hashed_world.

(** A texel stream of one byte that refers to the entries 0 and 5 of a
    16-colour palette, and three palettes: all zero, entry 3 changed, entry
    6 changed. *)
Definition two_index_texels : list byte := [x50].
Definition zero_palette : list byte := repeat x00 32.
Definition palette_entry3 : list byte := <[6%nat := xff]> (<[7%nat := xff]> zero_palette).
Definition palette_entry6 : list byte := <[12%nat := xff]> (<[13%nat := xff]> zero_palette).

Definition empty_world : World :=
  mkWorld ∅ ∅ ∅ None sample_config true [] [].

(** A catalog with the replacement for these texels and the all-zero
    palette. *)
Definition zero_palette_world : World :=
  mkWorld {[ "tex1_8x8_60f60626e794fd17_ef6eb604187a17fa_8" :=
               mkDiskTexture "tex1_8x8_60f60626e794fd17_ef6eb604187a17fa_8.png" false ]}
          ∅ ∅ None sample_config true [] [].

(** A catalog with that replacement and with the texture wildcard for the
    all-zero palette. *)
Definition palette_wildcard_world : World :=
  mkWorld (<[ "tex1_8x8_$_ef6eb604187a17fa_8" :=
                mkDiskTexture "tex1_8x8_$_ef6eb604187a17fa_8.png" false ]>
             (s_textureMap zero_palette_world))
          ∅ ∅ None sample_config true [] [].

(** A state in which a mask row is pending whose [tlut] is the palette
    part of these texels with the all-zero palette, and the catalog holds
    the replacement for them at width 256 under its full name. *)
Definition mask_row_world : World :=
  mkWorld {[ "tex1_256x256_60f60626e794fd17_ef6eb604187a17fa_8" :=
               mkDiskTexture "tex1_256x256_60f60626e794fd17_ef6eb604187a17fa_8.png"
                             false ]}
          ∅ {[ "_0123456789abcdef" := mkTlutToId "_R11B01" "_ef6eb604187a17fa" "" ]}
          (Some "_0123456789abcdef") sample_config true [] [].

(** A toy picture format for the examples: the first two bytes of a file
    are the width and the height, the rest is the pixel data. No file is a
    DDS file. *)
Definition sample_LoadPNG (buffer : list byte) : option (list byte * Z * Z) :=
  match buffer with
  | w :: h :: data => Some (data, u8 w, u8 h)
  | _ => None
  end.

Definition no_dds_file (path : string) : list Level := [].
Definition no_dds_level (path : string) (mip_level : nat) : option Level := None.

(** Three files: a 4x4 level 0, a 2x2 level 1, and a level 2 of 3x3 where
    1x1 is due. *)
Definition sample_ReadFile (path : string) : list byte :=
  if bool_decide (path = "pack/tex1_4x4_$_0.png")
  then [x04; x04; x10; x11; x12; x13; x14; x15; x16; x17]
  else if bool_decide (path = "pack/tex1_4x4_$_0_mip1.png")
  then [x02; x02; x20; x21; x22; x23]
  else if bool_decide (path = "pack/tex1_4x4_$_0_mip2.png")
  then [x03; x03; x30; x31]
  else [].

Definition sample_level0 : Level :=
  mkLevel [x10; x11; x12; x13; x14; x15; x16; x17] RGBA8 4 4 4.
Definition sample_level1 : Level := mkLevel [x20; x21; x22; x23] RGBA8 2 2 2.
Definition sample_level2 : Level := mkLevel [x30; x31] RGBA8 3 3 3.

Definition sample_texture : HiresTexture :=
  mkHiresTexture [sample_level0; sample_level1] false.

Definition sample_catalog : gmap string DiskTexture :=
  <[ "tex1_4x4_$_0" := mkDiskTexture "pack/tex1_4x4_$_0.png" false ]>
  (<[ "tex1_4x4_$_0_mip1" := mkDiskTexture "pack/tex1_4x4_$_0_mip1.png" false ]>
  (<[ "tex1_4x4_$_0_mip2" := mkDiskTexture "pack/tex1_4x4_$_0_mip2.png" false ]> ∅)).

Definition sample_world : World :=
  mkWorld sample_catalog ∅ ∅ None sample_config true [] [].

(** The same pack without the mip files. *)
Definition single_world : World :=
  mkWorld {[ "tex1_4x4_$_0" := mkDiskTexture "pack/tex1_4x4_$_0.png" false ]}
          ∅ ∅ None sample_config true [] [].

Definition single_texture : HiresTexture := mkHiresTexture [sample_level0] false.

(** The sample pack with a DDS file for mip level 1, which holds a 2x2
    level in the format DXT1. *)
Definition dxt_level1 : Level :=
  mkLevel [x40; x41; x42; x43; x44; x45; x46; x47] DXT1 2 2 2.

Definition mixed_dds_level (path : string) (mip_level : nat) : option Level :=
  if bool_decide (path = "pack/tex1_4x4_$_0_mip1.dds") then Some dxt_level1
  else None.

Definition mixed_world : World :=
  set_textureMap
    (<[ "tex1_4x4_$_0_mip1" := mkDiskTexture "pack/tex1_4x4_$_0_mip1.dds" false ]>
       sample_catalog)
    sample_world.

(** The sample pack without the file of mip level 2. *)
Definition two_level_world : World :=
  set_textureMap (delete "tex1_4x4_$_0_mip2" sample_catalog) sample_world.

Definition sample_Load :=
  Load no_dds_file no_dds_level sample_ReadFile sample_LoadPNG.
Definition sample_Search :=
  Search no_dds_file no_dds_level sample_ReadFile sample_LoadPNG XXHash.XXH64.
Definition sample_Prefetch (MemPhysical : Z) (IsSet : nat → bool) :=
  Prefetch no_dds_file no_dds_level sample_ReadFile sample_LoadPNG
           MemPhysical 0 0 IsSet.

(** The state after the sample texture was searched for, and after the
    pack without mip files was prefetched. *)
Definition searched_world : World :=
  mkWorld sample_catalog {[ "tex1_4x4_$_0" := Some sample_texture ]}
          ∅ None sample_config true []
          [EvLock; EvLoad "tex1_4x4_$_0"; EvInsert "tex1_4x4_$_0"; EvUnlock].

Definition prefetched_single_world : World :=
  mkWorld {[ "tex1_4x4_$_0" := mkDiskTexture "pack/tex1_4x4_$_0.png" false ]}
          {[ "tex1_4x4_$_0" := Some single_texture ]}
          ∅ None sample_config true []
          [EvLock; EvUnlock; EvLoad "tex1_4x4_$_0"; EvLock;
           EvInsert "tex1_4x4_$_0"; EvUnlock].

(** * Further functions of the translation unit *)

(** ** [HiresTexture::CalculateMipCount] *)

(** The [while] loop; one unit of [fuel] is one test of its condition, and
    [None] is running out of it. [mip_count++] is on a [u32]. *)
Fixpoint CalculateMipCount_loop (fuel : nat) (mip_width mip_height mip_count : Z)
    : option Z :=
  match fuel with
  | O => None
  | S fuel' =>
      if (1 <? mip_width) || (1 <? mip_height) then
        CalculateMipCount_loop fuel'
          (Z.max (mip_width / 2) 1) (Z.max (mip_height / 2) 1)
          (wrap32 (mip_count + 1))
      else Some mip_count
  end.

(** A [u32] is halved to 1 or 0 in at most 32 turns. *)
Definition CalculateMipCount (width height : Z) : option Z :=
  CalculateMipCount_loop 33 width height 1.

(** ** [HiresTexture::GetFormat], [HiresTexture::HasArbitraryMipmaps] *)

(** [m_levels.at(0).format]; [None] is the [std::out_of_range] that [at]
    throws on an empty vector. *)
Definition GetFormat (t : HiresTexture) : option AbstractTextureFormat :=
  match m_levels t !! 0%nat with
  | Some level => Some (format level)
  | None => None
  end.

Definition HasArbitraryMipmaps (t : HiresTexture) : bool :=
  m_has_arbitrary_mipmaps t.

(** ** [HiresTexture::Shutdown] *)

(** After the join of the prefetcher, which is not part of the state. *)
Definition Shutdown : M unit :=
  modify (set_textureMap ∅);;
  modify (set_textureCache ∅).

(** ** [GetTextureDirectoriesWithGameId] *)

(** [s.substr(pos)]; [None] is the [std::out_of_range] it throws for a
    [pos] behind the end of [s]. *)
Definition substr_from (pos : nat) (s : string) : option string :=
  if bool_decide (pos ≤ String.length s)%nat
  then Some (substring pos (String.length s - pos) s)
  else None.

(** [s.substr(0, n)], where [None] for [n] is [std::string::npos]. *)
Definition substr_to (n : option nat) (s : string) : string :=
  match n with
  | Some n => substring 0 n s
  | None => s
  end.

(** [s.find_first_of(c)] *)
Fixpoint find_first_of (c : ascii) (s : string) : option nat :=
  match s with
  | EmptyString => None
  | String c' s' =>
      if Ascii.eqb c' c then Some O
      else option_map S (find_first_of c s')
  end.

Section Directories.

(** [File::Exists], the [.txt] files [Common::DoFileSearch] finds under a
    directory, the file name [SplitPath] extracts from a path, and the
    separator [DIR_SEP_CHR] of Common/CommonPaths.h. *)
Variable File_Exists : string → bool.
Variable DoFileSearch_txt : string → list string.
Variable SplitPath_filename : string → string.
Variable DIR_SEP_CHR : ascii.

(** The lambda [match_gameid]. *)
Definition match_gameid (game_id filename : string) : bool :=
  let basename := SplitPath_filename filename in
  bool_decide (basename = game_id)
  || bool_decide (basename = substring 0 3 game_id).

(** The loop over the [.txt] files; [None] when [substr] throws. *)
Fixpoint add_gameid_directories (root_directory game_id : string)
    (files : list string) (result : gset string) : option (gset string) :=
  match files with
  | [] => Some result
  | file :: files' =>
      if match_gameid game_id file then
        match substr_from (String.length root_directory) file with
        | None => None
        | Some directory_path =>
            let first_path_separator_position :=
              find_first_of DIR_SEP_CHR directory_path in
            add_gameid_directories root_directory game_id files'
              ({[ root_directory
                  +:+ substr_to first_path_separator_position directory_path ]}
               ∪ result)
        end
      else add_gameid_directories root_directory game_id files' result
  end.

Definition GetTextureDirectoriesWithGameId (root_directory game_id : string)
    : option (gset string) :=
  let texture_directory := root_directory +:+ game_id in
  let result : gset string :=
    if File_Exists texture_directory then {[ texture_directory ]}
    else
      (* look for a 3-character region-free one *)
      let region_free_directory := root_directory +:+ substring 0 3 game_id in
      if File_Exists region_free_directory then {[ region_free_directory ]}
      else ∅ in
  add_gameid_directories root_directory game_id
    (DoFileSearch_txt root_directory) result.

End Directories.

(** ** Definitions for the further properties *)

(** The pointer [tlutToId] is null or points to a row of the mask table. *)
Definition pending_valid (w : World) : Prop :=
  ∀ key, tlutToId w = Some key → is_Some (reThreeHackTexMap w !! key).

(** The palette indices a texel stream refers to: two in a byte for a
    palette of 16 colours, one for a palette of 256 colours. *)
Definition nibble_indices (texture : list byte) : list Z :=
  flat_map (λ b, [Z.land (u8 b) 0xf; Z.shiftr (u8 b) 4]) texture.

Definition byte_indices (texture : list byte) : list Z := map u8 texture.

(** The values the scan for a palette of 16384 colours compares: one for
    every second byte. *)
Fixpoint halfword_values (texture : list byte) : list Z :=
  match texture with
  | [] => []
  | b :: rest =>
      Z.land (swap16 (u8 b)) 0x3fff
      :: match rest with
         | [] => []
         | _ :: rest' => halfword_values rest'
         end
  end.

(** Minimum and maximum of a list of values, from the accumulator [mm]. *)
Definition scan_indices (indices : list Z) (mm : Z * Z) : Z * Z :=
  fold_left (λ mm v, (Z.min mm.1 v, Z.max mm.2 v)) indices mm.

(** Every name the cache has an entry for has an entry in the catalog. *)
Definition cache_in_catalog (w : World) : Prop :=
  ∀ name, is_Some (s_textureCache w !! name) → is_Some (s_textureMap w !! name).

(** The names [Load] was entered for in a run of events. *)
Fixpoint loaded_names (events : list Event) : list string :=
  match events with
  | [] => []
  | EvLoad name :: events' => name :: loaded_names events'
  | _ :: events' => loaded_names events'
  end.

(** The size of the data of the texture cached under a name that is no
    mip file, added to [size_sum] as the prefetcher adds it. *)
Definition add_cached_size (cache : gmap string (option HiresTexture))
    (size_sum : Z) (name : string) : Z :=
  if bool_decide (String.index 0 "_mip" name = None) then
    match cache !! name with
    | Some (Some t) => add_sizes (m_levels t) size_sum
    | _ => size_sum
    end
  else size_sum.

(** ** Further sample data *)

(** The sample pack with the file of mip level 1 missing. *)
Definition gap_world : World :=
  set_textureMap (delete "tex1_4x4_$_0_mip1" sample_catalog) sample_world.

(** A [SplitPath] for the examples: the file name is what follows the last
    [/], without what follows its last [.]. *)
Definition sample_SplitPath_filename (path : string) : string :=
  let name :=
    match rfind "/" path with
    | Some i => substring (S i) (String.length path - S i) path
    | None => path
    end in
  match rfind "." name with
  | Some i => substring 0 i name
  | None => name
  end.

(** A texture root with the directory of the region-free id, a marker
    file two levels below the root and one directly in it. *)
Definition sample_Exists (path : string) : bool :=
  bool_decide (path = "Load/Textures/GAL").

Definition sample_txt_files (root_directory : string) : list string :=
  ["Load/Textures/My pack/ids/GALE01.txt"; "Load/Textures/GAL.txt";
   "Load/Textures/Other/readme.txt"].

(** * Properties *)

Example XXH64_empty : fmt_016x (XXHash.XXH64 [] 0) = "ef46db3751d8e999".
Proof. vm_compute. reflexivity. Qed.

Example XXH64_abc :
  fmt_016x (XXHash.XXH64 (list_byte_of_string "abc") 0) = "44bc2cf5ad770999".
Proof. vm_compute. reflexivity. Qed.

Example XXH64_39_bytes :
  fmt_016x (XXHash.XXH64
    (list_byte_of_string "Nobody inspects the spammish repetition") 0)
  = "fbcea83c8a378bf1".
Proof. vm_compute. reflexivity. Qed.

(** ** The prefetcher's memory ceiling *)

Lemma recommended_min_mem_eq : recommended_min_mem = 2 ^ 31.
Proof. reflexivity. Qed.

(** C4, as stated, fails: with 16 GiB of physical memory the source keeps
    2 GiB free and allows 14 GiB, where the stated rule gives 8 GiB. *)
Lemma max_mem_is_not_the_smaller_bound :
  max_mem (16 * 2 ^ 30) = 14 * 2 ^ 30
  ∧ max_mem_spec (16 * 2 ^ 30) = 8 * 2 ^ 30
  ∧ max_mem (16 * 2 ^ 30) ≠ max_mem_spec (16 * 2 ^ 30).
Proof. repeat split. vm_compute. discriminate. Qed.

(** C4, amended: the ceiling is half of physical memory when that half is
    below the 2 GiB reserve, and physical memory minus the reserve otherwise;
    it is the larger of the two bounds, never the smaller. *)
Theorem max_mem_is_the_larger_bound (sys_mem : Z) :
  0 ≤ sys_mem < 2 ^ 64 →
  (sys_mem / 2 < 2 ^ 31 → max_mem sys_mem = sys_mem / 2)
  ∧ (2 ^ 31 ≤ sys_mem / 2 → max_mem sys_mem = sys_mem - 2 ^ 31)
  ∧ max_mem sys_mem = Z.max (sys_mem / 2) (sys_mem - 2 ^ 31).
Proof.
  intros Hrange. unfold max_mem. rewrite recommended_min_mem_eq.
  destruct (Z.ltb_spec (sys_mem / 2) (2 ^ 31)) as [Hlt | Hge].
  - repeat split; intros; Z.to_euclidean_division_equations; lia.
  - assert (Hw : wrap64 (sys_mem - 2 ^ 31) = sys_mem - 2 ^ 31).
    { unfold wrap64. apply Z.mod_small.
      Z.to_euclidean_division_equations; lia. }
    rewrite Hw.
    repeat split; intros; Z.to_euclidean_division_equations; lia.
Qed.

Lemma max_mem_is_the_larger_bound_witness :
  0 ≤ 6 * 2 ^ 30 < 2 ^ 64 ∧ max_mem (6 * 2 ^ 30) = 4 * 2 ^ 30.
Proof.
  split; [lia |].
  destruct (max_mem_is_the_larger_bound (6 * 2 ^ 30)) as (_ & H & _); [lia |].
  rewrite H; [reflexivity | vm_compute; discriminate].
Defined.

(** ** The palette scan *)

(** The second byte of an entry never reaches the scan of the source. *)
Lemma scan_halfwords_second_byte (b0 b1 b1' : byte) (rest : list byte) (mm : Z * Z) :
  scan_halfwords (b0 :: b1 :: rest) mm = scan_halfwords (b0 :: b1' :: rest) mm.
Proof. reflexivity. Qed.

(** C6: the texel stream [00 05] holds one 16-bit entry. The scan of the
    source finds the index range [0, 0] for it and finds the same range
    whatever the second byte is: it swaps the single byte [texture[i]] and
    never reads [texture[i + 1]]. The scan the specification describes
    finds [0x500, 0x500]. *)
Theorem scan_halfwords_reads_one_byte_per_entry :
  pal_range [x00; x05] (16384 * 2) = (0, 0)
  ∧ (∀ b1 : byte, pal_range [x00; b1] (16384 * 2) = (0, 0))
  ∧ scan_halfwords_spec [x00; x05] (0xffff, 0) = (0x500, 0x500).
Proof. repeat split. Qed.

(** For a palette size the [switch] has no case for, the scan leaves
    [min = 0xffff] and [max = 0], and the trimming that follows is applied
    to them. *)
Lemma trim_tlut_unrecognized (texture : list byte) (tlut_size : Z) :
  0 < tlut_size →
  tlut_size ≠ 16 * 2 → tlut_size ≠ 256 * 2 → tlut_size ≠ 16384 * 2 →
  trim_tlut texture tlut_size = (131070, 4294836228).
Proof.
  intros Hpos H4 H8 H14. unfold trim_tlut, pal_range.
  destruct (Z.eqb_spec tlut_size 0); [lia |].
  destruct (Z.eqb_spec tlut_size (16 * 2)); [done |].
  destruct (Z.eqb_spec tlut_size (256 * 2)); [done |].
  destruct (Z.eqb_spec tlut_size (16384 * 2)); [done |].
  destruct (Z.ltb_spec 0 tlut_size); [reflexivity | lia].
Qed.

(** C5: a palette of 4 bytes has none of the recognized sizes. The range
    hashed for it starts 131070 bytes after the palette and is 4294836228
    bytes long, not the 4 bytes of the palette: the read leaves the
    buffer. *)
Theorem unrecognized_palette_size_is_trimmed
    (XXH64 : list byte → Z → Z) (w : World) :
  trim_tlut [x01] (Z.of_nat (length [x00; x00; x00; x00])) = (131070, 4294836228)
  ∧ hash_tlut XXH64 [x01] [x00; x00; x00; x00] w = Fault
  ∧ GenBaseName XXH64 [x01] [x00; x00; x00; x00] 8 8 0 false true w = Fault.
Proof. repeat split. Qed.

(** ** Wildcard precedence *)

Lemma is_empty_contains {V} (m : gmap string V) (k : string) :
  is_empty m = true → contains m k = false.
Proof.
  unfold is_empty, contains. intros Hempty.
  apply bool_decide_eq_true_1, map_size_empty_iff in Hempty. subst m.
  apply bool_decide_eq_false_2. rewrite lookup_empty. by intros [? ?].
Qed.

(** The parts of a name that do not depend on the palette. *)
Lemma name_parts_fields
    (XXH64 : list byte → Z → Z) (texture tlut : list byte)
    (width height format : Z) (has_mipmaps : bool) (w w' : World) (p : NameParts) :
  name_parts XXH64 texture tlut width height format has_mipmaps w = Ok (p, w') →
  base_name p = "tex1_" +:+ fmt_uint width +:+ "x" +:+ fmt_uint height
                +:+ (if has_mipmaps then "_m" else "")
  ∧ tex_name p = "_" +:+ fmt_016x (XXH64 texture 0)
  ∧ format_name p = "_" +:+ fmt_int format.
Proof.
  unfold name_parts. unfold_M.
  destruct (hash_tlut XXH64 texture tlut w) as [[h w1] |]; [| done].
  destruct (ReThreeMaskHack _ _ width w1) as [[r w2] |]; [| done].
  by intros [= <- <-].
Qed.

(** The palette part the resolver computes is the hash of the trimmed
    palette; hashing changes no state. *)
Lemma hash_tlut_palette_part
    (XXH64 : list byte → Z → Z) (texture tlut : list byte) (h : Z) (w w' : World) :
  hash_tlut XXH64 texture tlut w = Ok (h, w') →
  w' = w
  ∧ (if (trim_tlut texture (Z.of_nat (length tlut))).2 =? 0 then ""
     else "_" +:+ fmt_016x h)
    = palette_part XXH64 texture tlut.
Proof.
  unfold hash_tlut, palette_part, read_bytes.
  destruct (trim_tlut texture (Z.of_nat (length tlut))) as [off tlut_size].
  cbn [snd]. unfold_M.
  destruct (tlut_size =? 0); [by intros [= <- <-] |].
  destruct ((0 <=? off) && (0 <=? tlut_size)
            && (off + tlut_size <=? Z.of_nat (length tlut))); [| done].
  by intros [= <- <-].
Qed.

(** What the mask hack returns and what it leaves in [tlutToId], by the
    width. *)
Lemma ReThreeMaskHack_spec (texname part r : string) (width : Z) (w w' : World) :
  ReThreeMaskHack texname part width w = Ok (r, w') →
  (width = 320 ∨ width = 640 →
   r = part
   ∧ tlutToId w' = if contains (reThreeHackTexMap w) texname
                   then Some texname else tlutToId w)
  ∧ (width = 256 →
     match tlutToId w with
     | None => r = part ∧ tlutToId w' = None
     | Some key =>
         ∃ row,
           reThreeHackTexMap w !! key = Some row
           ∧ if row_matches row part
             then r = mask_id row ∧ tlutToId w' = None
             else r = part ∧ tlutToId w' = Some key
     end)
  ∧ (width ≠ 320 → width ≠ 640 → width ≠ 256 →
     r = part ∧ tlutToId w' = tlutToId w).
Proof.
  unfold ReThreeMaskHack, row_matches. unfold_M.
  destruct (Z.eqb_spec width 320) as [-> | H320].
  { cbn [orb]. destruct (contains (reThreeHackTexMap w) texname);
      intros [= <- <-]; split_and!; try done; lia. }
  destruct (Z.eqb_spec width 640) as [-> | H640].
  { cbn [orb]. destruct (contains (reThreeHackTexMap w) texname);
      intros [= <- <-]; split_and!; try done; lia. }
  cbn [orb]. destruct (Z.eqb_spec width 256) as [-> | H256].
  2: { intros [= <- <-]. split_and!; [lia | done | done]. }
  destruct (tlutToId w) as [key |] eqn:Hkey.
  2: { intros [= <- <-]. split_and!; [lia | by rewrite Hkey | done]. }
  destruct (reThreeHackTexMap w !! key) as [row |]; [| done].
  intros Hrun. split_and!; [lia | | done]. intros _. exists row. split; [done |].
  revert Hrun.
  destruct (bool_decide (mask_tlut row = part)); cbn [orb].
  { by intros [= <- <-]. }
  destruct (bool_decide (mask_tlut_alt row ≠ "") && bool_decide (mask_tlut_alt row = part)).
  { by intros [= <- <-]. }
  intros [= <- <-]. by rewrite Hkey.
Qed.

(** The parts of a name, the palette part included. *)
Lemma name_parts_spec
    (XXH64 : list byte → Z → Z) (texture tlut : list byte)
    (width height format : Z) (has_mipmaps : bool) (w w' : World) (p : NameParts) :
  name_parts XXH64 texture tlut width height format has_mipmaps w = Ok (p, w') →
  (width = 320 ∨ width = 640 →
   tlut_name p = palette_part XXH64 texture tlut
   ∧ tlutToId w' = if contains (reThreeHackTexMap w) (tex_name p)
                   then Some (tex_name p) else tlutToId w)
  ∧ (width = 256 →
     match tlutToId w with
     | None => tlut_name p = palette_part XXH64 texture tlut ∧ tlutToId w' = None
     | Some key =>
         ∃ row,
           reThreeHackTexMap w !! key = Some row
           ∧ if row_matches row (palette_part XXH64 texture tlut)
             then tlut_name p = mask_id row ∧ tlutToId w' = None
             else tlut_name p = palette_part XXH64 texture tlut
                  ∧ tlutToId w' = Some key
     end)
  ∧ (width ≠ 320 → width ≠ 640 → width ≠ 256 →
     tlut_name p = palette_part XXH64 texture tlut ∧ tlutToId w' = tlutToId w).
Proof.
  unfold name_parts. unfold_M.
  destruct (hash_tlut XXH64 texture tlut w) as [[h w0] |] eqn:Hhash; [| done].
  apply hash_tlut_palette_part in Hhash as [-> Hpart]. rewrite Hpart.
  destruct (ReThreeMaskHack _ _ width w) as [[r w1] |] eqn:Hhack; [| done].
  intros [= <- <-]. cbn [tlut_name tex_name].
  by apply ReThreeMaskHack_spec in Hhack.
Qed.

(** C2, amended: looking a name up ([dump = false]), the result is the
    first of texture hash with palette wildcard, texture wildcard with
    palette part, and full name, in this order, that the catalog has, and
    the empty string when it has none of them. The three names are built
    from the base [tex1_<W>x<H>[_m]], the texture hash, the format, and
    the palette part. The palette part is the hash of the trimmed palette,
    or nothing without one; only for width 256 with a mask row pending
    that stands for this palette part it is the id of that row. *)
Theorem GenBaseName_wildcard_precedence
    (XXH64 : list byte → Z → Z) (texture tlut : list byte)
    (width height format : Z) (has_mipmaps : bool) (w w' : World) (p : NameParts) :
  name_parts XXH64 texture tlut width height format has_mipmaps w = Ok (p, w') →
  base_name p = "tex1_" +:+ fmt_uint width +:+ "x" +:+ fmt_uint height
                +:+ (if has_mipmaps then "_m" else "")
  ∧ tex_name p = "_" +:+ fmt_016x (XXH64 texture 0)
  ∧ format_name p = "_" +:+ fmt_int format
  ∧ (width ≠ 256 ∨ tlutToId w = None →
     tlut_name p = palette_part XXH64 texture tlut)
  ∧ (width = 256 →
     ∀ key, tlutToId w = Some key →
       ∃ row,
         reThreeHackTexMap w !! key = Some row
         ∧ tlut_name p = if row_matches row (palette_part XXH64 texture tlut)
                         then mask_id row
                         else palette_part XXH64 texture tlut)
  ∧ value (GenBaseName XXH64 texture tlut width height format has_mipmaps false w)
    = Ok (first_existing (s_textureMap w)
            [ base_name p +:+ tex_name p +:+ "_$" +:+ format_name p;
              base_name p +:+ "_$" +:+ tlut_name p +:+ format_name p;
              base_name p +:+ tex_name p +:+ tlut_name p +:+ format_name p ]).
Proof.
  intros Hparts.
  destruct (name_parts_fields _ _ _ _ _ _ _ _ _ _ Hparts) as (Hbase & Htex & Hformat).
  destruct (name_parts_spec _ _ _ _ _ _ _ _ _ _ Hparts) as (Hwide & Hmask & Hother).
  split_and!; [done | done | done | | |].
  - intros Hplain.
    destruct (decide (width = 256)) as [H256 | H256].
    + destruct Hplain as [? | Hnone]; [done |].
      specialize (Hmask H256). rewrite Hnone in Hmask. by destruct Hmask.
    + destruct (decide (width = 320 ∨ width = 640)) as [Hw | Hw];
        [by apply Hwide | apply Hother; tauto].
  - intros H256 key Hkey. specialize (Hmask H256). rewrite Hkey in Hmask.
    destruct Hmask as (row & Hrow & Hpart). exists row. split; [done |].
    by destruct (row_matches row _); destruct Hpart.
  - unfold GenBaseName, first_existing. unfold_M. cbn [negb andb orb find].
    destruct (is_empty (s_textureMap w)) eqn:Hempty.
    + rewrite !is_empty_contains by done. reflexivity.
    + rewrite Hparts. unfold full_name.
      repeat (match goal with
              | |- context [contains ?m ?k] => destruct (contains m k)
              end; cbn [value default]; try reflexivity).
Qed.

(** C2, as stated, fails: the catalog holds the full name of the mask
    texture, with the hash of its palette, and none of the wildcard names,
    but a mask row is pending that stands for this palette, and the lookup
    returns no name: the name it looks for has the id of the row in the
    place of the palette hash. The first run has the mask table of [Init]
    and the hash function [prefix_hash]; the second has the hash function
    of the library and a table with a row for the palette of the run. *)
Lemma lookup_misses_full_name_with_pending_mask_row :
  palette_part prefix_hash mask_texels mask_palette = "_e3c364c1425f893c"
  ∧ s_textureMap re3_hashed_pending_world
    !! "tex1_256x256_0000000000000123_e3c364c1425f893c_8"
    = Some (mkDiskTexture "tex1_256x256_0000000000000123_e3c364c1425f893c_8.png"
                          false)
  ∧ GenBaseName prefix_hash mask_texels mask_palette 256 256 8 false false
      re3_hashed_pending_world
    = Ok ("", re3_hashed_world)
  ∧ GenBaseName prefix_hash mask_texels mask_palette 256 256 8 false false
      re3_hashed_world
    = Ok ("tex1_256x256_0000000000000123_e3c364c1425f893c_8", re3_hashed_world)
  ∧ palette_part XXHash.XXH64 two_index_texels zero_palette = "_ef6eb604187a17fa"
  ∧ s_textureMap mask_row_world
    !! "tex1_256x256_60f60626e794fd17_ef6eb604187a17fa_8"
    = Some (mkDiskTexture "tex1_256x256_60f60626e794fd17_ef6eb604187a17fa_8.png"
                          false)
  ∧ value (GenBaseName XXHash.XXH64 two_index_texels zero_palette 256 256 8
             false false mask_row_world)
    = Ok "".
Proof. split_and!; vm_compute; reflexivity. Qed.

Lemma GenBaseName_wildcard_precedence_witness :
  "_ef6eb604187a17fa" = palette_part XXHash.XXH64 two_index_texels zero_palette
  ∧ value (GenBaseName XXHash.XXH64 two_index_texels zero_palette 8 8 8 false false
             palette_wildcard_world)
    = Ok "tex1_8x8_$_ef6eb604187a17fa_8".
Proof.
  destruct (GenBaseName_wildcard_precedence XXHash.XXH64 two_index_texels
              zero_palette 8 8 8 false palette_wildcard_world palette_wildcard_world
              (mkNameParts "tex1_8x8" "_60f60626e794fd17" "_ef6eb604187a17fa" "_8"))
    as (_ & _ & _ & Hpart & _ & Hname).
  - vm_compute. reflexivity.
  - split; [apply Hpart; left; lia | exact Hname].
Defined.

(** ** Resolution and the state it reads and writes *)

Section ResolverState.

Variable XXH64 : list byte → Z → Z.

Local Abbreviation resolved := (resolved XXH64).

(** Hashing the palette reads no state and leaves it alone. *)
Lemma hash_tlut_pure (texture tlut : list byte) (w1 w2 : World) :
  hash_tlut XXH64 texture tlut w1
  = match hash_tlut XXH64 texture tlut w2 with
    | Ok (h, _) => Ok (h, w1)
    | Fault => Fault
    end.
Proof.
  unfold hash_tlut, read_bytes.
  destruct (trim_tlut texture (Z.of_nat (length tlut))) as [off tlut_size].
  unfold_M.
  destruct (tlut_size =? 0); [reflexivity |].
  destruct ((0 <=? off) && (0 <=? tlut_size)
            && (off + tlut_size <=? Z.of_nat (length tlut))); reflexivity.
Qed.

(** The mask hack writes [tlutToId] and nothing else. *)
Lemma ReThreeMaskHack_frame (texname tlutname r : string) (width : Z) (w w' : World) :
  ReThreeMaskHack texname tlutname width w = Ok (r, w') →
  w' = set_tlutToId (tlutToId w') w.
Proof.
  unfold ReThreeMaskHack. unfold_M. destruct w; cbn.
  repeat (match goal with
          | |- context [if ?b then _ else _] => destruct b
          | |- context [match ?o with Some _ => _ | None => _ end] => destruct o
          end; cbn);
    intros [= <- <-] || intros [=]; reflexivity.
Qed.

(** It reads [reThreeHackTexMap], and [tlutToId] when the width is 256. *)
Lemma ReThreeMaskHack_reads (texname tlutname : string) (width : Z) (w1 w2 : World) :
  reThreeHackTexMap w1 = reThreeHackTexMap w2 →
  width ≠ 256 ∨ tlutToId w1 = tlutToId w2 →
  value (ReThreeMaskHack texname tlutname width w1)
  = value (ReThreeMaskHack texname tlutname width w2).
Proof.
  intros Htable Hptr. unfold ReThreeMaskHack. unfold_M. rewrite Htable.
  destruct ((width =? 320) || (width =? 640)).
  { destruct (contains (reThreeHackTexMap w2) texname); reflexivity. }
  destruct (Z.eqb_spec width 256) as [-> | Hne]; [| reflexivity].
  destruct Hptr as [? | ->]; [done |].
  destruct (tlutToId w2) as [key |]; [| reflexivity].
  destruct (reThreeHackTexMap w2 !! key) as [row |]; [| reflexivity].
  repeat (match goal with
          | |- context [if ?b then _ else _] => destruct b
          end; cbn); reflexivity.
Qed.

Lemma name_parts_frame (texture tlut : list byte) (width height format : Z)
    (has_mipmaps : bool) (w w' : World) (p : NameParts) :
  name_parts XXH64 texture tlut width height format has_mipmaps w = Ok (p, w') →
  w' = set_tlutToId (tlutToId w') w.
Proof.
  unfold name_parts. unfold_M.
  rewrite (hash_tlut_pure texture tlut w w).
  destruct (hash_tlut XXH64 texture tlut w) as [[h ?] |]; [| done].
  destruct (ReThreeMaskHack _ _ width w) as [[r w''] |] eqn:Hhack; [| done].
  intros [= <- <-]. by eapply ReThreeMaskHack_frame.
Qed.

Lemma name_parts_reads (texture tlut : list byte) (width height format : Z)
    (has_mipmaps : bool) (w1 w2 : World) :
  reThreeHackTexMap w1 = reThreeHackTexMap w2 →
  width ≠ 256 ∨ tlutToId w1 = tlutToId w2 →
  value (name_parts XXH64 texture tlut width height format has_mipmaps w1)
  = value (name_parts XXH64 texture tlut width height format has_mipmaps w2).
Proof.
  intros Htable Hptr. unfold name_parts. unfold_M.
  rewrite (hash_tlut_pure texture tlut w1 w2).
  rewrite (hash_tlut_pure texture tlut w2 w2) at 2.
  destruct (hash_tlut XXH64 texture tlut w2) as [[h ?] |]; [| reflexivity].
  match goal with
  | |- context [ReThreeMaskHack ?t ?n width w1] =>
      pose proof (ReThreeMaskHack_reads t n width w1 w2 Htable Hptr) as Hhack;
      destruct (ReThreeMaskHack t n width w1) as [[r1 ?] |];
      destruct (ReThreeMaskHack t n width w2) as [[r2 ?] |];
      cbn in Hhack; try discriminate; [injection Hhack as -> |]; reflexivity
  end.
Qed.

(** [GenBaseName] writes [tlutToId] and nothing else. *)
Lemma GenBaseName_frame (texture tlut : list byte) (width height format : Z)
    (has_mipmaps dump : bool) (w w' : World) (name : string) :
  GenBaseName XXH64 texture tlut width height format has_mipmaps dump w = Ok (name, w') →
  w' = set_tlutToId (tlutToId w') w.
Proof.
  unfold GenBaseName. unfold_M.
  destruct (negb dump && is_empty (s_textureMap w)).
  { intros [= <- <-]. by destruct w. }
  destruct (name_parts _ _ _ _ _ _ _ w) as [[p w''] |] eqn:Hparts; [| done].
  apply name_parts_frame in Hparts.
  repeat (match goal with
          | |- context [if ?b then _ else _] => destruct b
          end); intros [= <- <-]; exact Hparts.
Qed.

(** Of the state, it reads the catalog and the mask table, and
    [tlutToId] when the width is 256. *)
Lemma GenBaseName_reads (texture tlut : list byte) (width height format : Z)
    (has_mipmaps dump : bool) (w1 w2 : World) :
  s_textureMap w1 = s_textureMap w2 →
  reThreeHackTexMap w1 = reThreeHackTexMap w2 →
  width ≠ 256 ∨ tlutToId w1 = tlutToId w2 →
  value (GenBaseName XXH64 texture tlut width height format has_mipmaps dump w1)
  = value (GenBaseName XXH64 texture tlut width height format has_mipmaps dump w2).
Proof.
  intros Hmap Htable Hptr. unfold GenBaseName. unfold_M. rewrite Hmap.
  destruct (negb dump && is_empty (s_textureMap w2)); [reflexivity |].
  pose proof (name_parts_reads texture tlut width height format has_mipmaps
                w1 w2 Htable Hptr) as Hparts.
  destruct (name_parts _ _ _ _ _ _ _ w1) as [[p1 ?] |];
    destruct (name_parts _ _ _ _ _ _ _ w2) as [[p2 ?] |];
    cbn in Hparts; try discriminate; [injection Hparts as -> | reflexivity].
  repeat (match goal with
          | |- context [if ?b then _ else _] => destruct b
          end); reflexivity.
Qed.

Lemma resolved_frame (w w' : World) :
  resolved w w' → w' = set_tlutToId (tlutToId w') w.
Proof.
  induction 1 as [| w1 w2 ? ? ? ? ? ? ? ? _ IH Hcall]; [by destruct w |].
  apply GenBaseName_frame in Hcall. rewrite Hcall, IH. reflexivity.
Qed.

(** C1, amended: with the catalog fixed, a call returns the same name
    after any sequence of other resolve calls when its width is not 256,
    and for width 256 when the pending mask row [tlutToId] is the same at
    both calls. A resolve call changes nothing but [tlutToId]. A lookup in
    an empty catalog returns the empty name at once and leaves
    [tlutToId]. Every other call composes the name from its parts, and:
    with width 320 or 640 it sets [tlutToId] to the row of the texture
    hash when the mask table has one, and leaves it otherwise; with width
    256 and a row pending that stands for the palette part of the call,
    it puts the id of the row in the place of the palette part and clears
    [tlutToId], and with another row or none pending it leaves both; with
    any other width it leaves [tlutToId]. *)
Theorem GenBaseName_deterministic_up_to_tlutToId
    (texture tlut : list byte) (width height format : Z)
    (has_mipmaps dump : bool) (w : World) :
  (∀ w',
     resolved w w' →
     width ≠ 256 ∨ tlutToId w' = tlutToId w →
     s_textureMap w' = s_textureMap w
     ∧ value (GenBaseName XXH64 texture tlut width height format has_mipmaps dump w')
       = value (GenBaseName XXH64 texture tlut width height format has_mipmaps dump w))
  ∧ (∀ name w1,
       GenBaseName XXH64 texture tlut width height format has_mipmaps dump w
       = Ok (name, w1) →
       w1 = set_tlutToId (tlutToId w1) w
       ∧ (dump = false → is_empty (s_textureMap w) = true →
          name = "" ∧ tlutToId w1 = tlutToId w)
       ∧ (dump = true ∨ is_empty (s_textureMap w) = false →
          ∃ p,
            name_parts XXH64 texture tlut width height format has_mipmaps w
            = Ok (p, w1)
            ∧ tex_name p = "_" +:+ fmt_016x (XXH64 texture 0)
            ∧ (dump = true →
               name = base_name p +:+ tex_name p +:+ tlut_name p +:+ format_name p)
            ∧ (width = 320 ∨ width = 640 →
               tlut_name p = palette_part XXH64 texture tlut
               ∧ tlutToId w1 = if contains (reThreeHackTexMap w) (tex_name p)
                               then Some (tex_name p) else tlutToId w)
            ∧ (width = 256 →
               match tlutToId w with
               | None =>
                   tlut_name p = palette_part XXH64 texture tlut
                   ∧ tlutToId w1 = None
               | Some key =>
                   ∃ row,
                     reThreeHackTexMap w !! key = Some row
                     ∧ if row_matches row (palette_part XXH64 texture tlut)
                       then tlut_name p = mask_id row ∧ tlutToId w1 = None
                       else tlut_name p = palette_part XXH64 texture tlut
                            ∧ tlutToId w1 = Some key
               end)
            ∧ (width ≠ 320 → width ≠ 640 → width ≠ 256 →
               tlut_name p = palette_part XXH64 texture tlut
               ∧ tlutToId w1 = tlutToId w))).
Proof.
  split.
  - intros w' Hcalls Hptr. apply resolved_frame in Hcalls.
    assert (s_textureMap w' = s_textureMap w) as Hmap by (by rewrite Hcalls).
    assert (reThreeHackTexMap w' = reThreeHackTexMap w) as Htable
      by (by rewrite Hcalls).
    split; [exact Hmap |]. by apply GenBaseName_reads.
  - intros name w1 Hname. split; [by eapply GenBaseName_frame |].
    revert Hname. unfold GenBaseName. unfold_M. split.
    + intros -> Hempty. revert Hname. rewrite Hempty. cbn [negb andb].
      by intros [= <- <-].
    + intros Hpast. revert Hname.
      replace (negb dump && is_empty (s_textureMap w)) with false
        by (destruct Hpast as [-> | ->]; [done | by rewrite andb_false_r]).
      destruct (name_parts _ _ _ _ _ _ _ w) as [[p w2] |] eqn:Hparts; [| done].
      destruct (name_parts_fields _ _ _ _ _ _ _ _ _ _ Hparts) as (_ & Htex & _).
      destruct (name_parts_spec _ _ _ _ _ _ _ _ _ _ Hparts)
        as (Hwide & Hmask & Hother).
      intros Hname.
      assert (w1 = w2) as ->.
      { revert Hname.
        repeat (match goal with
                | |- context [if ?b then _ else _] => destruct b
                end); by intros [= _ <-]. }
      exists p. split_and!; [done | done | | done | done | done].
      intros ->. revert Hname. cbn [negb andb orb]. unfold full_name.
      by intros [= <-].
Qed.

(** What the mask hack does with the first row of its table, for any hash
    function: once a 640x480 background whose texture hash is the key of
    the row has been named, a 256x256 texture whose palette hash is the
    [tlut] field of the row is named with the id of the row in place of
    its palette hash, which it is not before. *)
Lemma mask_hack_replaces_palette_hash
    (background mask palette : list byte) (h : Z) (w : World) :
  reThreeHackTexMap w = ReThreeMaskHackInit_table →
  tlutToId w = None →
  fmt_016x (XXH64 background 0) = "20c67ecf1252aacb" →
  hash_tlut XXH64 mask palette w = Ok (h, w) →
  (trim_tlut mask (Z.of_nat (length palette))).2 ≠ 0 →
  fmt_016x h = "e3c364c1425f893c" →
  let w1 := set_tlutToId (Some "_20c67ecf1252aacb") w in
  GenBaseName XXH64 background [] 640 480 5 false true w
    = Ok ("tex1_640x480_20c67ecf1252aacb_5", w1)
  ∧ value (GenBaseName XXH64 mask palette 256 256 8 false true w)
    = Ok ("tex1_256x256_" +:+ fmt_016x (XXH64 mask 0) +:+ "_e3c364c1425f893c_8")
  ∧ value (GenBaseName XXH64 mask palette 256 256 8 false true w1)
    = Ok ("tex1_256x256_" +:+ fmt_016x (XXH64 mask 0) +:+ "_R11B01_8").
Proof.
  intros Htable Hptr Hbg Hpal Hsize Hhex w1.
  assert (Hpal1 : hash_tlut XXH64 mask palette w1 = Ok (h, w1)).
  { rewrite (hash_tlut_pure mask palette w1 w), Hpal. reflexivity. }
  apply Z.eqb_neq in Hsize.
  split_and!.
  - unfold GenBaseName, name_parts, ReThreeMaskHack. unfold_M.
    cbn [negb andb orb].
    change (hash_tlut XXH64 background [] w) with (Ok (0, w) : result (Z * World)).
    change (trim_tlut background (Z.of_nat (length []))) with (0, 0).
    cbn -[fmt_016x ReThreeMaskHackInit_table]. rewrite Hbg, Htable. reflexivity.
  - unfold GenBaseName, name_parts, ReThreeMaskHack. unfold_M.
    cbn [negb andb orb]. rewrite Hpal, Hsize, Hhex, Hptr. reflexivity.
  - unfold GenBaseName, name_parts, ReThreeMaskHack. unfold_M.
    cbn [negb andb orb]. rewrite Hpal1, Hsize, Hhex.
    subst w1. cbn -[ReThreeMaskHackInit_table fmt_016x]. rewrite Htable.
    reflexivity.
Qed.

End ResolverState.

(** C1, as stated, fails: the same call, for the mask texture, returns no
    name before the background is resolved and the replacement's name after
    it, the catalog being the same. Resolving the background stores a
    pointer to its row in [tlutToId]; resolving the mask reads it. The
    hash function of this run is [prefix_hash];
    [mask_hack_replaces_palette_hash] is the same run for any hash function
    and any buffers with the two hash values of the row. *)
Lemma GenBaseName_depends_on_earlier_calls :
  GenBaseName prefix_hash mask_texels mask_palette 256 256 8 false false re3_world
    = Ok ("", re3_world)
  ∧ GenBaseName prefix_hash background_texels [] 640 480 5 false false re3_world
    = Ok ("", re3_pending_world)
  ∧ s_textureMap re3_pending_world = s_textureMap re3_world
  ∧ GenBaseName prefix_hash mask_texels mask_palette 256 256 8 false false re3_pending_world
    = Ok ("tex1_256x256_0000000000000123_R11B01_8", re3_world).
Proof. repeat split. Qed.

Lemma GenBaseName_deterministic_up_to_tlutToId_witness :
  value (GenBaseName prefix_hash background_texels [] 640 480 5 false false
           re3_pending_world)
  = value (GenBaseName prefix_hash background_texels [] 640 480 5 false false
             re3_world)
  ∧ tlutToId re3_pending_world = Some "_20c67ecf1252aacb".
Proof.
  destruct (GenBaseName_deterministic_up_to_tlutToId prefix_hash
              background_texels [] 640 480 5 false false re3_world)
    as [Hsame Hstate].
  split.
  - apply Hsame; [| left; discriminate].
    apply (resolved_step prefix_hash re3_world re3_world re3_pending_world
             background_texels [] 640 480 5 false false "");
      [apply resolved_refl | reflexivity].
  - destruct (Hstate "" re3_pending_world eq_refl) as (_ & _ & Hparts).
    destruct Hparts as (p & _ & Htex & _ & Hwide & _); [by right |].
    destruct Hwide as [_ Hrow]; [by right |].
    rewrite Hrow, Htex. reflexivity.
Defined.

(** ** Palette trimming *)

Lemma u8_range (b : byte) : 0 ≤ u8 b < 256.
Proof.
  unfold u8. pose proof (Byte.to_N_bounded b) as Hb. lia.
Qed.

Lemma scanned_step (mm : Z * Z) (v : Z) :
  scanned mm → 0 ≤ v ≤ 0xffff →
  scanned (Z.min mm.1 v, Z.max mm.2 v).
Proof.
  intros [-> | Hmm] Hv; right; cbn [fst snd] in *; lia.
Qed.

Lemma nibble_range (b : byte) :
  0 ≤ Z.land (u8 b) 0xf ≤ 0xffff ∧ 0 ≤ Z.shiftr (u8 b) 4 ≤ 0xffff.
Proof.
  pose proof (u8_range b) as Hb.
  change 0xf with (Z.ones 4). rewrite Z.land_ones, Z.shiftr_div_pow2 by lia.
  split; Z.to_euclidean_division_equations; lia.
Qed.

Lemma halfword_range (v : Z) : 0 ≤ Z.land v 0x3fff ≤ 0xffff.
Proof.
  change 0x3fff with (Z.ones 14). rewrite Z.land_ones by lia.
  Z.to_euclidean_division_equations; lia.
Qed.

Lemma scan_nibbles_scanned (texture : list byte) (mm : Z * Z) :
  scanned mm → scanned (scan_nibbles texture mm).
Proof.
  unfold scan_nibbles. revert mm.
  induction texture as [| b texture IH]; intros [min max] Hmm; [done |].
  cbn [fold_left]. apply IH.
  destruct (nibble_range b) as [Hlow Hhigh].
  apply (scanned_step (Z.min min _, Z.max max _)); [| done].
  by apply (scanned_step (min, max)).
Qed.

Lemma scan_bytes_scanned (texture : list byte) (mm : Z * Z) :
  scanned mm → scanned (scan_bytes texture mm).
Proof.
  unfold scan_bytes. revert mm.
  induction texture as [| b texture IH]; intros [min max] Hmm; [done |].
  cbn [fold_left]. apply IH.
  pose proof (u8_range b). apply (scanned_step (min, max)); [done | lia].
Qed.

(** Induction over a buffer two bytes at a time. *)
Lemma list_pair_ind {A} (P : list A → Prop) :
  P [] → (∀ a, P [a]) → (∀ a b l, P l → P (a :: b :: l)) → ∀ l, P l.
Proof.
  intros Hnil Hone Hstep l.
  assert (P l ∧ ∀ a, P (a :: l)) as [? _]; [| done].
  induction l as [| b l [IHl IHcons]]; [by split |].
  split; [apply IHcons | intros a; by apply Hstep].
Qed.

Lemma scan_halfwords_scanned (texture : list byte) (mm : Z * Z) :
  scanned mm → scanned (scan_halfwords texture mm).
Proof.
  revert mm. induction texture as [| b | b0 b1 rest IH] using list_pair_ind;
    intros mm Hmm; cbn [scan_halfwords]; [done | |].
  - apply scanned_step; [done | apply halfword_range].
  - apply IH, scanned_step; [done | apply halfword_range].
Qed.

Lemma pal_range_scanned (texture : list byte) (tlut_size : Z) :
  scanned (pal_range texture tlut_size).
Proof.
  assert (scanned (0xffff, 0)) as Hinit by (by left).
  unfold pal_range.
  repeat (match goal with |- context [if ?b then _ else _] => destruct b end);
    auto using scan_nibbles_scanned, scan_bytes_scanned, scan_halfwords_scanned.
Qed.

Lemma take_drop_ext {A} (l1 l2 : list A) (off len : nat) :
  (∀ j, off ≤ j < off + len → l1 !! j = l2 !! j)%nat →
  take len (drop off l1) = take len (drop off l2).
Proof.
  intros Hagree. apply list_eq. intros i. rewrite !lookup_take.
  destruct (decide (i < len)%nat); [| done].
  rewrite !lookup_drop. apply Hagree. lia.
Qed.

(** Two palettes of one size that agree on the entries from [min] to [max]
    have the same trimmed bytes. *)
Lemma read_trimmed_ext (tlut1 tlut2 : list byte) (min max : Z) (w : World) :
  length tlut1 = length tlut2 →
  0 ≤ min → min ≤ max → max ≤ 0xffff →
  (∀ i, min ≤ i ≤ max → tlut_entry tlut1 i = tlut_entry tlut2 i) →
  read_bytes tlut1 (wrap32 (2 * min)) (wrap32 (2 * (max + 1 - min))) w
  = read_bytes tlut2 (wrap32 (2 * min)) (wrap32 (2 * (max + 1 - min))) w.
Proof.
  intros Hlen Hmin Hle Hmax Hagree. unfold read_bytes, wrap32.
  rewrite !Z.mod_small by lia. rewrite Hlen.
  destruct (_ && _); [| done]. unfold_M. do 2 f_equal.
  apply take_drop_ext. intros j Hj.
  pose proof (Hagree (Z.of_nat j / 2)) as Hentry. unfold tlut_entry in Hentry.
  assert (min ≤ Z.of_nat j / 2 ≤ max) as Hi
    by (Z.to_euclidean_division_equations; lia).
  specialize (Hentry Hi). injection Hentry as Heven Hodd.
  destruct (Z.eq_dec (Z.of_nat j mod 2) 0) as [Hpar | Hpar].
  - replace (Z.to_nat (2 * (Z.of_nat j / 2))) with j in Heven
      by (Z.to_euclidean_division_equations; lia).
    exact Heven.
  - replace (Z.to_nat (2 * (Z.of_nat j / 2) + 1)) with j in Hodd
      by (Z.to_euclidean_division_equations; lia).
    exact Hodd.
Qed.

Section PaletteTrimming.

Variable XXH64 : list byte → Z → Z.

Lemma hash_tlut_ext (texture tlut1 tlut2 : list byte) (w : World) :
  length tlut1 = length tlut2 →
  Z.of_nat (length tlut1) = 16 * 2 ∨ Z.of_nat (length tlut1) = 256 * 2
    ∨ Z.of_nat (length tlut1) = 16384 * 2 →
  (∀ i, (pal_range texture (Z.of_nat (length tlut1))).1 ≤ i
        ≤ (pal_range texture (Z.of_nat (length tlut1))).2 →
        tlut_entry tlut1 i = tlut_entry tlut2 i) →
  hash_tlut XXH64 texture tlut1 w = hash_tlut XXH64 texture tlut2 w.
Proof.
  intros Hlen Hsize Hagree. unfold hash_tlut, trim_tlut. rewrite <- Hlen.
  pose proof (pal_range_scanned texture (Z.of_nat (length tlut1))) as Hscan.
  destruct (pal_range texture (Z.of_nat (length tlut1))) as [min max].
  destruct (Z.ltb_spec 0 (Z.of_nat (length tlut1))); [| lia].
  destruct (_ =? 0); [done |]. unfold_M.
  destruct Hscan as [[= -> ->] | (Hmin & Hle & Hmax)]; cbn [fst snd] in *.
  - (* nothing scanned: the range lies outside both palettes *)
    unfold read_bytes. rewrite <- Hlen.
    replace (_ && _) with false; [done |].
    symmetry. apply andb_false_intro2, Z.leb_gt.
    change (wrap32 (2 * 65535) + wrap32 (2 * (0 + 1 - 65535)))
      with 4294967298. lia.
  - by rewrite (read_trimmed_ext tlut1 tlut2 min max w).
Qed.


End PaletteTrimming.



(** ** The mip chain *)

Lemma pop_back_to_take (fuel mip_level : nat) (levels : list Level) :
  (length levels - mip_level ≤ fuel)%nat →
  pop_back_to fuel mip_level levels = take mip_level levels.
Proof.
  revert levels. induction fuel as [| fuel IH]; intros levels Hfuel; cbn [pop_back_to].
  - rewrite take_ge; [done | lia].
  - case_bool_decide as Hlt.
    + rewrite IH.
      * by apply firstn_removelast.
      * rewrite removelast_firstn_len, length_take. lia.
    + rewrite take_ge; [done | lia].
Qed.

(** Once [mip_level] has reached the size of the vector the loop is over. *)
Lemma verify_mips_done (fuel mip_level : nat) (w h : Z) (levels : list Level) :
  (length levels ≤ mip_level)%nat →
  verify_mips fuel mip_level w h levels = levels.
Proof.
  intros Hge. destruct fuel as [| fuel]; cbn [verify_mips]; [done |].
  case_bool_decide; [lia | done].
Qed.

Lemma verify_mips_spec (fuel : nat) (pre post : list Level) (w h : Z) :
  (length post ≤ fuel)%nat →
  verify_mips fuel (length pre) w h (pre ++ post)
  = pre ++ mip_chain_prefix w h post.
Proof.
  revert fuel pre w h.
  induction post as [| lvl post IH]; intros fuel pre w h Hfuel.
  - rewrite verify_mips_done by (rewrite length_app; cbn; lia). done.
  - destruct fuel as [| fuel]; [cbn in Hfuel; lia |].
    cbn [verify_mips mip_chain_prefix].
    rewrite bool_decide_eq_true_2 by (rewrite length_app; cbn; lia).
    assert (Hdrop : pop_back_to (length (pre ++ lvl :: post)) (length pre)
                      (pre ++ lvl :: post) = pre).
    { rewrite pop_back_to_take by lia. by rewrite take_app_length. }
    assert (Hstop : ∀ w' h', verify_mips fuel (S (length pre)) w' h' pre = pre).
    { intros. apply verify_mips_done. lia. }
    rewrite Hdrop, !Hstop.
    destruct (Z.eqb_spec w 1) as [-> | Hw], (Z.eqb_spec h 1) as [-> | Hh];
      cbn [negb orb andb]; rewrite ?app_nil_r; try done.
    all: rewrite list_lookup_middle by done.
    all: rewrite (Z.max_comm 1 (w / 2)) || rewrite (Z.max_comm 1 (1 / 2)).
    all: rewrite (Z.max_comm 1 (h / 2)) || rewrite (Z.max_comm 1 (1 / 2)).
    all: rewrite (Z.eqb_sym (width lvl)), (Z.eqb_sym (height lvl)).
    all: match goal with
         | |- context [(?a =? width ?l) && (?b =? height ?l)] =>
             destruct (Z.eqb_spec a (width l)) as [Ha | Ha];
             destruct (Z.eqb_spec b (height l)) as [Hb | Hb];
             cbn [andb]; rewrite ?app_nil_r; try done
         end.
    all: replace (S (length pre)) with (length (pre ++ [lvl]))
           by (rewrite length_app; cbn; lia).
    all: rewrite (cons_middle lvl pre post), app_assoc.
    all: rewrite IH by (cbn in Hfuel; lia).
    all: rewrite <- app_assoc; cbn [app]; by rewrite Ha, Hb.
Qed.

(** The loop of the source, run on an assembled chain, keeps exactly the
    chain the specification describes. *)
Lemma verify_mips_valid_prefix (first_mip : Level) (rest : list Level) :
  verify_mips (length (first_mip :: rest)) 1 (width first_mip) (height first_mip)
              (first_mip :: rest)
  = valid_mip_prefix (first_mip :: rest).
Proof.
  apply (verify_mips_spec _ [first_mip] rest). cbn. lia.
Qed.

Lemma mip_chain_prefix_longest (prev : Level) (rest : list Level) :
  ∃ j : nat,
    (j ≤ length rest)%nat
    ∧ mip_chain_prefix (width prev) (height prev) rest = take j rest
    ∧ (∀ i a b, (i < j)%nat →
         (prev :: rest) !! i = Some a → (prev :: rest) !! S i = Some b →
         halved a b)
    ∧ (∀ a b,
         (prev :: rest) !! j = Some a → (prev :: rest) !! S j = Some b →
         ¬ halved a b).
Proof.
  revert prev. induction rest as [| l rest IH]; intros prev.
  { exists O. split_and!; [done | done | intros; lia | intros a b _ [=]]. }
  assert (Hstop : ¬ halved prev l →
    ∃ j : nat, (j ≤ length (l :: rest))%nat ∧ [] = take j (l :: rest)
      ∧ (∀ i a b, (i < j)%nat →
           (prev :: l :: rest) !! i = Some a → (prev :: l :: rest) !! S i = Some b →
           halved a b)
      ∧ (∀ a b,
           (prev :: l :: rest) !! j = Some a → (prev :: l :: rest) !! S j = Some b →
           ¬ halved a b)).
  { intros Hbad. exists O. split_and!; [cbn; lia | done | intros; lia |].
    by intros a b [= <-] [= <-]. }
  cbn [mip_chain_prefix].
  destruct (Z.eqb_spec (width prev) 1) as [Hw | Hw],
           (Z.eqb_spec (height prev) 1) as [Hh | Hh]; cbn [andb].
  { apply Hstop. intros [[? | ?] _]; done. }
  all: destruct (Z.eqb_spec (width l) (Z.max 1 (width prev / 2))) as [Hwl | Hwl],
                (Z.eqb_spec (height l) (Z.max 1 (height prev / 2))) as [Hhl | Hhl];
    cbn [andb].
  all: try (apply Hstop; intros (_ & ? & ?); done).
  all: destruct (IH l) as (j & Hj & Hchain & Hgood & Hbad);
    exists (S j); rewrite Hchain;
    (split_and!; [cbn; lia | done | |]);
    [ intros [| i] a b Hi;
      [ intros [= <-] [= <-]; unfold halved; split_and!; auto
      | cbn; intros; eapply (Hgood i); [lia | done | done] ]
    | cbn; intros a b; apply Hbad ].
Qed.

(** The kept chain is the longest prefix of the assembled one in which
    every level is half the level before it. *)
Lemma valid_mip_prefix_longest (levels : list Level) :
  levels ≠ [] →
  ∃ k : nat,
    (1 ≤ k ≤ length levels)%nat
    ∧ valid_mip_prefix levels = take k levels
    ∧ (∀ i a b, (S i < k)%nat →
         levels !! i = Some a → levels !! S i = Some b → halved a b)
    ∧ (∀ a b,
         levels !! (k - 1)%nat = Some a → levels !! k = Some b → ¬ halved a b).
Proof.
  destruct levels as [| first_mip rest]; [done |]. intros _.
  destruct (mip_chain_prefix_longest first_mip rest) as (j & Hj & Hchain & Hgood & Hbad).
  exists (S j). cbn [valid_mip_prefix]. rewrite Hchain.
  split_and!; [lia | cbn; lia | done | |].
  - intros i a b Hi. apply Hgood. lia.
  - replace (S j - 1)%nat with j by lia. exact Hbad.
Qed.

(** A prefix of a chain of one format has one format. *)
Lemma inconsistent_formats_take (levels : list Level) (k : nat) :
  inconsistent_formats levels = false →
  inconsistent_formats (take k levels) = false.
Proof.
  destruct levels as [| first_mip rest]; [by destruct k |].
  destruct k as [| k]; [done |].
  cbn [inconsistent_formats take]. intros Hall. apply not_true_is_false. intros Hex.
  apply existsb_exists in Hex as (l & Hin & Hl).
  assert (existsb (λ l, negb (bool_decide (format l = format first_mip)))
            (first_mip :: rest) = true) as Hcontra; [| congruence].
  apply existsb_exists. exists l. split; [| done].
  destruct Hin as [<- | Hin]; [by left |].
  right. apply list_elem_of_In. apply list_elem_of_In in Hin.
  by apply (subseteq_take k rest).
Qed.

(** ** The names of the mip levels *)

Lemma append_inv_head (s x y : string) : s +:+ x = s +:+ y → x = y.
Proof.
  induction s as [| c s IH]; [done |].
  change (String c (s +:+ x) = String c (s +:+ y) → x = y).
  intros [= ?]. auto.
Qed.

Lemma append_empty_r (s : string) : s +:+ "" = s.
Proof.
  induction s as [| c s IH]; [done |].
  change (String c (s +:+ "") = String c s). by rewrite IH.
Qed.

Lemma N_to_uint_nonnil (n : N) : N.to_uint n ≠ Decimal.Nil.
Proof. destruct n; cbn; [done |]. apply DecimalPos.Unsigned.to_uint_nonnil. Qed.

Lemma fmt_uint_inj (a b : nat) :
  fmt_uint (Z.of_nat a) = fmt_uint (Z.of_nat b) → a = b.
Proof.
  unfold fmt_uint. intros Heq.
  apply (f_equal DecimalString.NilZero.uint_of_string) in Heq.
  rewrite !DecimalString.NilZero.usu in Heq by apply N_to_uint_nonnil.
  injection Heq as Heq. apply DecimalN.Unsigned.to_uint_inj in Heq. lia.
Qed.

(** Different levels have different file names. *)
Lemma mip_filename_inj (base_filename : string) (m n : nat) :
  mip_filename base_filename m = mip_filename base_filename n → m = n.
Proof.
  unfold mip_filename. destruct m as [| m], n as [| n]; [done | | |].
  - intros Heq. rewrite <- (append_empty_r base_filename) in Heq at 1.
    by apply append_inv_head in Heq.
  - intros Heq. rewrite <- (append_empty_r base_filename) in Heq at 2.
    by apply append_inv_head in Heq.
  - intros Heq. apply append_inv_head in Heq. injection Heq as Heq.
    by apply fmt_uint_inj.
Qed.

Section LoaderProperties.

Variable LoadDDSTexture_file : string → list Level.
Variable LoadDDSTexture_level : string → nat → option Level.
Variable ReadFile : string → list byte.
Variable LoadPNG : list byte → option (list byte * Z * Z).

Local Abbreviation levels_from :=
  (load_levels LoadDDSTexture_level ReadFile LoadPNG).
Local Abbreviation Load_from :=
  (Load LoadDDSTexture_file LoadDDSTexture_level ReadFile LoadPNG).
Local Abbreviation assembled_levels :=
  (assembled_levels LoadDDSTexture_file LoadDDSTexture_level ReadFile LoadPNG).
Local Abbreviation load_texture :=
  (load_texture LoadDDSTexture_file LoadDDSTexture_level ReadFile LoadPNG).

(** The loop over the mip files ends: every turn finds another name of
    the catalog. *)
Lemma load_levels_fuel (textureMap : gmap string DiskTexture)
    (base_filename : string) (fuel mip_level : nat) (levels : list Level)
    (names : gset string) :
  (size names < fuel)%nat →
  (∀ n, (mip_level ≤ n)%nat →
        is_Some (textureMap !! mip_filename base_filename n) →
        mip_filename base_filename n ∈ names) →
  is_Some (levels_from fuel textureMap base_filename mip_level levels).
Proof.
  revert mip_level levels names.
  induction fuel as [| fuel IH]; intros mip_level levels names Hsize Hnames;
    [lia |].
  cbn [load_levels].
  destruct (textureMap !! mip_filename base_filename mip_level)
    as [file |] eqn:Hfile; [| done].
  destruct (load_level _ _ _ _ _) as [level |]; [| done].
  assert (mip_filename base_filename mip_level ∈ names) as Hin
    by (apply Hnames; [lia | by rewrite Hfile]).
  apply (IH _ _ (names ∖ {[mip_filename base_filename mip_level]})).
  - rewrite size_difference by set_solver. rewrite size_singleton.
    assert (size names ≠ 0)%nat; [| lia].
    intros Hzero. apply size_empty_inv in Hzero. set_solver.
  - intros n Hn Hsome. apply elem_of_difference. split; [apply Hnames; [lia | done] |].
    rewrite elem_of_singleton. intros Heq. apply mip_filename_inj in Heq. lia.
Qed.

Lemma load_levels_terminates (textureMap : gmap string DiskTexture)
    (base_filename : string) (mip_level : nat) (levels : list Level) :
  is_Some (levels_from (S (size textureMap)) textureMap base_filename
                       mip_level levels).
Proof.
  apply (load_levels_fuel _ _ _ _ _ (dom textureMap)).
  - rewrite size_dom. lia.
  - intros n _ Hsome. by apply elem_of_dom.
Qed.

(** [Load] always returns, and it changes nothing but the trace. *)
Lemma Load_eq (base_filename : string) (width height : Z) (w : World) :
  Load_from base_filename width height w
  = Ok (load_texture (s_textureMap w) base_filename,
        add_event (EvLoad base_filename) w).
Proof.
  unfold Load, load_texture, assembled_levels. unfold_M. cbn -[load_levels size].
  destruct (s_textureMap w !! base_filename) as [file |]; [| done].
  destruct (load_levels_terminates (s_textureMap w) base_filename
              (length (LoadDDSTexture_file (path file)))
              (LoadDDSTexture_file (path file))) as [levels Hlevels].
  by rewrite Hlevels.
Qed.

Lemma check_levels_eq (has_arb : bool) (levels : list Level) :
  levels ≠ [] →
  check_levels has_arb levels
  = if inconsistent_formats (valid_mip_prefix levels) then None
    else Some (mkHiresTexture (valid_mip_prefix levels) has_arb).
Proof.
  destruct levels as [| first_mip rest]; [done |]. intros _.
  unfold check_levels. by rewrite verify_mips_valid_prefix.
Qed.

(** C3, amended: of the chain [Load] has assembled, the levels kept are the first
    [k], with [k] at least 1: every kept level after level 0 has the size
    [max(1, previous / 2)] in both axes and follows a level that is not
    1x1, and level [k], when there is one, is the first that has not (a
    wrong size, or a further level after a 1x1 level). It and all levels
    after it are dropped, and the texture made of the first [k] levels is
    what [Load] goes on with: it is returned when the kept levels have one
    format, and null is returned when they have not; a chain of one format
    is always returned. *)
Theorem Load_truncates_mip_chain (base_filename : string) (width height : Z)
    (w : World) (first_mip_file : DiskTexture) (levels : list Level) :
  s_textureMap w !! base_filename = Some first_mip_file →
  assembled_levels (s_textureMap w) base_filename first_mip_file = levels →
  levels ≠ [] →
  ∃ k : nat,
    (1 ≤ k ≤ length levels)%nat
    ∧ (∀ i a b, (S i < k)%nat →
         levels !! i = Some a → levels !! S i = Some b → halved a b)
    ∧ (∀ a b,
         levels !! (k - 1)%nat = Some a → levels !! k = Some b → ¬ halved a b)
    ∧ value (Load_from base_filename width height w)
      = Ok (if inconsistent_formats (take k levels) then None
            else Some (mkHiresTexture (take k levels)
                         (has_arbitrary_mipmaps first_mip_file)))
    ∧ (inconsistent_formats levels = false →
       value (Load_from base_filename width height w)
       = Ok (Some (mkHiresTexture (take k levels)
                     (has_arbitrary_mipmaps first_mip_file)))).
Proof.
  intros Hfile Hlevels Hne.
  destruct (valid_mip_prefix_longest levels Hne) as (k & Hk & Hkept & Hgood & Hbad).
  exists k. split_and!; [lia | lia | exact Hgood | exact Hbad | |].
  - rewrite Load_eq. unfold load_texture.
    rewrite Hfile, Hlevels, check_levels_eq, Hkept by done. done.
  - intros Hformat. rewrite Load_eq. unfold load_texture.
    rewrite Hfile, Hlevels, check_levels_eq, Hkept by done.
    by rewrite inconsistent_formats_take.
Qed.

End LoaderProperties.

(** ** The cache *)

Lemma loads_under_mutex_app (held : bool) (events1 events2 : list Event) :
  loads_under_mutex held (events1 ++ events2)
  = loads_under_mutex held events1
    ++ loads_under_mutex (held_after held events1) events2.
Proof.
  revert held. induction events1 as [| [| | name | name] events1 IH]; intros held;
    cbn; [done | apply IH | apply IH | | apply IH].
  destruct held; cbn; by rewrite IH.
Qed.

Lemma inserts_without_mutex_app (held : bool) (events1 events2 : list Event) :
  inserts_without_mutex held (events1 ++ events2)
  = inserts_without_mutex held events1
    ++ inserts_without_mutex (held_after held events1) events2.
Proof.
  revert held. induction events1 as [| [| | name | name] events1 IH]; intros held;
    cbn; [done | apply IH | apply IH | apply IH |].
  destruct held; cbn; by rewrite IH.
Qed.

Lemma held_after_app (held : bool) (events1 events2 : list Event) :
  held_after held (events1 ++ events2)
  = held_after (held_after held events1) events2.
Proof.
  revert held. induction events1 as [| [| | name | name] events1 IH]; intros held;
    cbn; auto.
Qed.

Section CacheProperties.

Variable LoadDDSTexture_file : string → list Level.
Variable LoadDDSTexture_level : string → nat → option Level.
Variable ReadFile : string → list byte.
Variable LoadPNG : list byte → option (list byte * Z * Z).
Variable XXH64 : list byte → Z → Z.

Local Abbreviation Load_from :=
  (Load LoadDDSTexture_file LoadDDSTexture_level ReadFile LoadPNG).
Local Abbreviation loaded :=
  (loaded LoadDDSTexture_file LoadDDSTexture_level ReadFile LoadPNG).
Local Abbreviation cache_inv :=
  (cache_inv LoadDDSTexture_file LoadDDSTexture_level ReadFile LoadPNG).
Local Abbreviation load_from :=
  (load_texture LoadDDSTexture_file LoadDDSTexture_level ReadFile LoadPNG).
Local Abbreviation Search_from :=
  (Search LoadDDSTexture_file LoadDDSTexture_level ReadFile LoadPNG XXH64).
Local Abbreviation Prefetch_entry_from :=
  (Prefetch_entry LoadDDSTexture_file LoadDDSTexture_level ReadFile LoadPNG).

Lemma loaded_levels (t : HiresTexture) :
  loaded t → m_levels t ≠ [] ∧ inconsistent_formats (m_levels t) = false.
Proof.
  intros (textureMap & base_filename & Hload). unfold load_texture in Hload.
  destruct (textureMap !! base_filename) as [file |]; [| done].
  destruct (assembled_levels _ _ _ _ _ _ _) as [| first_mip rest] eqn:Hlevels;
    [done |].
  rewrite check_levels_eq in Hload by done.
  destruct (inconsistent_formats _) eqn:Hformat; [done |].
  injection Hload as <-. by cbn.
Qed.

Lemma cache_inv_insert (cache : gmap string (option HiresTexture))
    (name : string) (t : HiresTexture) :
  cache_inv cache → loaded t → cache_inv (<[name := Some t]> cache).
Proof.
  intros Hinv Ht name' ptr. rewrite lookup_insert. case_decide.
  - intros [= <-]. eauto.
  - apply Hinv.
Qed.

(** [Search], step by step: the name, the lookup under the mutex, and on
    a miss the load and the insertion. *)
Lemma Search_eq (texture tlut : list byte) (width height format : Z)
    (has_mipmaps : bool) (w : World) :
  Search_from texture tlut width height format has_mipmaps w
  = match GenBaseName XXH64 texture tlut width height format has_mipmaps false w with
    | Fault => Fault
    | Ok (base_filename, w1) =>
        match s_textureCache w1 !! base_filename with
        | Some ptr => Ok (ptr, add_event EvUnlock (add_event EvLock w1))
        | None =>
            let ptr := load_from (s_textureMap w1) base_filename in
            let w2 := add_event (EvLoad base_filename) (add_event EvLock w1) in
            Ok (ptr,
                add_event EvUnlock
                  (if bool_decide (is_Some ptr)
                      && bCacheHiresTextures (g_ActiveConfig w1)
                   then set_textureCache
                          (<[base_filename := ptr]> (s_textureCache w2))
                          (add_event (EvInsert base_filename) w2)
                   else w2))
        end
    end.
Proof.
  unfold Search. unfold_M.
  destruct (GenBaseName _ _ _ _ _ _ _ _ w) as [[base_filename w1] |]; [| done].
  cbn [add_event s_textureCache].
  destruct (s_textureCache w1 !! base_filename) as [ptr |]; [done |].
  rewrite Load_eq. cbn [add_event s_textureMap g_ActiveConfig].
  by destruct (bool_decide _ && _).
Qed.

(** One entry of the prefetcher, step by step. *)
Lemma Prefetch_entry_eq (base_filename : string) (size_sum : Z) (w : World) :
  Prefetch_entry_from base_filename size_sum w
  = if bool_decide (String.index 0 "_mip" base_filename = None) then
      match s_textureCache w !! base_filename with
      | Some (Some t) =>
          Ok (add_sizes (m_levels t) size_sum,
              add_event EvUnlock (add_event EvLock w))
      | Some None => Fault
      | None =>
          let w1 := add_event EvLock
                      (add_event (EvLoad base_filename)
                         (add_event EvUnlock (add_event EvLock w))) in
          match load_from (s_textureMap w) base_filename with
          | Some t =>
              Ok (add_sizes (m_levels t) size_sum,
                  add_event EvUnlock
                    (set_textureCache
                       (<[base_filename := Some t]> (s_textureCache w))
                       (add_event (EvInsert base_filename) w1)))
          | None => Ok (size_sum, add_event EvUnlock w1)
          end
      end
    else Ok (size_sum, w).
Proof.
  unfold Prefetch_entry. unfold_M. case_bool_decide; [| done].
  cbn [add_event s_textureCache].
  destruct (s_textureCache w !! base_filename) as [[t |] |] eqn:Hcache; [done | done |].
  rewrite Load_eq. cbn [add_event s_textureMap s_textureCache set_textureCache].
  destruct (load_from (s_textureMap w) base_filename) as [t |]; [| done].
  cbn [add_event s_textureCache set_textureCache]. unfold insert_new.
  rewrite Hcache. cbn [set_textureCache s_textureCache].
  by rewrite lookup_insert_eq.
Qed.

(** *** The mutex and the loader *)

(** The prefetcher enters [Load] with the mutex released, and leaves the
    mutex released. *)
Lemma Prefetch_entry_trace (base_filename : string) (size_sum r : Z) (w w' : World) :
  Prefetch_entry_from base_filename size_sum w = Ok (r, w') →
  ∃ events,
    trace w' = trace w ++ events
    ∧ loads_under_mutex false events = []
    ∧ held_after false events = false.
Proof.
  rewrite Prefetch_entry_eq. case_bool_decide.
  - destruct (s_textureCache w !! base_filename) as [[t |] |].
    + intros [= <- <-]. exists [EvLock; EvUnlock]. cbn. by rewrite <- app_assoc.
    + done.
    + intros Hret. destruct (load_from _ _) as [t |]; injection Hret as <- <-.
      * exists [EvLock; EvUnlock; EvLoad base_filename; EvLock;
                EvInsert base_filename; EvUnlock].
        cbn. by rewrite <- !app_assoc.
      * exists [EvLock; EvUnlock; EvLoad base_filename; EvLock; EvUnlock].
        cbn. by rewrite <- !app_assoc.
  - intros [= <- <-]. exists []. by rewrite app_nil_r.
Qed.

(** [Search] holds the mutex from the lookup to its return; on a miss
    [Load] is entered while it is held. *)
Lemma Search_trace (texture tlut : list byte) (width height format : Z)
    (has_mipmaps : bool) (w w' : World) (r : option HiresTexture) :
  Search_from texture tlut width height format has_mipmaps w = Ok (r, w') →
  ∃ base_filename w1,
    GenBaseName XXH64 texture tlut width height format has_mipmaps false w
      = Ok (base_filename, w1)
    ∧ trace w' = trace w
                 ++ match s_textureCache w !! base_filename with
                    | Some _ => [EvLock; EvUnlock]
                    | None =>
                        if bool_decide (is_Some r)
                           && bCacheHiresTextures (g_ActiveConfig w)
                        then [EvLock; EvLoad base_filename;
                              EvInsert base_filename; EvUnlock]
                        else [EvLock; EvLoad base_filename; EvUnlock]
                    end.
Proof.
  rewrite Search_eq.
  destruct (GenBaseName _ _ _ _ _ _ _ _ w) as [[base_filename w1] |] eqn:Hname;
    [| done].
  apply GenBaseName_frame in Hname as Hframe.
  assert (s_textureCache w1 = s_textureCache w) as Hcache by (by rewrite Hframe).
  assert (trace w1 = trace w) as Htrace by (by rewrite Hframe).
  assert (g_ActiveConfig w1 = g_ActiveConfig w) as Hconfig by (by rewrite Hframe).
  rewrite Hcache, Hconfig. intros Hret. exists base_filename, w1. split; [done |].
  destruct (s_textureCache w !! base_filename) as [ptr |].
  - injection Hret as <- <-. cbn. by rewrite Htrace, <- app_assoc.
  - cbn zeta in Hret. injection Hret as <- <-.
    destruct (bool_decide _ && _); cbn; by rewrite Htrace, <- !app_assoc.
Qed.

(** *** The invariant of the cache *)

(** What one entry of the prefetcher does to the state: the cache keeps
    its entries and its invariant, and only the cache and the trace
    change. *)
Lemma Prefetch_entry_effect (base_filename : string) (size_sum r : Z) (w w' : World) :
  Prefetch_entry_from base_filename size_sum w = Ok (r, w') →
  (cache_inv (s_textureCache w) → cache_inv (s_textureCache w'))
  ∧ (∀ name ptr, s_textureCache w !! name = Some ptr →
                 s_textureCache w' !! name = Some ptr)
  ∧ s_textureMap w' = s_textureMap w
  ∧ GFX_HIRES_TEXTURES w' = GFX_HIRES_TEXTURES w
  ∧ osd w' = osd w.
Proof.
  rewrite Prefetch_entry_eq. case_bool_decide; [| by intros [= <- <-]].
  destruct (s_textureCache w !! base_filename) as [[t |] |] eqn:Hcache;
    [by intros [= <- <-] | done |].
  cbn zeta. destruct (load_from _ _) as [t |] eqn:Hload;
    [| by intros [= <- <-]].
  intros [= <- <-]. cbn. split_and!; [| | done | done | done].
  - intros Hinv. apply cache_inv_insert; [done |]. by do 2 eexists.
  - intros name ptr Hname. rewrite lookup_insert_ne; [done |]. congruence.
Qed.

(** With the invariant, an entry is processed without a fault. *)
Lemma Prefetch_entry_returns (base_filename : string) (size_sum : Z) (w : World) :
  cache_inv (s_textureCache w) →
  ∃ r w', Prefetch_entry_from base_filename size_sum w = Ok (r, w').
Proof.
  intros Hinv. rewrite Prefetch_entry_eq. case_bool_decide; [| eauto].
  destruct (s_textureCache w !! base_filename) as [[t |] |] eqn:Hcache; [eauto | |].
  - apply Hinv in Hcache as (t & [=] & _).
  - cbn zeta. destruct (load_from _ _); eauto.
Qed.

Variable MemPhysical : Z.
Variable start_time stop_time : Z.
Variable IsSet : nat → bool.

Local Abbreviation Prefetch_loop_from :=
  (Prefetch_loop LoadDDSTexture_file LoadDDSTexture_level ReadFile LoadPNG IsSet).
Local Abbreviation Prefetch_in_order_from :=
  (Prefetch_in_order LoadDDSTexture_file LoadDDSTexture_level ReadFile LoadPNG
                     MemPhysical start_time stop_time IsSet).
Local Abbreviation Prefetch_from :=
  (Prefetch LoadDDSTexture_file LoadDDSTexture_level ReadFile LoadPNG
            MemPhysical start_time stop_time IsSet).

Lemma Prefetch_loop_effect (max : Z) (entries : list (string * DiskTexture))
    (polls : nat) (size_sum : Z) (r : option Z) (w w' : World) :
  Prefetch_loop_from max entries polls size_sum w = Ok (r, w') →
  (cache_inv (s_textureCache w) → cache_inv (s_textureCache w'))
  ∧ (∀ name ptr, s_textureCache w !! name = Some ptr →
                 s_textureCache w' !! name = Some ptr)
  ∧ ∃ events,
      trace w' = trace w ++ events
      ∧ loads_under_mutex false events = []
      ∧ held_after false events = false.
Proof.
  revert polls size_sum w.
  induction entries as [| entry entries IH]; intros polls size_sum w.
  { intros [= <- <-]. split_and!; [done | done |].
    exists []. by rewrite app_nil_r. }
  cbn [Prefetch_loop]. unfold_M.
  destruct (Prefetch_entry_from entry.1 size_sum w) as [[size_sum' w1] |] eqn:Hentry;
    [| done].
  destruct (Prefetch_entry_effect _ _ _ _ _ Hentry) as (Hinv & Hkeep & _).
  destruct (Prefetch_entry_trace _ _ _ _ _ Hentry) as (events & Htrace & Hloads & Hheld).
  destruct (IsSet polls).
  { intros [= <- <-]. split_and!; [done | done |]. by exists events. }
  destruct (max <? size_sum').
  { intros [= <- <-]. cbn. split_and!; [done | done |]. by exists events. }
  intros Hrest. apply IH in Hrest as (Hinv' & Hkeep' & events' & Htrace' & Hloads' & Hheld').
  split_and!; [auto | auto |].
  exists (events ++ events').
  rewrite Htrace', Htrace, <- app_assoc, loads_under_mutex_app, held_after_app.
  by rewrite Hloads, Hheld, Hloads', Hheld'.
Qed.

Lemma Prefetch_in_order_effect (entries : list (string * DiskTexture)) (w w' : World) :
  Prefetch_in_order_from entries w = Ok (tt, w') →
  (cache_inv (s_textureCache w) → cache_inv (s_textureCache w'))
  ∧ ∃ events,
      trace w' = trace w ++ events
      ∧ loads_under_mutex false events = [].
Proof.
  unfold Prefetch_in_order. unfold_M.
  destruct (Prefetch_loop_from _ entries 0 0 w) as [[r w1] |] eqn:Hloop; [| done].
  apply Prefetch_loop_effect in Hloop as (Hinv & _ & events & Htrace & Hloads & _).
  destruct r as [size_sum |]; intros [= <-]; cbn; split; eauto.
Qed.

Lemma cache_inv_empty : cache_inv ∅.
Proof. intros name ptr. by rewrite lookup_empty. Qed.

Lemma Search_effect (texture tlut : list byte) (width height format : Z)
    (has_mipmaps : bool) (w w' : World) (r : option HiresTexture) :
  Search_from texture tlut width height format has_mipmaps w = Ok (r, w') →
  (cache_inv (s_textureCache w) → cache_inv (s_textureCache w'))
  ∧ (r = None → s_textureCache w' = s_textureCache w).
Proof.
  rewrite Search_eq.
  destruct (GenBaseName _ _ _ _ _ _ _ _ w) as [[base_filename w1] |] eqn:Hname;
    [| done].
  apply GenBaseName_frame in Hname.
  assert (s_textureCache w1 = s_textureCache w) as Hcache by (by rewrite Hname).
  destruct (s_textureCache w1 !! base_filename) as [ptr |].
  { intros [= <- <-]. cbn. by rewrite Hcache. }
  cbn zeta. destruct (load_from _ _) as [t |] eqn:Hload; intros [= <- <-].
  - split; [| done]. intros Hinv.
    destruct (bCacheHiresTextures (g_ActiveConfig w1)); cbn; rewrite Hcache;
      [| done].
    apply cache_inv_insert; [done |]. by do 2 eexists.
  - cbn. by rewrite Hcache.
Qed.

Variable texture_directories : list string.
Variable DoFileSearch : string → list string.
Variable SplitPath_filename : string → string.

Local Abbreviation Update_from :=
  (Update texture_directories DoFileSearch SplitPath_filename).

Lemma Clear_effect (w w' : World) :
  Clear w = Ok (tt, w') → s_textureCache w' = ∅.
Proof. unfold Clear. unfold_M. by intros [= <-]. Qed.

Lemma Update_effect (w w' : World) :
  Update_from w = Ok (tt, w') →
  cache_inv (s_textureCache w) → cache_inv (s_textureCache w').
Proof.
  unfold Update. unfold_M.
  destruct (bHiresTextures (g_ActiveConfig w)); cbn [negb].
  - destruct (bCacheHiresTextures (g_ActiveConfig w)); cbn [negb];
      intros [= <-] Hinv; cbn.
    + intros name ptr [Hname _]%map_lookup_filter_Some. by eapply Hinv.
    + apply cache_inv_empty.
  - intros Hclear%Clear_effect _. rewrite Hclear. apply cache_inv_empty.
Qed.

(** C10: [Search], [Prefetch] in whatever order it visits the catalog,
    [Update] with its sweep, and [Clear] keep the invariant that every
    pointer stored in the cache is non-null and points to a texture [Load]
    has returned; such a texture has at least one level; and a [Search]
    that returns null, as it does when its load fails, leaves the cache as
    it was. *)
Theorem cache_invariant_preserved :
  (∀ t, loaded t → m_levels t ≠ [])
  ∧ (∀ texture tlut width height format has_mipmaps w w' r,
       Search_from texture tlut width height format has_mipmaps w = Ok (r, w') →
       (cache_inv (s_textureCache w) → cache_inv (s_textureCache w'))
       ∧ (r = None → s_textureCache w' = s_textureCache w))
  ∧ (∀ entries w w',
       Prefetch_in_order_from entries w = Ok (tt, w') →
       cache_inv (s_textureCache w) → cache_inv (s_textureCache w'))
  ∧ (∀ w w',
       Update_from w = Ok (tt, w') →
       cache_inv (s_textureCache w) → cache_inv (s_textureCache w'))
  ∧ (∀ w w',
       Clear w = Ok (tt, w') → cache_inv (s_textureCache w')).
Proof.
  split_and!.
  - intros t Ht. by apply loaded_levels.
  - intros. by eapply Search_effect.
  - intros entries w w' Hrun. by apply Prefetch_in_order_effect in Hrun as [? _].
  - apply Update_effect.
  - intros w w' Hclear%Clear_effect. rewrite Hclear. apply cache_inv_empty.
Qed.

(** The events of one entry of the prefetcher. *)
Lemma Prefetch_entry_events (base_filename : string) (size_sum r : Z) (w w' : World) :
  Prefetch_entry_from base_filename size_sum w = Ok (r, w') →
  trace w'
  = trace w
    ++ if bool_decide (String.index 0 "_mip" base_filename = None) then
         match s_textureCache w !! base_filename with
         | Some _ => [EvLock; EvUnlock]
         | None =>
             match load_from (s_textureMap w) base_filename with
             | Some _ =>
                 [EvLock; EvUnlock; EvLoad base_filename; EvLock;
                  EvInsert base_filename; EvUnlock]
             | None => [EvLock; EvUnlock; EvLoad base_filename; EvLock; EvUnlock]
             end
         end
       else [].
Proof.
  rewrite Prefetch_entry_eq. case_bool_decide.
  - destruct (s_textureCache w !! base_filename) as [[t |] |].
    + intros [= <- <-]. cbn. by rewrite <- app_assoc.
    + done.
    + intros Hret. destruct (load_from _ _) as [t |]; injection Hret as <- <-;
        cbn; by rewrite <- !app_assoc.
  - intros [= <- <-]. by rewrite app_nil_r.
Qed.

(** A run of the loop: no load with the mutex held, no write of the cache
    without it, and the mutex released at the end. *)
Lemma Prefetch_loop_mutex (max : Z) (entries : list (string * DiskTexture))
    (polls : nat) (size_sum : Z) (r : option Z) (w w' : World) :
  Prefetch_loop_from max entries polls size_sum w = Ok (r, w') →
  ∃ events,
    trace w' = trace w ++ events
    ∧ loads_under_mutex false events = []
    ∧ inserts_without_mutex false events = []
    ∧ held_after false events = false.
Proof.
  revert polls size_sum w.
  induction entries as [| entry entries IH]; intros polls size_sum w.
  { intros [= <- <-]. exists []. by rewrite app_nil_r. }
  cbn [Prefetch_loop]. unfold_M.
  destruct (Prefetch_entry_from entry.1 size_sum w) as [[size_sum' w1] |] eqn:Hentry;
    [| done].
  apply Prefetch_entry_events in Hentry.
  assert (∃ events,
            trace w1 = trace w ++ events
            ∧ loads_under_mutex false events = []
            ∧ inserts_without_mutex false events = []
            ∧ held_after false events = false)
    as (events & Htrace & Hloads & Hinserts & Hheld).
  { eexists. split; [exact Hentry |].
    case_bool_decide; [| done].
    destruct (s_textureCache w !! entry.1); [done |].
    by destruct (load_from _ _). }
  destruct (IsSet polls); [intros [= <- <-]; by exists events |].
  destruct (max <? size_sum'); [intros [= <- <-]; by exists events |].
  intros (events' & Htrace' & Hloads' & Hinserts' & Hheld')%IH.
  exists (events ++ events').
  rewrite Htrace', Htrace, <- app_assoc, loads_under_mutex_app,
    inserts_without_mutex_app, held_after_app.
  by rewrite Hloads, Hinserts, Hheld, Hloads', Hinserts', Hheld'.
Qed.

(** C9, amended: on an entry that is not cached the prefetcher takes the
    mutex for the lookup, releases it before it calls [Load], takes it
    again after [Load] has returned, writes the cache entry when there is
    a texture, and releases the mutex; a cached entry takes lock and
    unlock only, and a mip file nothing. So in a prefetch run, in whatever
    order it visits the catalog, no [Load] is entered with the mutex held
    and no cache entry is written without it. [Search] takes the mutex
    before the lookup and holds it until it returns, so on a miss its
    [Load] runs with the mutex held. *)
Theorem mutex_released_in_Prefetch_held_in_Search :
  (∀ base_filename size_sum r w w',
     Prefetch_entry_from base_filename size_sum w = Ok (r, w') →
     trace w'
     = trace w
       ++ if bool_decide (String.index 0 "_mip" base_filename = None) then
            match s_textureCache w !! base_filename with
            | Some _ => [EvLock; EvUnlock]
            | None =>
                match load_from (s_textureMap w) base_filename with
                | Some _ =>
                    [EvLock; EvUnlock; EvLoad base_filename; EvLock;
                     EvInsert base_filename; EvUnlock]
                | None =>
                    [EvLock; EvUnlock; EvLoad base_filename; EvLock; EvUnlock]
                end
            end
          else [])
  ∧ (∀ entries w w',
       Prefetch_in_order_from entries w = Ok (tt, w') →
       ∃ events,
         trace w' = trace w ++ events
         ∧ loads_under_mutex false events = []
         ∧ inserts_without_mutex false events = []
         ∧ held_after false events = false)
  ∧ (∀ texture tlut width height format has_mipmaps w w' r,
       Search_from texture tlut width height format has_mipmaps w = Ok (r, w') →
       ∃ base_filename w1 events,
         GenBaseName XXH64 texture tlut width height format has_mipmaps false w
           = Ok (base_filename, w1)
         ∧ trace w' = trace w ++ events
         ∧ inserts_without_mutex false events = []
         ∧ held_after false events = false
         ∧ (s_textureCache w !! base_filename = None →
            events
            = (if bool_decide (is_Some r) && bCacheHiresTextures (g_ActiveConfig w)
               then [EvLock; EvLoad base_filename; EvInsert base_filename; EvUnlock]
               else [EvLock; EvLoad base_filename; EvUnlock])
            ∧ loads_under_mutex false events = [base_filename])).
Proof.
  split_and!.
  - apply Prefetch_entry_events.
  - intros entries w w'. unfold Prefetch_in_order. unfold_M.
    destruct (Prefetch_loop_from _ entries 0 0 w) as [[r w1] |] eqn:Hloop; [| done].
    apply Prefetch_loop_mutex in Hloop.
    by destruct r; intros [= <-].
  - intros texture tlut width height format has_mipmaps w w' r Hsearch.
    apply Search_trace in Hsearch as (base_filename & w1 & Hname & Htrace).
    exists base_filename, w1. eexists. split; [done |]. split; [exact Htrace |].
    destruct (s_textureCache w !! base_filename).
    { by split_and!. }
    destruct (bool_decide (is_Some r) && bCacheHiresTextures (g_ActiveConfig w));
      by split_and!.
Qed.

(** C7, amended: an entry is processed without a fault and without
    removing anything from the cache; when, after it, the abort flag is not
    set and the accumulated size exceeds the ceiling, the prefetcher
    returns at once, whatever entries are left, with the feature switched
    off in the configuration and the warning with the accumulated size
    posted, the state being otherwise the one the entry left. With the
    abort flag set the prefetcher returns at once in the state the entry
    left, whatever the accumulated size: it posts no message and leaves
    the configuration as it was. *)
Theorem Prefetch_stops_over_budget (max : Z) (entry : string * DiskTexture)
    (entries : list (string * DiskTexture)) (polls : nat)
    (size_sum : Z) (w : World) :
  cache_inv (s_textureCache w) →
  ∃ size_sum' w1,
    Prefetch_entry_from entry.1 size_sum w = Ok (size_sum', w1)
    ∧ (∀ name ptr, s_textureCache w !! name = Some ptr →
                   s_textureCache w1 !! name = Some ptr)
    ∧ osd w1 = osd w
    ∧ GFX_HIRES_TEXTURES w1 = GFX_HIRES_TEXTURES w
    ∧ (IsSet polls = false →
       max < size_sum' →
       Prefetch_loop_from max (entry :: entries) polls size_sum w
       = Ok (None, add_osd (OsdPrefetchAborted size_sum')
                     (set_GFX_HIRES_TEXTURES false w1)))
    ∧ (IsSet polls = true →
       Prefetch_loop_from max (entry :: entries) polls size_sum w
       = Ok (None, w1)).
Proof.
  intros Hinv.
  destruct (Prefetch_entry_returns entry.1 size_sum w Hinv) as (size_sum' & w1 & Hentry).
  destruct (Prefetch_entry_effect _ _ _ _ _ Hentry) as (_ & Hkeep & _ & Hgfx & Hosd).
  exists size_sum', w1. split_and!; [done | done | done | done | |].
  - intros Hflag Hover. cbn [Prefetch_loop]. unfold_M. rewrite Hentry, Hflag.
    by rewrite (proj2 (Z.ltb_lt _ _) Hover).
  - intros Hflag. cbn [Prefetch_loop]. unfold_M. by rewrite Hentry, Hflag.
Qed.

End CacheProperties.

Example sample_Load_drops_level2 :
  assembled_levels no_dds_file no_dds_level sample_ReadFile sample_LoadPNG
    sample_catalog "tex1_4x4_$_0" (mkDiskTexture "pack/tex1_4x4_$_0.png" false)
  = [sample_level0; sample_level1; sample_level2]
  ∧ value (sample_Load "tex1_4x4_$_0" 4 4 sample_world) = Ok (Some sample_texture).
Proof. split; vm_compute; reflexivity. Qed.

(** C3, as stated, fails: level 2 of this chain has the wrong size and is
    dropped with nothing after it, the two levels before it are kept, and
    the replacement is not returned: the kept levels have two formats. *)
Lemma Load_rejects_kept_levels_of_two_formats :
  assembled_levels no_dds_file mixed_dds_level sample_ReadFile sample_LoadPNG
    (s_textureMap mixed_world) "tex1_4x4_$_0"
    (mkDiskTexture "pack/tex1_4x4_$_0.png" false)
  = [sample_level0; dxt_level1; sample_level2]
  ∧ valid_mip_prefix [sample_level0; dxt_level1; sample_level2]
    = [sample_level0; dxt_level1]
  ∧ format sample_level0 = RGBA8
  ∧ format dxt_level1 = DXT1
  ∧ value (Load no_dds_file mixed_dds_level sample_ReadFile sample_LoadPNG
             "tex1_4x4_$_0" 4 4 mixed_world)
    = Ok None.
Proof. split_and!; vm_compute; reflexivity. Qed.

Lemma Load_truncates_mip_chain_witness :
  ∃ k : nat,
    (1 ≤ k ≤ 3)%nat
    ∧ value (sample_Load "tex1_4x4_$_0" 4 4 sample_world)
      = Ok (Some (mkHiresTexture
                    (take k [sample_level0; sample_level1; sample_level2]) false)).
Proof.
  destruct (Load_truncates_mip_chain no_dds_file no_dds_level sample_ReadFile
              sample_LoadPNG "tex1_4x4_$_0" 4 4 sample_world
              (mkDiskTexture "pack/tex1_4x4_$_0.png" false)
              [sample_level0; sample_level1; sample_level2])
    as (k & Hk & _ & _ & _ & Hreturned).
  - vm_compute. reflexivity.
  - vm_compute. reflexivity.
  - discriminate.
  - exists k. split; [exact Hk |]. apply Hreturned. reflexivity.
Defined.

(** C9, as stated, fails for [Search]: on a miss it enters [Load] between
    taking the mutex and releasing it. *)
Lemma Search_loads_with_mutex_held :
  s_textureCache sample_world !! "tex1_4x4_$_0" = None
  ∧ sample_Search [x00] [] 4 4 0 false sample_world
    = Ok (Some sample_texture, searched_world)
  ∧ trace searched_world
    = [EvLock; EvLoad "tex1_4x4_$_0"; EvInsert "tex1_4x4_$_0"; EvUnlock]
  ∧ loads_under_mutex false (trace searched_world) = ["tex1_4x4_$_0"].
Proof. split_and!; vm_compute; reflexivity. Qed.

Lemma mutex_released_in_Prefetch_held_in_Search_witness :
  trace prefetched_single_world
  = trace single_world
    ++ [EvLock; EvUnlock; EvLoad "tex1_4x4_$_0"; EvLock;
        EvInsert "tex1_4x4_$_0"; EvUnlock]
  ∧ (∃ events,
       trace prefetched_single_world = trace single_world ++ events
       ∧ loads_under_mutex false events = []
       ∧ inserts_without_mutex false events = []
       ∧ held_after false events = false)
  ∧ loads_under_mutex false
      [EvLock; EvLoad "tex1_4x4_$_0"; EvInsert "tex1_4x4_$_0"; EvUnlock]
    = ["tex1_4x4_$_0"].
Proof.
  pose proof (mutex_released_in_Prefetch_held_in_Search
                no_dds_file no_dds_level sample_ReadFile sample_LoadPNG
                XXHash.XXH64 2 0 0 (λ _, true)) as (Hentry & Hprefetch & Hsearch).
  split_and!.
  - apply (Hentry "tex1_4x4_$_0" 0 8 single_world prefetched_single_world).
    vm_compute. reflexivity.
  - apply (Hprefetch (map_to_list (s_textureMap single_world))
                     single_world prefetched_single_world).
    vm_compute. reflexivity.
  - destruct (Hsearch [x00] [] 4 4 0 false sample_world searched_world
                      (Some sample_texture))
      as (base_filename & w1 & events & Hname & _ & _ & _ & Hmiss).
    { vm_compute. reflexivity. }
    assert (Ok (base_filename, w1) = Ok ("tex1_4x4_$_0", sample_world)) as Hrun.
    { rewrite <- Hname. vm_compute. reflexivity. }
    injection Hrun as -> ->.
    destruct (Hmiss eq_refl) as [-> Hloads]. exact Hloads.
Defined.

(** C7, as stated, fails: the ceiling is 1 byte and the first entry brings
    the accumulated size to 8 bytes, but the abort flag is set, and the
    prefetcher returns without the warning and with the feature still
    enabled. *)
Lemma Prefetch_over_budget_with_abort_set_is_silent :
  max_mem 2 = 1
  ∧ Prefetch_entry no_dds_file no_dds_level sample_ReadFile sample_LoadPNG
      "tex1_4x4_$_0" 0 single_world
    = Ok (8, prefetched_single_world)
  ∧ sample_Prefetch 2 (λ _, true) single_world = Ok (tt, prefetched_single_world)
  ∧ osd prefetched_single_world = []
  ∧ GFX_HIRES_TEXTURES prefetched_single_world = true.
Proof. split_and!; vm_compute; reflexivity. Qed.

Lemma Prefetch_stops_over_budget_witness :
  Prefetch_loop no_dds_file no_dds_level sample_ReadFile sample_LoadPNG
    (λ _, false) 1
    [("tex1_4x4_$_0", mkDiskTexture "pack/tex1_4x4_$_0.png" false)] 0 0 single_world
  = Ok (None, add_osd (OsdPrefetchAborted 8)
                (set_GFX_HIRES_TEXTURES false prefetched_single_world)).
Proof.
  destruct (Prefetch_stops_over_budget no_dds_file no_dds_level sample_ReadFile
              sample_LoadPNG (λ _, false) 1
              ("tex1_4x4_$_0", mkDiskTexture "pack/tex1_4x4_$_0.png" false) []
              0%nat 0 single_world)
    as (size_sum' & w1 & Hentry & _ & _ & _ & Hstop & _).
  - apply cache_inv_empty.
  - assert (Ok (size_sum', w1) = Ok (8, prefetched_single_world)) as Hrun.
    { rewrite <- Hentry. vm_compute. reflexivity. }
    injection Hrun as -> ->. apply Hstop; [reflexivity | lia].
Defined.

Lemma cache_invariant_preserved_witness :
  cache_inv no_dds_file no_dds_level sample_ReadFile sample_LoadPNG
            (s_textureCache searched_world).
Proof.
  refine (proj1 (proj1 (proj2 (cache_invariant_preserved
            no_dds_file no_dds_level sample_ReadFile sample_LoadPNG
            XXHash.XXH64 0 0 0 (λ _, false) [] (λ _, []) (λ s, s)))
            [x00] [] 4 4 0 false sample_world searched_world
            (Some sample_texture) _) _).
  - vm_compute. reflexivity.
  - apply cache_inv_empty.
Defined.

(** * Further properties *)

(** ** The number of mip levels *)

(** The larger side of a level, 1 at least. *)
Lemma halve_larger_side (w h : Z) :
  2 ≤ Z.max (Z.max w h) 1 →
  Z.max (Z.max (Z.max (w / 2) 1) (Z.max (h / 2) 1)) 1 = Z.max (Z.max w h) 1 / 2.
Proof. intros Hlarge. Z.to_euclidean_division_equations. lia. Qed.

Lemma log2_half (m : Z) : 2 ≤ m → Z.log2 (m / 2) = Z.log2 m - 1.
Proof.
  intros Hm. replace (m / 2) with (Z.shiftr m 1)
    by (rewrite Z.shiftr_div_pow2 by lia; reflexivity).
  rewrite Z.log2_shiftr by lia.
  assert (1 ≤ Z.log2 m) by (change 1 with (Z.log2 2); by apply Z.log2_le_mono).
  lia.
Qed.

Lemma CalculateMipCount_loop_log2 (fuel : nat) (w h c : Z) :
  0 ≤ c → c + Z.of_nat fuel < 2 ^ 32 →
  Z.log2 (Z.max (Z.max w h) 1) < Z.of_nat fuel →
  CalculateMipCount_loop fuel w h c = Some (c + Z.log2 (Z.max (Z.max w h) 1)).
Proof.
  revert w h c. induction fuel as [| fuel IH]; intros w h c Hc Hwrap Hfuel.
  { pose proof (Z.log2_nonneg (Z.max (Z.max w h) 1)). lia. }
  cbn [CalculateMipCount_loop].
  destruct (Z.ltb_spec 1 w) as [Hw | Hw], (Z.ltb_spec 1 h) as [Hh | Hh]; cbn [orb].
  4: { replace (Z.max (Z.max w h) 1) with 1 by lia. cbn. f_equal. lia. }
  all: assert (2 ≤ Z.max (Z.max w h) 1) as Hlarge by lia.
  all: unfold wrap32; rewrite Z.mod_small by lia.
  all: rewrite IH; rewrite ?halve_larger_side, ?log2_half by done;
    [f_equal; lia | lia | lia | lia].
Qed.

(** X1: for sides that fit a [u32], [CalculateMipCount] returns one more
    than the binary logarithm of the larger side, a side of 0 counting as
    1; in particular it returns 1 for 1x1 and for an empty texture. *)
Theorem CalculateMipCount_log2 (width height : Z) :
  0 ≤ width < 2 ^ 32 → 0 ≤ height < 2 ^ 32 →
  CalculateMipCount width height
  = Some (Z.log2 (Z.max (Z.max width height) 1) + 1).
Proof.
  intros Hw Hh. unfold CalculateMipCount.
  rewrite CalculateMipCount_loop_log2; [f_equal; lia | lia | cbn; lia |].
  assert (Z.log2 (Z.max (Z.max width height) 1) < 32); [| cbn; lia].
  apply Z.log2_lt_pow2; lia.
Qed.

Lemma CalculateMipCount_log2_witness :
  CalculateMipCount 640 480 = Some 10.
Proof.
  rewrite (CalculateMipCount_log2 640 480) by lia. reflexivity.
Defined.

Lemma mip_chain_prefix_length (w h : Z) (rest : list Level) :
  1 ≤ w → 1 ≤ h →
  Z.of_nat (length (mip_chain_prefix w h rest)) ≤ Z.log2 (Z.max (Z.max w h) 1).
Proof.
  revert w h. induction rest as [| level rest IH]; intros w h Hw Hh;
    cbn [mip_chain_prefix].
  { apply Z.log2_nonneg. }
  destruct ((w =? 1) && (h =? 1)) eqn:Hone; [apply Z.log2_nonneg |].
  destruct ((width level =? Z.max 1 (w / 2)) && (height level =? Z.max 1 (h / 2)))
    eqn:Hsize; [| apply Z.log2_nonneg].
  apply andb_prop in Hsize as [Hwidth%Z.eqb_eq Hheight%Z.eqb_eq].
  assert (2 ≤ Z.max (Z.max w h) 1) as Hlarge.
  { apply andb_false_iff in Hone as [?%Z.eqb_neq | ?%Z.eqb_neq]; lia. }
  specialize (IH (width level) (height level)).
  rewrite Hwidth, Hheight, (Z.max_comm 1 (w / 2)), (Z.max_comm 1 (h / 2)),
    halve_larger_side, log2_half in IH by done.
  cbn [length]. rewrite Hwidth, Hheight, (Z.max_comm 1 (w / 2)), (Z.max_comm 1 (h / 2)).
  lia.
Qed.

Lemma mip_chain_prefix_shorter (w h : Z) (rest : list Level) :
  (length (mip_chain_prefix w h rest) ≤ length rest)%nat.
Proof.
  revert w h. induction rest as [| level rest IH]; intros w h;
    cbn [mip_chain_prefix]; [done |].
  destruct ((w =? 1) && (h =? 1)); [cbn; lia |].
  destruct (_ && _); cbn [length]; [| lia]. specialize (IH (width level) (height level)). lia.
Qed.

(** Every level the validation keeps is half its predecessor. *)
Lemma mip_chain_prefix_halved (prev : Level) (rest : list Level) (i : nat) (a b : Level) :
  (prev :: mip_chain_prefix (width prev) (height prev) rest) !! i = Some a →
  (prev :: mip_chain_prefix (width prev) (height prev) rest) !! S i = Some b →
  halved a b.
Proof.
  revert prev i. induction rest as [| level rest IH]; intros prev i;
    cbn [mip_chain_prefix]; [by destruct i |].
  destruct ((width prev =? 1) && (height prev =? 1)) eqn:Hone; [by destruct i |].
  destruct ((width level =? Z.max 1 (width prev / 2))
            && (height level =? Z.max 1 (height prev / 2))) eqn:Hsize;
    [| by destruct i].
  destruct i as [| i]; [| apply IH].
  intros [= <-] [= <-].
  apply andb_prop in Hsize as [Hwidth%Z.eqb_eq Hheight%Z.eqb_eq].
  split; [| done].
  apply andb_false_iff in Hone as [?%Z.eqb_neq | ?%Z.eqb_neq]; auto.
Qed.

(** A chain of halved levels is kept whole. *)
Lemma mip_chain_prefix_whole (prev : Level) (rest : list Level) :
  (∀ i a b, (prev :: rest) !! i = Some a → (prev :: rest) !! S i = Some b →
            halved a b) →
  mip_chain_prefix (width prev) (height prev) rest = rest.
Proof.
  revert prev. induction rest as [| level rest IH]; intros prev Hchain; [done |].
  destruct (Hchain 0%nat prev level eq_refl eq_refl) as (Hone & Hwidth & Hheight).
  cbn [mip_chain_prefix].
  replace ((width prev =? 1) && (height prev =? 1)) with false
    by (symmetry; apply andb_false_iff; destruct Hone; [left | right]; lia).
  rewrite <- Hwidth, <- Hheight, !Z.eqb_refl. cbn [andb]. f_equal.
  apply IH. intros i. apply (Hchain (S i)).
Qed.

Lemma inconsistent_formats_false (first_mip : Level) (rest : list Level) (level : Level) :
  inconsistent_formats (first_mip :: rest) = false →
  level ∈ first_mip :: rest → format level = format first_mip.
Proof.
  unfold inconsistent_formats. intros Hnone Hlevel.
  destruct (decide (format level = format first_mip)) as [| Hdiffer]; [done |].
  assert (existsb (λ l, negb (bool_decide (format l = format first_mip)))
                  (first_mip :: rest) = true) as Hsome; [| congruence].
  apply existsb_exists. exists level. split; [by apply list_elem_of_In |].
  by rewrite bool_decide_eq_false_2.
Qed.

Section LoaderChain.

Variable LoadDDSTexture_file : string → list Level.
Variable LoadDDSTexture_level : string → nat → option Level.
Variable ReadFile : string → list byte.
Variable LoadPNG : list byte → option (list byte * Z * Z).

Local Abbreviation levels_from :=
  (load_levels LoadDDSTexture_level ReadFile LoadPNG).
Local Abbreviation level_from :=
  (load_level LoadDDSTexture_level ReadFile LoadPNG).
Local Abbreviation Load_from :=
  (Load LoadDDSTexture_file LoadDDSTexture_level ReadFile LoadPNG).
Local Abbreviation assembled_levels :=
  (assembled_levels LoadDDSTexture_file LoadDDSTexture_level ReadFile LoadPNG).
Local Abbreviation load_texture :=
  (load_texture LoadDDSTexture_file LoadDDSTexture_level ReadFile LoadPNG).
Local Abbreviation loaded :=
  (loaded LoadDDSTexture_file LoadDDSTexture_level ReadFile LoadPNG).
Local Abbreviation cache_inv :=
  (cache_inv LoadDDSTexture_file LoadDDSTexture_level ReadFile LoadPNG).

(** What a successful load has gone through. *)
Lemma load_texture_Some (textureMap : gmap string DiskTexture)
    (base_filename : string) (t : HiresTexture) :
  load_texture textureMap base_filename = Some t →
  ∃ first_mip_file first_mip rest,
    textureMap !! base_filename = Some first_mip_file
    ∧ assembled_levels textureMap base_filename first_mip_file = first_mip :: rest
    ∧ t = mkHiresTexture
            (first_mip :: mip_chain_prefix (width first_mip) (height first_mip) rest)
            (has_arbitrary_mipmaps first_mip_file)
    ∧ inconsistent_formats
        (first_mip :: mip_chain_prefix (width first_mip) (height first_mip) rest)
      = false.
Proof.
  unfold load_texture.
  destruct (textureMap !! base_filename) as [first_mip_file |]; [| done].
  destruct (assembled_levels textureMap base_filename first_mip_file)
    as [| first_mip rest] eqn:Hlevels; [done |].
  rewrite check_levels_eq by done. cbn [valid_mip_prefix].
  destruct (inconsistent_formats _) eqn:Hformats; [done |].
  intros [= <-]. by exists first_mip_file, first_mip, rest.
Qed.

(** X3: [Load] always returns, and changes nothing but the trace. It returns
    null for a name the catalog does not have. A texture it returns has
    the flag of the catalog entry and at least one level; all its levels
    have the format of level 0, and each level after the first has half the
    size of its predecessor, which is not yet 1x1. The native size passed
    in has no influence. *)
Theorem Load_returns_valid_chain (base_filename : string) (width height : Z)
    (w : World) :
  ∃ r,
    Load_from base_filename width height w
    = Ok (r, add_event (EvLoad base_filename) w)
    ∧ (s_textureMap w !! base_filename = None → r = None)
    ∧ ∀ t, r = Some t →
        ∃ first_mip_file first_mip,
          s_textureMap w !! base_filename = Some first_mip_file
          ∧ HasArbitraryMipmaps t = has_arbitrary_mipmaps first_mip_file
          ∧ m_levels t !! 0%nat = Some first_mip
          ∧ (∀ level, level ∈ m_levels t → format level = format first_mip)
          ∧ (∀ i a b, m_levels t !! i = Some a → m_levels t !! S i = Some b →
                      halved a b).
Proof.
  exists (load_texture (s_textureMap w) base_filename).
  split_and!; [apply Load_eq | |].
  - unfold load_texture. by intros ->.
  - intros t (first_mip_file & first_mip & rest & Hfile & _ & -> & Hformats)%load_texture_Some.
    exists first_mip_file, first_mip. split_and!; [done | done | done | |].
    + intros level. by apply inconsistent_formats_false.
    + intros i a b. apply mip_chain_prefix_halved.
Qed.

(** X2: a texture [Load] returns whose level 0 has sides of at least 1
    has at most [CalculateMipCount] levels for the size of level 0. *)
Theorem Load_levels_at_most_mip_count (base_filename : string)
    (native_width native_height : Z) (w w' : World) (t : HiresTexture)
    (first_mip : Level) :
  Load_from base_filename native_width native_height w = Ok (Some t, w') →
  m_levels t !! 0%nat = Some first_mip →
  1 ≤ width first_mip < 2 ^ 32 →
  1 ≤ height first_mip < 2 ^ 32 →
  ∃ mip_count,
    CalculateMipCount (width first_mip) (height first_mip)
    = Some mip_count
    ∧ Z.of_nat (length (m_levels t)) ≤ mip_count.
Proof.
  rewrite Load_eq. intros [= Hload Hworld] Hfirst Hwidth Hheight.
  apply load_texture_Some in Hload as (file & first_mip' & rest & _ & _ & -> & _).
  injection Hfirst as <-.
  assert (Z.log2 (Z.max (Z.max (width first_mip') (height first_mip')) 1) < 32)
    by (apply Z.log2_lt_pow2; lia).
  eexists. split.
  { unfold CalculateMipCount. apply CalculateMipCount_loop_log2; cbn; lia. }
  cbn [m_levels length].
  pose proof (mip_chain_prefix_length (width first_mip')
                (height first_mip') rest). lia.
Qed.

(** X4: when the levels found for a catalog entry are a chain in which
    each level is half its predecessor, and they have one format, [Load]
    returns all of them. *)
Theorem Load_keeps_whole_valid_chain (base_filename : string)
    (native_width native_height : Z) (w : World) (first_mip_file : DiskTexture)
    (levels : list Level) :
  s_textureMap w !! base_filename = Some first_mip_file →
  assembled_levels (s_textureMap w) base_filename first_mip_file = levels →
  levels ≠ [] →
  (∀ i a b, levels !! i = Some a → levels !! S i = Some b → halved a b) →
  inconsistent_formats levels = false →
  value (Load_from base_filename native_width native_height w)
  = Ok (Some (mkHiresTexture levels (has_arbitrary_mipmaps first_mip_file))).
Proof.
  intros Hfile Hlevels Hsome Hchain Hformats.
  rewrite Load_eq. cbn [value]. unfold load_texture.
  rewrite Hfile, Hlevels, check_levels_eq by done.
  destruct levels as [| first_mip rest]; [done |].
  cbn [valid_mip_prefix]. rewrite mip_chain_prefix_whole by done.
  by rewrite Hformats.
Qed.

(** The loop over the mip files adds no level from [n] on when level [n]
    has no file or cannot be decoded. *)
Lemma load_levels_stops (textureMap : gmap string DiskTexture)
    (base_filename : string) (n fuel mip_level : nat) (levels r : list Level) :
  (∀ file, textureMap !! mip_filename base_filename n = Some file →
           level_from (path file) n = None) →
  (mip_level ≤ n)%nat →
  levels_from fuel textureMap base_filename mip_level levels = Some r →
  (length r + mip_level ≤ length levels + n)%nat.
Proof.
  intros Hstop. revert mip_level levels.
  induction fuel as [| fuel IH]; intros mip_level levels Hle; [done |].
  cbn [load_levels].
  destruct (textureMap !! mip_filename base_filename mip_level) as [file |] eqn:Hfile;
    [| intros [= <-]; lia].
  destruct (level_from (path file) mip_level) as [level |] eqn:Hlevel;
    [| intros [= <-]; lia].
  destruct (decide (mip_level = n)) as [-> | Hlt].
  { apply Hstop in Hfile. congruence. }
  intros Hrest. apply IH in Hrest; [| lia]. rewrite length_app in Hrest. cbn in Hrest. lia.
Qed.

(** X5: the chain ends at the first level that has no file in the catalog
    or whose file cannot be decoded, whatever files of later levels
    exist: with [n] such a level, not below the number of levels the DDS
    file of level 0 holds, [Load] returns at most [n] levels, and null
    when [n] is 0. *)
Theorem Load_stops_at_unavailable_level (base_filename : string)
    (native_width native_height : Z) (w : World) (first_mip_file : DiskTexture)
    (n : nat) :
  s_textureMap w !! base_filename = Some first_mip_file →
  (length (LoadDDSTexture_file (path first_mip_file)) ≤ n)%nat →
  (∀ file, s_textureMap w !! mip_filename base_filename n = Some file →
           level_from (path file) n = None) →
  ∃ r,
    value (Load_from base_filename native_width native_height w) = Ok r
    ∧ (n = 0%nat → r = None)
    ∧ ∀ t, r = Some t → (length (m_levels t) ≤ n)%nat.
Proof.
  intros Hfile Hdds Hstop. rewrite Load_eq. cbn [value]. eexists. split; [done |].
  assert (length (assembled_levels (s_textureMap w) base_filename first_mip_file) ≤ n)%nat
    as Hlength.
  { unfold assembled_levels. cbn zeta.
    destruct (load_levels_terminates LoadDDSTexture_level ReadFile LoadPNG
                (s_textureMap w) base_filename
                (length (LoadDDSTexture_file (path first_mip_file)))
                (LoadDDSTexture_file (path first_mip_file))) as [r Hr].
    rewrite Hr. cbn.
    apply load_levels_stops with (n := n) in Hr; [lia | done | done]. }
  split.
  - intros ->. unfold load_texture. rewrite Hfile.
    by destruct (assembled_levels _ _ _); [| cbn in Hlength; lia].
  - intros t (file & first_mip & rest & Hfile' & Hlevels & -> & _)%load_texture_Some.
    assert (file = first_mip_file) as -> by congruence.
    rewrite Hlevels in Hlength. cbn [m_levels length] in *.
    pose proof (mip_chain_prefix_shorter (width first_mip) (height first_mip) rest).
    lia.
Qed.

(** X6: every pointer stored in a cache that satisfies the invariant
    points to a texture for which [GetFormat] does not throw, and the
    format it returns is the format of every level of the texture. *)
Theorem GetFormat_of_cached_texture (cache : gmap string (option HiresTexture))
    (name : string) (ptr : option HiresTexture) :
  cache_inv cache →
  cache !! name = Some ptr →
  ∃ t f,
    ptr = Some t
    ∧ GetFormat t = Some f
    ∧ ∀ level, level ∈ m_levels t → format level = f.
Proof.
  intros Hinv Hname. destruct (Hinv name ptr Hname) as (t & -> & Hloaded).
  destruct Hloaded as (textureMap & base_filename & Hload).
  apply load_texture_Some in Hload as (file & first_mip & rest & _ & _ & -> & Hformats).
  eexists _, (format first_mip). split_and!; [done | done |].
  intros level. by apply inconsistent_formats_false.
Qed.

End LoaderChain.

Lemma Load_levels_at_most_mip_count_witness :
  ∃ mip_count, CalculateMipCount 4 4 = Some mip_count ∧ 2 ≤ mip_count.
Proof.
  apply (Load_levels_at_most_mip_count no_dds_file no_dds_level sample_ReadFile
           sample_LoadPNG "tex1_4x4_$_0" 4 4 sample_world
           (add_event (EvLoad "tex1_4x4_$_0") sample_world)
           sample_texture sample_level0).
  - vm_compute. reflexivity.
  - reflexivity.
  - cbn. lia.
  - cbn. lia.
Defined.

Lemma Load_keeps_whole_valid_chain_witness :
  value (sample_Load "tex1_4x4_$_0" 4 4 two_level_world) = Ok (Some sample_texture).
Proof.
  apply (Load_keeps_whole_valid_chain no_dds_file no_dds_level sample_ReadFile
           sample_LoadPNG "tex1_4x4_$_0" 4 4 two_level_world
           (mkDiskTexture "pack/tex1_4x4_$_0.png" false)
           [sample_level0; sample_level1]).
  - vm_compute. reflexivity.
  - vm_compute. reflexivity.
  - discriminate.
  - intros [| [| i]] a b; [| discriminate | discriminate].
    intros [= <-] [= <-]. unfold halved. cbn.
    split_and!; [left; lia | reflexivity | reflexivity].
  - reflexivity.
Defined.

Lemma Load_stops_at_unavailable_level_witness :
  ∃ r,
    value (sample_Load "tex1_4x4_$_0" 4 4 gap_world) = Ok r
    ∧ (1%nat = 0%nat → r = None)
    ∧ ∀ t, r = Some t → (length (m_levels t) ≤ 1)%nat.
Proof.
  apply (Load_stops_at_unavailable_level no_dds_file no_dds_level sample_ReadFile
           sample_LoadPNG "tex1_4x4_$_0" 4 4 gap_world
           (mkDiskTexture "pack/tex1_4x4_$_0.png" false) 1).
  - vm_compute. reflexivity.
  - cbn. lia.
  - intros file. vm_compute. discriminate.
Defined.

Lemma GetFormat_of_cached_texture_witness :
  ∃ t f,
    Some sample_texture = Some t
    ∧ GetFormat t = Some f
    ∧ ∀ level, level ∈ m_levels t → format level = f.
Proof.
  apply (GetFormat_of_cached_texture no_dds_file no_dds_level sample_ReadFile
           sample_LoadPNG (s_textureCache searched_world) "tex1_4x4_$_0").
  - apply cache_inv_insert; [apply cache_inv_empty |].
    exists sample_catalog, "tex1_4x4_$_0". vm_compute. reflexivity.
  - vm_compute. reflexivity.
Defined.

(** ** The palette range *)

Lemma scan_nibbles_indices (texture : list byte) (mm : Z * Z) :
  scan_nibbles texture mm = scan_indices (nibble_indices texture) mm.
Proof.
  revert mm. induction texture as [| b texture IH]; intros [min max]; [done |].
  cbn. rewrite <- IH. reflexivity.
Qed.

Lemma scan_bytes_indices (texture : list byte) (mm : Z * Z) :
  scan_bytes texture mm = scan_indices (byte_indices texture) mm.
Proof.
  revert mm. induction texture as [| b texture IH]; intros [min max]; [done |].
  cbn. rewrite <- IH. reflexivity.
Qed.

Lemma scan_halfwords_values (texture : list byte) (mm : Z * Z) :
  scan_halfwords texture mm = scan_indices (halfword_values texture) mm.
Proof.
  revert mm. induction texture as [| b | b0 b1 texture IH] using list_pair_ind;
    intros mm; [done | done |].
  cbn [scan_halfwords halfword_values]. rewrite IH. reflexivity.
Qed.

(** The result of a scan bounds every value scanned, and each of its
    components is the one of the accumulator or a value scanned. *)
Lemma scan_indices_spec (indices : list Z) (mm : Z * Z) :
  (∀ i, i ∈ indices →
        (scan_indices indices mm).1 ≤ i ≤ (scan_indices indices mm).2)
  ∧ (scan_indices indices mm).1 ≤ mm.1
  ∧ mm.2 ≤ (scan_indices indices mm).2
  ∧ ((scan_indices indices mm).1 = mm.1 ∨ (scan_indices indices mm).1 ∈ indices)
  ∧ ((scan_indices indices mm).2 = mm.2 ∨ (scan_indices indices mm).2 ∈ indices).
Proof.
  revert mm. induction indices as [| v indices IH]; intros mm.
  { cbn. split_and!; [by intros i ?%elem_of_nil | lia | lia | by left | by left]. }
  destruct (IH (Z.min mm.1 v, Z.max mm.2 v)) as (Hall & Hmin & Hmax & Hfirst & Hlast).
  change (scan_indices (v :: indices) mm)
    with (scan_indices indices (Z.min mm.1 v, Z.max mm.2 v)).
  cbn [fst snd] in *. split_and!.
  - intros i [-> | Hi]%elem_of_cons; [lia | by apply Hall].
  - lia.
  - lia.
  - destruct Hfirst as [Hfirst | Hfirst]; [| right; by apply elem_of_cons; right].
    rewrite Hfirst. destruct (Z.min_spec mm.1 v) as [[_ ->] | [_ ->]];
      [by left | right; by apply elem_of_cons; left].
  - destruct Hlast as [Hlast | Hlast]; [| right; by apply elem_of_cons; right].
    rewrite Hlast. destruct (Z.max_spec mm.2 v) as [[_ ->] | [_ ->]];
      [right; by apply elem_of_cons; left | by left].
Qed.

(** For a non-empty list of 16-bit values, the scan from the initial
    accumulator gives their minimum and maximum. *)
Lemma scan_indices_extremes (indices : list Z) :
  indices ≠ [] →
  (∀ i, i ∈ indices → 0 ≤ i ≤ 0xffff) →
  (∀ i, i ∈ indices →
        (scan_indices indices (0xffff, 0)).1 ≤ i ≤ (scan_indices indices (0xffff, 0)).2)
  ∧ (scan_indices indices (0xffff, 0)).1 ∈ indices
  ∧ (scan_indices indices (0xffff, 0)).2 ∈ indices.
Proof.
  intros Hsome Hrange.
  destruct (scan_indices_spec indices (0xffff, 0)) as (Hall & _ & _ & Hfirst & Hlast).
  destruct indices as [| v indices]; [done |].
  assert (v ∈ v :: indices) as Hv by (apply elem_of_cons; by left).
  pose proof (Hall v Hv). pose proof (Hrange v Hv).
  cbn [fst snd] in *. split_and!; [done | |].
  - destruct Hfirst as [Hfirst | ?]; [| done].
    replace (scan_indices (v :: indices) (65535, 0)).1 with v by lia. done.
  - destruct Hlast as [Hlast | ?]; [| done].
    replace (scan_indices (v :: indices) (65535, 0)).2 with v by lia. done.
Qed.

Lemma nibble_indices_range (texture : list byte) (i : Z) :
  i ∈ nibble_indices texture → 0 ≤ i ≤ 15.
Proof.
  unfold nibble_indices. intros (b & _ & Hi)%list_elem_of_In%in_flat_map.
  pose proof (u8_range b). cbn in Hi. destruct Hi as [<- | [<- | []]].
  - change (Z.land (u8 b) 15) with (Z.land (u8 b) (Z.ones 4)).
    rewrite Z.land_ones by lia.
    change (2 ^ 4) with 16. Z.to_euclidean_division_equations. lia.
  - rewrite Z.shiftr_div_pow2 by lia.
    change (2 ^ 4) with 16. Z.to_euclidean_division_equations. lia.
Qed.

Lemma byte_indices_range (texture : list byte) (i : Z) :
  i ∈ byte_indices texture → 0 ≤ i ≤ 255.
Proof.
  unfold byte_indices. intros (b & -> & _)%list_elem_of_fmap.
  pose proof (u8_range b). lia.
Qed.

Lemma halfword_values_range (texture : list byte) (i : Z) :
  i ∈ halfword_values texture → 0 ≤ i ≤ 16383.
Proof.
  induction texture as [| b | b0 b1 texture IH] using list_pair_ind;
    cbn [halfword_values].
  - by intros ?%elem_of_nil.
  - intros [-> | ?%elem_of_nil]%elem_of_cons; [| done].
    change (Z.land ?v 16383) with (Z.land v (Z.ones 14)). rewrite Z.land_ones by lia.
    change (2 ^ 14) with 16384. Z.to_euclidean_division_equations. lia.
  - intros [-> | ?]%elem_of_cons; [| auto].
    change (Z.land ?v 16383) with (Z.land v (Z.ones 14)). rewrite Z.land_ones by lia.
    change (2 ^ 14) with 16384. Z.to_euclidean_division_equations. lia.
Qed.

(** X7: for a palette of 16 or of 256 colours and a non-empty texel
    stream, the range [GenBaseName] computes is exact: every palette index
    the texels refer to lies between its minimum and its maximum, and the
    texels refer to both. *)
Theorem pal_range_covers_indices (texture : list byte) :
  texture ≠ [] →
  ((∀ i, i ∈ nibble_indices texture →
         (pal_range texture (16 * 2)).1 ≤ i ≤ (pal_range texture (16 * 2)).2)
   ∧ (pal_range texture (16 * 2)).1 ∈ nibble_indices texture
   ∧ (pal_range texture (16 * 2)).2 ∈ nibble_indices texture)
  ∧ ((∀ i, i ∈ byte_indices texture →
           (pal_range texture (256 * 2)).1 ≤ i ≤ (pal_range texture (256 * 2)).2)
     ∧ (pal_range texture (256 * 2)).1 ∈ byte_indices texture
     ∧ (pal_range texture (256 * 2)).2 ∈ byte_indices texture).
Proof.
  intros Hsome. split.
  - change (pal_range texture (16 * 2)) with (scan_nibbles texture (0xffff, 0)).
    rewrite scan_nibbles_indices. apply scan_indices_extremes.
    + destruct texture; [done | discriminate].
    + intros i ?%nibble_indices_range. lia.
  - change (pal_range texture (256 * 2)) with (scan_bytes texture (0xffff, 0)).
    rewrite scan_bytes_indices. apply scan_indices_extremes.
    + destruct texture; [done | discriminate].
    + intros i ?%byte_indices_range. lia.
Qed.

Lemma pal_range_covers_indices_witness :
  pal_range two_index_texels (16 * 2) = (0, 5)
  ∧ (pal_range two_index_texels (16 * 2)).1 ∈ nibble_indices two_index_texels.
Proof.
  split; [reflexivity |].
  apply (pal_range_covers_indices two_index_texels). discriminate.
Defined.

Lemma scan_indices_bounds (indices : list Z) (n : Z) :
  indices ≠ [] → n ≤ 0xffff →
  (∀ i, i ∈ indices → 0 ≤ i ≤ n) →
  0 ≤ (scan_indices indices (0xffff, 0)).1
  ∧ (scan_indices indices (0xffff, 0)).1 ≤ (scan_indices indices (0xffff, 0)).2
  ∧ (scan_indices indices (0xffff, 0)).2 ≤ n.
Proof.
  intros Hsome Hn Hrange.
  destruct (scan_indices_extremes indices Hsome) as (Hall & Hfirst & Hlast).
  { intros i ?%Hrange. lia. }
  pose proof (Hall _ Hfirst). apply Hrange in Hfirst, Hlast. lia.
Qed.

(** For a non-empty texel stream and a palette of a recognized size, the
    range to hash lies inside the palette. *)
Lemma trim_tlut_in_bounds (texture : list byte) (tlut_size : Z) :
  texture ≠ [] →
  tlut_size = 16 * 2 ∨ tlut_size = 256 * 2 ∨ tlut_size = 16384 * 2 →
  0 ≤ (trim_tlut texture tlut_size).1
  ∧ 0 < (trim_tlut texture tlut_size).2
  ∧ (trim_tlut texture tlut_size).1 + (trim_tlut texture tlut_size).2 ≤ tlut_size.
Proof.
  intros Hsome Hsize. unfold trim_tlut.
  assert (∃ n, 2 * (n + 1) = tlut_size
               ∧ 0 ≤ (pal_range texture tlut_size).1
               ∧ (pal_range texture tlut_size).1 ≤ (pal_range texture tlut_size).2
               ∧ (pal_range texture tlut_size).2 ≤ n) as (n & Hn & Hrange).
  { destruct Hsize as [-> | [-> | ->]].
    - exists 15. split; [done |].
      change (pal_range texture (16 * 2)) with (scan_nibbles texture (0xffff, 0)).
      rewrite scan_nibbles_indices. apply scan_indices_bounds.
      + destruct texture; [done | discriminate].
      + lia.
      + apply nibble_indices_range.
    - exists 255. split; [done |].
      change (pal_range texture (256 * 2)) with (scan_bytes texture (0xffff, 0)).
      rewrite scan_bytes_indices. apply scan_indices_bounds.
      + destruct texture; [done | discriminate].
      + lia.
      + apply byte_indices_range.
    - exists 16383. split; [done |].
      change (pal_range texture (16384 * 2)) with (scan_halfwords texture (0xffff, 0)).
      rewrite scan_halfwords_values. apply scan_indices_bounds.
      + destruct texture; [done | discriminate].
      + lia.
      + apply halfword_values_range. }
  destruct (pal_range texture tlut_size) as [min max]. cbn [fst snd] in Hrange.
  replace (0 <? tlut_size) with true by (symmetry; apply Z.ltb_lt; lia).
  cbn [fst snd]. unfold wrap32. rewrite !Z.mod_small by lia. lia.
Qed.

Section ResolverSafety.

Variable XXH64 : list byte → Z → Z.

Lemma hash_tlut_returns (texture tlut : list byte) (w : World) :
  tlut = []
  ∨ (texture ≠ []
     ∧ (Z.of_nat (length tlut) = 16 * 2 ∨ Z.of_nat (length tlut) = 256 * 2
        ∨ Z.of_nat (length tlut) = 16384 * 2)) →
  ∃ h, hash_tlut XXH64 texture tlut w = Ok (h, w).
Proof.
  intros [-> | [Hsome Hsize]]; [by exists 0 |].
  unfold hash_tlut, read_bytes.
  destruct (trim_tlut_in_bounds texture _ Hsome Hsize) as (Hoff & Hlen & Hend).
  destruct (trim_tlut texture (Z.of_nat (length tlut))) as [off len].
  cbn [fst snd] in *. unfold_M.
  destruct (Z.eqb_spec len 0) as [| _]; [lia |].
  destruct (Z.leb_spec 0 off); [| lia].
  destruct (Z.leb_spec 0 len); [| lia].
  destruct (Z.leb_spec (off + len) (Z.of_nat (length tlut))); [| lia].
  cbn. eauto.
Qed.

(** The mask hack returns when the pending row is valid, and keeps it
    valid. *)
Lemma ReThreeMaskHack_returns (texname tlutname : string) (width : Z) (w : World) :
  pending_valid w →
  ∃ r w', ReThreeMaskHack texname tlutname width w = Ok (r, w') ∧ pending_valid w'.
Proof.
  intros Hvalid. unfold ReThreeMaskHack. unfold_M.
  destruct ((width =? 320) || (width =? 640)).
  { unfold contains. case_bool_decide as Hrow; cbn; do 2 eexists; (split; [done |]);
      [| done].
    by intros key [= <-]. }
  destruct (width =? 256); [| eauto].
  destruct (tlutToId w) as [key |] eqn:Hkey; [| eauto].
  destruct (Hvalid key Hkey) as [row ->].
  assert (pending_valid (set_tlutToId None w)) by (by intros ? [=]).
  repeat case_bool_decide; cbn; eauto.
Qed.

(** X8: when the pending mask row is null or a row of the table, the
    texel stream is not empty, and the palette is empty or has one of the
    three recognized sizes, [GenBaseName] reads inside its buffers and
    returns, for a dump and for a lookup, and the pending row stays valid,
    so that any sequence of such calls returns. *)
Theorem GenBaseName_returns (texture tlut : list byte) (width height format : Z)
    (has_mipmaps dump : bool) (w : World) :
  pending_valid w →
  tlut = []
  ∨ (texture ≠ []
     ∧ (Z.of_nat (length tlut) = 16 * 2 ∨ Z.of_nat (length tlut) = 256 * 2
        ∨ Z.of_nat (length tlut) = 16384 * 2)) →
  ∃ name w',
    GenBaseName XXH64 texture tlut width height format has_mipmaps dump w
    = Ok (name, w')
    ∧ pending_valid w'.
Proof.
  intros Hvalid Hsize. unfold GenBaseName. unfold_M.
  destruct (negb dump && is_empty (s_textureMap w)); [eauto |].
  unfold name_parts. unfold_M.
  destruct (hash_tlut_returns texture tlut w Hsize) as [h ->].
  match goal with
  | |- context [ReThreeMaskHack ?t ?n width w] =>
      destruct (ReThreeMaskHack_returns t n width w Hvalid) as (r & w' & -> & Hvalid')
  end.
  repeat (match goal with
          | |- context [if ?b then _ else _] => destruct b
          end); eauto.
Qed.

(** X9: with a palette that is not empty, [GenBaseName] reads outside the
    palette when the texel stream is empty or the size of the palette is
    none of the three recognized ones: the range it hashes then starts
    131070 bytes after the start of the palette. Only the early return for
    a lookup in an empty catalog comes before that read. *)
Theorem GenBaseName_faults_on_untrimmed_palette (texture tlut : list byte)
    (width height format : Z) (has_mipmaps dump : bool) (w : World) :
  0 < Z.of_nat (length tlut) < 2 ^ 32 →
  texture = []
  ∨ (Z.of_nat (length tlut) ≠ 16 * 2 ∧ Z.of_nat (length tlut) ≠ 256 * 2
     ∧ Z.of_nat (length tlut) ≠ 16384 * 2) →
  dump = true ∨ is_empty (s_textureMap w) = false →
  trim_tlut texture (Z.of_nat (length tlut)) = (131070, 4294836228)
  ∧ GenBaseName XXH64 texture tlut width height format has_mipmaps dump w = Fault.
Proof.
  intros Hlength Huntrimmed Hpast.
  assert (trim_tlut texture (Z.of_nat (length tlut)) = (131070, 4294836228)) as Htrim.
  { destruct Huntrimmed as [-> | (H4 & H8 & H14)];
      [| apply trim_tlut_unrecognized; lia].
    unfold trim_tlut, pal_range.
    replace (0 <? Z.of_nat (length tlut)) with true by (symmetry; apply Z.ltb_lt; lia).
    by repeat (match goal with
               | |- context [if ?b then _ else _] => destruct b
               end). }
  split; [done |].
  unfold GenBaseName. unfold_M.
  replace (negb dump && is_empty (s_textureMap w)) with false
    by (destruct Hpast as [-> | ->]; [done | by rewrite andb_false_r]).
  unfold name_parts, hash_tlut, read_bytes. rewrite Htrim. unfold_M.
  change (4294836228 =? 0) with false. cbv iota.
  replace (131070 + 4294836228 <=? Z.of_nat (length tlut)) with false
    by (symmetry; apply Z.leb_gt; lia).
  reflexivity.
Qed.

(** X10: the mask hack substitutes once. A call for a texture of width
    256 that replaces the palette part clears the pending row, and until a
    background of width 320 or 640 sets it again every further call of
    width 256 leaves the palette part it is given. *)
Theorem ReThreeMaskHack_substitutes_once (texname tlutname r : string)
    (w w' : World) :
  ReThreeMaskHack texname tlutname 256 w = Ok (r, w') →
  r ≠ tlutname →
  tlutToId w' = None
  ∧ ∀ texname' tlutname',
      ReThreeMaskHack texname' tlutname' 256 w' = Ok (tlutname', w').
Proof.
  unfold ReThreeMaskHack at 1. unfold_M. cbn.
  destruct (tlutToId w) as [key |]; [| by intros [= <- <-]].
  destruct (reThreeHackTexMap w !! key) as [row |]; [| done].
  assert (∀ texname' tlutname',
            ReThreeMaskHack texname' tlutname' 256 (set_tlutToId None w)
            = Ok (tlutname', set_tlutToId None w)) as Hnext by done.
  repeat case_bool_decide; cbn; intros [= <- <-]; done.
Qed.

(** X11: a lookup returns the empty string or a name that has an entry in
    the catalog, and leaves the catalog and the cache as they are. *)
Theorem GenBaseName_lookup_in_catalog (texture tlut : list byte)
    (width height format : Z) (has_mipmaps : bool) (w w' : World) (name : string) :
  GenBaseName XXH64 texture tlut width height format has_mipmaps false w
  = Ok (name, w') →
  (name = "" ∨ is_Some (s_textureMap w !! name))
  ∧ s_textureMap w' = s_textureMap w
  ∧ s_textureCache w' = s_textureCache w.
Proof.
  intros Hname. pose proof (GenBaseName_frame _ _ _ _ _ _ _ _ _ _ _ Hname) as Hframe.
  split; [| by rewrite Hframe].
  revert Hname. unfold GenBaseName. unfold_M. cbn [negb andb orb].
  destruct (is_empty (s_textureMap w)); [intros [= <- _]; by left |].
  destruct (name_parts _ _ _ _ _ _ _ w) as [[p w''] |]; [| done].
  unfold contains.
  repeat case_bool_decide; intros [= <- _]; auto.
Qed.

End ResolverSafety.

Lemma GenBaseName_returns_witness :
  ∃ name w',
    GenBaseName XXHash.XXH64 mask_texels mask_palette 256 256 8 false false
      re3_pending_world
    = Ok (name, w')
    ∧ pending_valid w'.
Proof.
  apply (GenBaseName_returns XXHash.XXH64 mask_texels mask_palette 256 256 8
           false false re3_pending_world).
  - intros key [= <-]. vm_compute. eauto.
  - right. split; [discriminate | left; reflexivity].
Defined.

Lemma GenBaseName_faults_on_untrimmed_palette_witness :
  trim_tlut [] (Z.of_nat (length zero_palette)) = (131070, 4294836228)
  ∧ GenBaseName XXHash.XXH64 [] zero_palette 8 8 8 false true empty_world = Fault.
Proof.
  apply (GenBaseName_faults_on_untrimmed_palette XXHash.XXH64 [] zero_palette
           8 8 8 false true empty_world).
  - cbn. lia.
  - left. reflexivity.
  - left. reflexivity.
Defined.

Lemma ReThreeMaskHack_substitutes_once_witness :
  tlutToId re3_world = None
  ∧ ∀ texname' tlutname',
      ReThreeMaskHack texname' tlutname' 256 re3_world = Ok (tlutname', re3_world).
Proof.
  apply (ReThreeMaskHack_substitutes_once "_0000000000000123" "_e3c364c1425f893c"
           "_R11B01" re3_pending_world re3_world).
  - vm_compute. reflexivity.
  - discriminate.
Defined.

Lemma GenBaseName_lookup_in_catalog_witness :
  ("tex1_32x32_$_0" = "" ∨ is_Some (s_textureMap wildcard_world !! "tex1_32x32_$_0"))
  ∧ s_textureMap wildcard_world = s_textureMap wildcard_world
  ∧ s_textureCache wildcard_world = s_textureCache wildcard_world.
Proof.
  apply (GenBaseName_lookup_in_catalog XXHash.XXH64 [x01; x02] [] 32 32 0 false
           wildcard_world wildcard_world "tex1_32x32_$_0").
  vm_compute. reflexivity.
Defined.

(** ** The catalog *)

Lemma append_String (c : ascii) (s x : string) :
  String c s +:+ x = String c (s +:+ x).
Proof. reflexivity. Qed.

Lemma length_append (s x : string) :
  String.length (s +:+ x) = (String.length s + String.length x)%nat.
Proof. induction s as [| c s IH]; [done |]. rewrite append_String. cbn. by rewrite IH. Qed.

Lemma substring_whole (s : string) : substring 0 (String.length s) s = s.
Proof. induction s as [| c s IH]; [done |]. cbn. by rewrite IH. Qed.

Lemma substring_append_head (s x : string) :
  substring 0 (String.length s) (s +:+ x) = s.
Proof.
  induction s as [| c s IH]; [by destruct x |].
  rewrite append_String. cbn [String.length substring]. by rewrite IH.
Qed.

Lemma substring_append_tail (s x : string) (n m : nat) :
  substring (String.length s + n) m (s +:+ x) = substring n m x.
Proof.
  induction s as [| c s IH]; [done |].
  rewrite append_String. cbn [String.length substring Nat.add]. by rewrite IH.
Qed.

(** [erase] takes the four characters out again. *)
Lemma erase_inserted (a b : string) :
  erase (String.length a) 4 (a +:+ "_arb" +:+ b) = a +:+ b.
Proof.
  unfold erase. rewrite substring_append_head, substring_append_tail. f_equal.
  rewrite !length_append.
  replace (String.length a + (String.length "_arb" + String.length b)
           - (String.length a + 4))%nat with (String.length b) by (cbn; lia).
  cbn [append substring]. apply substring_whole.
Qed.

Lemma rfind_append (needle a s : string) (i : nat) :
  rfind needle s = Some i →
  rfind needle (a +:+ s) = Some (String.length a + i)%nat.
Proof.
  intros Hfound. induction a as [| c a IH]; [done |].
  rewrite append_String. cbn [rfind]. by rewrite IH.
Qed.

Lemma rfind_arb_last (a b : string) :
  rfind "_arb" b = None →
  rfind "_arb" (a +:+ "_arb" +:+ b) = Some (String.length a).
Proof.
  intros Hnone. rewrite (rfind_append _ a _ 0); [f_equal; lia |].
  change ("_arb" +:+ b) with (String "_" (String "a" (String "r" (String "b" b)))).
  cbn [rfind]. rewrite Hnone. cbn. by destruct b.
Qed.

Lemma try_emplace_keeps {V} (k k' : string) (v v' : V) (m : gmap string V) :
  m !! k = Some v → try_emplace k' v' m !! k = Some v.
Proof.
  intros Hk. unfold try_emplace. destruct (m !! k') eqn:Hk'; [done |].
  rewrite lookup_insert_ne; [done | congruence].
Qed.

Section CatalogProperties.

Variable texture_directories : list string.
Variable DoFileSearch : string → list string.
Variable SplitPath_filename : string → string.

Local Abbreviation add_texture_path := (add_texture_path SplitPath_filename).
Local Abbreviation Update_from :=
  (Update texture_directories DoFileSearch SplitPath_filename).

(** The catalog after the scan of [Update]. *)
Local Abbreviation scanned_catalog textureMap :=
  (fold_left (λ m texture_directory,
                fold_left (λ m path, add_texture_path path m)
                          (DoFileSearch texture_directory) m)
             texture_directories textureMap).

Lemma add_texture_path_keeps (path k : string) (v : DiskTexture)
    (m : gmap string DiskTexture) :
  m !! k = Some v → add_texture_path path m !! k = Some v.
Proof.
  intros Hk. unfold add_texture_path.
  destruct (String.prefix s_format_prefix (SplitPath_filename path)); [| done].
  by apply try_emplace_keeps.
Qed.

Lemma scanned_catalog_keeps (k : string) (v : DiskTexture)
    (m : gmap string DiskTexture) :
  m !! k = Some v → scanned_catalog m !! k = Some v.
Proof.
  revert m. induction texture_directories as [| directory directories IH];
    intros m Hk; [done |].
  cbn [fold_left]. apply IH. clear IH.
  revert m Hk. induction (DoFileSearch directory) as [| path paths IH];
    intros m Hk; [done |].
  cbn [fold_left]. by apply IH, add_texture_path_keeps.
Qed.

Lemma Update_enabled (w : World) :
  bHiresTextures (g_ActiveConfig w) = true →
  Update_from w
  = Ok (tt,
        set_textureCache
          (if bCacheHiresTextures (g_ActiveConfig w)
           then filter (λ kv, is_Some (scanned_catalog (s_textureMap w) !! kv.1))
                       (s_textureCache w)
           else ∅)
          (set_textureMap (scanned_catalog (s_textureMap w)) w)).
Proof.
  intros Henabled. unfold Update. unfold_M. rewrite Henabled. cbn [negb].
  by destruct (bCacheHiresTextures (g_ActiveConfig w)).
Qed.

Lemma Update_disabled (w : World) :
  bHiresTextures (g_ActiveConfig w) = false →
  Update_from w = Ok (tt, set_textureCache ∅ (set_textureMap ∅ w)).
Proof. intros Hdisabled. unfold Update. unfold_M. by rewrite Hdisabled. Qed.

(** X12: with the feature enabled, [Update] adds to the catalog and takes
    nothing out of it: every entry it finds there is still there
    afterwards, with the path it had, whatever the scan of the texture
    directories finds. *)
Theorem Update_keeps_existing_entries (w : World) :
  bHiresTextures (g_ActiveConfig w) = true →
  ∃ w',
    Update_from w = Ok (tt, w')
    ∧ ∀ name file, s_textureMap w !! name = Some file →
                   s_textureMap w' !! name = Some file.
Proof.
  intros Henabled. eexists. split; [by apply Update_enabled |].
  intros name file. cbn. apply scanned_catalog_keeps.
Qed.

(** X13: a file whose name does not start with [tex1_] is not
    registered. A file named [a_arb b], where [b] holds no further
    [_arb], is registered under the name [a b] as a texture with
    arbitrary mipmaps; a file whose name holds no [_arb] is registered
    under its name, without the flag. In both cases an entry that exists
    under that name stays. *)
Theorem add_texture_path_cases (path : string) (m : gmap string DiskTexture) :
  (String.prefix "tex1_" (SplitPath_filename path) = false →
   add_texture_path path m = m)
  ∧ (∀ a b,
       SplitPath_filename path = a +:+ "_arb" +:+ b →
       String.prefix "tex1_" (SplitPath_filename path) = true →
       rfind "_arb" b = None →
       add_texture_path path m
       = try_emplace (a +:+ b) (mkDiskTexture path true) m)
  ∧ (String.prefix "tex1_" (SplitPath_filename path) = true →
     rfind "_arb" (SplitPath_filename path) = None →
     add_texture_path path m
     = try_emplace (SplitPath_filename path) (mkDiskTexture path false) m).
Proof.
  unfold add_texture_path, s_format_prefix. split_and!.
  - by intros ->.
  - intros a b Hname -> Hlast. rewrite Hname, rfind_arb_last by done.
    by rewrite erase_inserted.
  - by intros -> ->.
Qed.

End CatalogProperties.

Lemma Update_keeps_existing_entries_witness :
  ∃ w',
    Update ["pack"] (λ _, ["pack/tex1_8x8_$_1_arb.png"]) sample_SplitPath_filename
           sample_world
    = Ok (tt, w')
    ∧ ∀ name file, s_textureMap sample_world !! name = Some file →
                   s_textureMap w' !! name = Some file.
Proof.
  apply (Update_keeps_existing_entries ["pack"] (λ _, ["pack/tex1_8x8_$_1_arb.png"])
           sample_SplitPath_filename sample_world).
  reflexivity.
Defined.

Lemma add_texture_path_cases_witness :
  add_texture_path sample_SplitPath_filename "pack/tex1_8x8_$_1_arb.png" ∅
  = try_emplace "tex1_8x8_$_1" (mkDiskTexture "pack/tex1_8x8_$_1_arb.png" true) ∅.
Proof.
  apply (proj1 (proj2 (add_texture_path_cases sample_SplitPath_filename
                         "pack/tex1_8x8_$_1_arb.png" ∅))
           "tex1_8x8_$_1" "").
  - vm_compute. reflexivity.
  - vm_compute. reflexivity.
  - reflexivity.
Defined.

(** ** The cache and the catalog *)

Section CacheCatalog.

Variable LoadDDSTexture_file : string → list Level.
Variable LoadDDSTexture_level : string → nat → option Level.
Variable ReadFile : string → list byte.
Variable LoadPNG : list byte → option (list byte * Z * Z).
Variable XXH64 : list byte → Z → Z.
Variable MemPhysical : Z.
Variable start_time stop_time : Z.
Variable IsSet : nat → bool.
Variable texture_directories : list string.
Variable DoFileSearch : string → list string.
Variable SplitPath_filename : string → string.

Local Abbreviation load_from :=
  (load_texture LoadDDSTexture_file LoadDDSTexture_level ReadFile LoadPNG).
Local Abbreviation Search_from :=
  (Search LoadDDSTexture_file LoadDDSTexture_level ReadFile LoadPNG XXH64).
Local Abbreviation Prefetch_entry_from :=
  (Prefetch_entry LoadDDSTexture_file LoadDDSTexture_level ReadFile LoadPNG).
Local Abbreviation Prefetch_loop_from :=
  (Prefetch_loop LoadDDSTexture_file LoadDDSTexture_level ReadFile LoadPNG IsSet).
Local Abbreviation Prefetch_in_order_from :=
  (Prefetch_in_order LoadDDSTexture_file LoadDDSTexture_level ReadFile LoadPNG
                     MemPhysical start_time stop_time IsSet).
Local Abbreviation Prefetch_from :=
  (Prefetch LoadDDSTexture_file LoadDDSTexture_level ReadFile LoadPNG
            MemPhysical start_time stop_time IsSet).
Local Abbreviation Update_from :=
  (Update texture_directories DoFileSearch SplitPath_filename).

Lemma load_texture_in_catalog (textureMap : gmap string DiskTexture)
    (base_filename : string) (t : HiresTexture) :
  load_from textureMap base_filename = Some t →
  is_Some (textureMap !! base_filename).
Proof. unfold load_texture. by destruct (textureMap !! base_filename). Qed.

(** What a search does to the state, apart from the trace and the pending
    mask row, in terms of the name it resolves. *)
Lemma Search_cases (texture tlut : list byte) (width height format : Z)
    (has_mipmaps : bool) (w w' : World) (r : option HiresTexture) :
  Search_from texture tlut width height format has_mipmaps w = Ok (r, w') →
  ∃ name w1,
    GenBaseName XXH64 texture tlut width height format has_mipmaps false w
    = Ok (name, w1)
    ∧ s_textureMap w' = s_textureMap w
    ∧ reThreeHackTexMap w' = reThreeHackTexMap w
    ∧ g_ActiveConfig w' = g_ActiveConfig w
    ∧ GFX_HIRES_TEXTURES w' = GFX_HIRES_TEXTURES w
    ∧ osd w' = osd w
    ∧ ((s_textureCache w !! name = Some r
        ∧ s_textureCache w' = s_textureCache w
        ∧ trace w' = trace w ++ [EvLock; EvUnlock])
       ∨ (s_textureCache w !! name = None
          ∧ r = load_from (s_textureMap w) name
          ∧ trace w'
            = trace w
              ++ (if bool_decide (is_Some r) && bCacheHiresTextures (g_ActiveConfig w)
                  then [EvLock; EvLoad name; EvInsert name; EvUnlock]
                  else [EvLock; EvLoad name; EvUnlock])
          ∧ s_textureCache w'
            = if bool_decide (is_Some r) && bCacheHiresTextures (g_ActiveConfig w)
              then <[name := r]> (s_textureCache w)
              else s_textureCache w)).
Proof.
  rewrite Search_eq.
  destruct (GenBaseName _ _ _ _ _ _ _ _ w) as [[name w1] |] eqn:Hname; [| done].
  intros Hsearch. exists name, w1. split; [done |].
  apply GenBaseName_frame in Hname. rewrite Hname in Hsearch. cbn in Hsearch.
  destruct (s_textureCache w !! name) as [ptr |] eqn:Hhit.
  { injection Hsearch as <- <-. cbn. rewrite <- !app_assoc. split_and!; try done.
    by left. }
  injection Hsearch as <- <-.
  destruct (bool_decide (is_Some (load_from (s_textureMap w) name))
            && bCacheHiresTextures (g_ActiveConfig w));
    cbn; rewrite <- ?app_assoc; split_and!; try done; right; by rewrite <- ?app_assoc.
Qed.

Lemma Prefetch_entry_cache_in_catalog (base_filename : string) (size_sum r : Z)
    (w w' : World) :
  Prefetch_entry_from base_filename size_sum w = Ok (r, w') →
  cache_in_catalog w → cache_in_catalog w'.
Proof.
  rewrite Prefetch_entry_eq. case_bool_decide; [| by intros [= <- <-]].
  destruct (s_textureCache w !! base_filename) as [[t |] |] eqn:Hcache;
    [by intros [= <- <-] | done |].
  cbn zeta. destruct (load_from _ _) as [t |] eqn:Hload;
    [| by intros [= <- <-]].
  intros [= <- <-] Hinv name. cbn.
  destruct (decide (name = base_filename)) as [-> | Hother].
  - intros _. by eapply load_texture_in_catalog.
  - rewrite lookup_insert_ne by done. apply Hinv.
Qed.

Lemma Prefetch_loop_cache_in_catalog (max : Z) (entries : list (string * DiskTexture))
    (polls : nat) (size_sum : Z) (r : option Z) (w w' : World) :
  Prefetch_loop_from max entries polls size_sum w = Ok (r, w') →
  cache_in_catalog w → cache_in_catalog w'.
Proof.
  revert polls size_sum w.
  induction entries as [| entry entries IH]; intros polls size_sum w;
    [by intros [= <- <-] |].
  cbn [Prefetch_loop]. unfold_M.
  destruct (Prefetch_entry_from entry.1 size_sum w) as [[size_sum' w1] |] eqn:Hentry;
    [| done].
  intros Hrest Hinv. apply Prefetch_entry_cache_in_catalog in Hentry; [| done].
  destruct (IsSet polls); [by injection Hrest as <- <- |].
  destruct (max <? size_sum'); [by injection Hrest as <- <- |].
  eapply IH; eauto.
Qed.

(** X14: [Update] always returns, and after it every name the cache has
    an entry for has an entry in the catalog, whatever the state was
    before. [Search] and [Prefetch] keep this, and so does [Clear]; a
    texture [Search] returns belongs to a name of the catalog. *)
Theorem cache_stays_within_catalog :
  (∀ w, ∃ w', Update_from w = Ok (tt, w') ∧ cache_in_catalog w')
  ∧ (∀ texture tlut width height format has_mipmaps w w' r,
       Search_from texture tlut width height format has_mipmaps w = Ok (r, w') →
       cache_in_catalog w →
       cache_in_catalog w'
       ∧ ∀ t, r = Some t →
           ∃ name w1,
             GenBaseName XXH64 texture tlut width height format has_mipmaps false w
             = Ok (name, w1)
             ∧ is_Some (s_textureMap w !! name))
  ∧ (∀ entries w w',
       Prefetch_in_order_from entries w = Ok (tt, w') →
       cache_in_catalog w → cache_in_catalog w')
  ∧ (∀ w w', Clear w = Ok (tt, w') → cache_in_catalog w').
Proof.
  split_and!.
  - intros w. destruct (bHiresTextures (g_ActiveConfig w)) eqn:Henabled.
    + eexists. split; [by apply Update_enabled |]. intros name. cbn.
      destruct (bCacheHiresTextures (g_ActiveConfig w)).
      * by intros [ptr [_ ?]%map_lookup_filter_Some].
      * rewrite lookup_empty. by intros [? ?].
    + eexists. split; [by apply Update_disabled |]. intros name. cbn.
      rewrite lookup_empty. by intros [? ?].
  - intros texture tlut width height format has_mipmaps w w' r Hsearch Hinv.
    apply Search_cases in Hsearch
      as (name & w1 & Hname & Hmap & _ & _ & _ & _ & Hcases).
    split.
    + intros name'. rewrite Hmap.
      destruct Hcases as [(_ & -> & _) | (_ & Hload & _ & ->)]; [apply Hinv |].
      destruct (bool_decide (is_Some r) && bCacheHiresTextures (g_ActiveConfig w))
        eqn:Hstore; [| apply Hinv].
      destruct (decide (name' = name)) as [-> | Hother];
        [| rewrite lookup_insert_ne by done; apply Hinv].
      intros _. apply andb_prop in Hstore as [[t Ht]%bool_decide_eq_true_1 _].
      eapply load_texture_in_catalog. by rewrite <- Hload.
    + intros t ->. exists name, w1. split; [done |].
      destruct Hcases as [(Hhit & _) | (_ & Hload & _)].
      * apply Hinv. by rewrite Hhit.
      * by eapply load_texture_in_catalog.
  - intros entries w w'. unfold Prefetch_in_order. unfold_M.
    destruct (Prefetch_loop_from _ entries 0 0 w) as [[r w1] |] eqn:Hloop; [| done].
    destruct r; intros [= <-] Hinv;
      apply Prefetch_loop_cache_in_catalog in Hloop; done.
  - unfold Clear. unfold_M. intros w w' [= <-] name. cbn.
    rewrite lookup_empty. by intros [? ?].
Qed.

(** X15: with the feature and the cache enabled, in a state in which the
    cache lies within the catalog, the sweep of [Update] removes nothing
    from the cache: the catalog it compares with has every entry it had
    before. *)
Theorem Update_sweep_removes_nothing (w : World) :
  bHiresTextures (g_ActiveConfig w) = true →
  bCacheHiresTextures (g_ActiveConfig w) = true →
  cache_in_catalog w →
  ∃ w', Update_from w = Ok (tt, w') ∧ s_textureCache w' = s_textureCache w.
Proof.
  intros Henabled Hcache Hinv. eexists. split; [by apply Update_enabled |].
  rewrite Hcache. cbn. apply map_filter_id. intros name ptr Hname. cbn.
  destruct (Hinv name) as [file Hfile]; [by rewrite Hname |].
  rewrite (scanned_catalog_keeps _ _ _ _ _ _ Hfile). eauto.
Qed.

(** X16: a search that has returned a texture with the cache enabled is a
    hit when it is repeated for a width other than 256: the same texture
    is returned from the cache, which stays as it is, and [Load] is not
    entered. *)
Theorem Search_again_is_a_hit (texture tlut : list byte) (width height format : Z)
    (has_mipmaps : bool) (w w1 : World) (t : HiresTexture) :
  Search_from texture tlut width height format has_mipmaps w = Ok (Some t, w1) →
  bCacheHiresTextures (g_ActiveConfig w) = true →
  width ≠ 256 →
  ∃ w2,
    Search_from texture tlut width height format has_mipmaps w1 = Ok (Some t, w2)
    ∧ s_textureCache w2 = s_textureCache w1
    ∧ trace w2 = trace w1 ++ [EvLock; EvUnlock].
Proof.
  intros Hfirst Hcache Hwidth.
  apply Search_cases in Hfirst
    as (name & wa & Hname & Hmap & Htable & _ & _ & _ & Hcases).
  assert (s_textureCache w1 !! name = Some (Some t)) as Hcached.
  { destruct Hcases as [(Hhit & -> & _) | (_ & _ & _ & ->)]; [done |].
    rewrite Hcache, bool_decide_eq_true_2 by eauto. cbn [andb].
    by rewrite lookup_insert_eq. }
  pose proof (GenBaseName_reads XXH64 texture tlut width height format has_mipmaps
                false w1 w Hmap Htable (or_introl Hwidth)) as Hsame.
  rewrite Hname in Hsame.
  destruct (Search_from texture tlut width height format has_mipmaps w1)
    as [[r w2] |] eqn:Hsecond.
  - apply Search_cases in Hsecond
      as (name' & wb & Hname' & _ & _ & _ & _ & _ & Hcases').
    rewrite Hname' in Hsame. injection Hsame as ->.
    destruct Hcases' as [(Hhit & Hkept & Htrace) | (Hmiss & _)]; [| congruence].
    exists w2. assert (r = Some t) as -> by congruence. done.
  - rewrite Search_eq in Hsecond.
    destruct (GenBaseName _ _ _ _ _ _ _ _ w1) as [[name' wb] |]; [| done].
    by destruct (s_textureCache wb !! name').
Qed.

(** X17: a search changes the cache at most by one new entry, under the
    name [GenBaseName] resolves for it: on a miss with a texture loaded
    and the cache enabled it stores the returned texture under that name,
    which had no entry, writing it with the mutex held; in every other
    case the cache stays as it is. Every entry the cache held is kept
    unchanged. The search leaves the catalog, the configuration and the
    messages alone and returns with the mutex released. *)
Theorem Search_only_adds_to_cache (texture tlut : list byte)
    (width height format : Z) (has_mipmaps : bool) (w w' : World)
    (r : option HiresTexture) :
  Search_from texture tlut width height format has_mipmaps w = Ok (r, w') →
  ∃ name w1,
    GenBaseName XXH64 texture tlut width height format has_mipmaps false w
    = Ok (name, w1)
    ∧ s_textureMap w' = s_textureMap w
    ∧ g_ActiveConfig w' = g_ActiveConfig w
    ∧ GFX_HIRES_TEXTURES w' = GFX_HIRES_TEXTURES w
    ∧ osd w' = osd w
    ∧ (s_textureCache w !! name = None →
       is_Some r →
       bCacheHiresTextures (g_ActiveConfig w) = true →
       s_textureCache w' = <[name := r]> (s_textureCache w))
    ∧ (is_Some (s_textureCache w !! name) ∨ r = None
       ∨ bCacheHiresTextures (g_ActiveConfig w) = false →
       s_textureCache w' = s_textureCache w)
    ∧ (∀ other ptr, s_textureCache w !! other = Some ptr →
                    s_textureCache w' !! other = Some ptr)
    ∧ ∃ events,
        trace w' = trace w ++ events
        ∧ inserts_without_mutex false events = []
        ∧ held_after false events = false.
Proof.
  intros (name & w1 & Hname & Hmap & _ & Hconfig & Hgfx & Hosd & Hcases)%Search_cases.
  exists name, w1. split_and!; try done.
  - intros Hmiss Hsome Hcache.
    destruct Hcases as [(Hhit & _) | (_ & _ & _ & ->)]; [congruence |].
    by rewrite Hcache, bool_decide_eq_true_2.
  - intros Hsame. destruct Hcases as [(_ & -> & _) | (Hmiss & _ & _ & ->)]; [done |].
    destruct Hsame as [[ptr Hhit] | [-> | ->]]; [congruence | done |].
    by rewrite andb_false_r.
  - intros other ptr Hother.
    destruct Hcases as [(_ & -> & _) | (Hmiss & _ & _ & ->)]; [done |].
    destruct (_ && _); [| done].
    rewrite lookup_insert_ne; [done | congruence].
  - destruct Hcases as [(_ & _ & ->) | (_ & _ & -> & _)]; [by eexists |].
    destruct (_ && _); by eexists.
Qed.

(** How a run of the loop of the prefetcher ends. *)
Lemma Prefetch_loop_outcome (max : Z) (entries : list (string * DiskTexture))
    (polls : nat) (size_sum : Z) (r : option Z) (w w' : World) :
  Prefetch_loop_from max entries polls size_sum w = Ok (r, w') →
  s_textureMap w' = s_textureMap w
  ∧ match r with
    | Some total =>
        osd w' = osd w
        ∧ GFX_HIRES_TEXTURES w' = GFX_HIRES_TEXTURES w
        ∧ (∀ n, (polls ≤ n < polls + length entries)%nat → IsSet n = false)
        ∧ (entries = [] ∨ total ≤ max)
    | None =>
        (osd w' = osd w
         ∧ GFX_HIRES_TEXTURES w' = GFX_HIRES_TEXTURES w
         ∧ ∃ n, (polls ≤ n < polls + length entries)%nat ∧ IsSet n = true)
        ∨ (∃ total,
             max < total
             ∧ osd w' = osd w ++ [OsdPrefetchAborted total]
             ∧ GFX_HIRES_TEXTURES w' = false)
    end.
Proof.
  revert polls size_sum w.
  induction entries as [| entry entries IH]; intros polls size_sum w.
  { intros [= <- <-]. split_and!; try done; [| by left]. cbn. lia. }
  cbn [Prefetch_loop]. unfold_M.
  destruct (Prefetch_entry_from entry.1 size_sum w) as [[size_sum' w1] |] eqn:Hentry;
    [| done].
  apply Prefetch_entry_effect in Hentry as (_ & _ & Hmap & Hgfx & Hosd).
  destruct (IsSet polls) eqn:Hflag.
  { intros [= <- <-]. split; [done |]. left. split_and!; [done | done |].
    exists polls. cbn [length]. split; [lia | done]. }
  destruct (Z.ltb_spec max size_sum') as [Hover | Hfits].
  { intros [= <- <-]. cbn. split; [done |]. right. exists size_sum'.
    by rewrite Hosd. }
  intros Hrest. destruct (IH _ _ _ Hrest) as [Hmap' Hend].
  split; [congruence |]. cbn [length].
  destruct r as [total |].
  - destruct Hend as (Hosd' & Hgfx' & Hflags & Htotal).
    split_and!; [congruence | congruence | |].
    + intros n Hn. destruct (decide (n = polls)) as [-> | ?]; [done |].
      apply Hflags. lia.
    + right. destruct Htotal as [-> | ?]; [| done].
      injection Hrest as <- _. done.
  - destruct Hend as [(Hosd' & Hgfx' & n & Hn & Hset) | (total & Hover & Hosd' & Hgfx')].
    + left. split_and!; [congruence | congruence |]. exists n. split; [lia | done].
    + right. exists total. split_and!; [done | congruence | done].
Qed.

(** X18: a run of the prefetcher ends in one of three ways. Stopped by the
    abort flag, it posts no message. Stopped over the ceiling, it posts
    the warning with a size above the ceiling and switches the feature off
    in the configuration. Run to the end, with the flag clear at every
    test, it posts the summary, with a size within the ceiling when there
    was an entry at all. In no case does it change the catalog, or the
    configuration other than by that switch. *)
Theorem Prefetch_outcomes (entries : list (string * DiskTexture)) (w w' : World) :
  Prefetch_in_order_from entries w = Ok (tt, w') →
  s_textureMap w' = s_textureMap w
  ∧ ((osd w' = osd w
      ∧ GFX_HIRES_TEXTURES w' = GFX_HIRES_TEXTURES w
      ∧ ∃ n, (n < length entries)%nat ∧ IsSet n = true)
     ∨ (∃ total,
          max_mem MemPhysical < total
          ∧ osd w' = osd w ++ [OsdPrefetchAborted total]
          ∧ GFX_HIRES_TEXTURES w' = false)
     ∨ (∃ total,
          osd w' = osd w ++ [OsdPrefetchLoaded total (wrap32 (stop_time - start_time))]
          ∧ GFX_HIRES_TEXTURES w' = GFX_HIRES_TEXTURES w
          ∧ (∀ n, (n < length entries)%nat → IsSet n = false)
          ∧ (entries = [] ∨ total ≤ max_mem MemPhysical))).
Proof.
  unfold Prefetch_in_order. unfold_M.
  destruct (Prefetch_loop_from _ entries 0 0 w) as [[r w1] |] eqn:Hloop; [| done].
  apply Prefetch_loop_outcome in Hloop as [Hmap Hend].
  destruct r as [total |]; intros [= <-].
  - destruct Hend as (Hosd & Hgfx & Hflags & Htotal). cbn. split; [done |].
    right. right. exists total. rewrite Hosd. split_and!; try done.
    intros n Hn. apply Hflags. lia.
  - split; [done |].
    destruct Hend as [(Hosd & Hgfx & n & Hn & Hset) | Hover]; [left | by right; left].
    split_and!; [done | done |]. exists n. split; [lia | done].
Qed.

(** A run of the loop to its end leaves every texture of the entries that
    is not a mip level and can be loaded in the cache. *)
Lemma Prefetch_loop_complete (max : Z) (entries : list (string * DiskTexture))
    (polls : nat) (size_sum total : Z) (w w' : World) :
  Prefetch_loop_from max entries polls size_sum w = Ok (Some total, w') →
  ∀ entry, entry ∈ entries →
    String.index 0 "_mip" entry.1 = None →
    is_Some (load_from (s_textureMap w) entry.1) →
    is_Some (s_textureCache w' !! entry.1)
    ∧ (s_textureCache w !! entry.1 = None →
       s_textureCache w' !! entry.1 = Some (load_from (s_textureMap w) entry.1)).
Proof.
  revert polls size_sum w.
  induction entries as [| first entries IH]; intros polls size_sum w Hrun entry;
    [by intros ?%elem_of_nil |].
  revert Hrun. cbn [Prefetch_loop]. unfold_M.
  destruct (Prefetch_entry_from first.1 size_sum w) as [[size_sum' w1] |] eqn:Hentry;
    [| done].
  destruct (IsSet polls); [done |].
  destruct (max <? size_sum'); [done |].
  intros Hrest.
  destruct (Prefetch_entry_effect _ _ _ _ _ _ _ _ _ Hentry) as (_ & Hkeep & Hmap & _).
  destruct (Prefetch_loop_effect _ _ _ _ _ _ _ _ _ _ _ _ Hrest) as (_ & Hkeep' & _).
  intros Hin Hname Hload.
  assert (s_textureCache w !! entry.1 = None →
          s_textureCache w1 !! entry.1 = None
          ∨ s_textureCache w1 !! entry.1 = Some (load_from (s_textureMap w) entry.1))
    as Hstep.
  { intros Hmiss. revert Hentry. rewrite Prefetch_entry_eq.
    case_bool_decide; [| intros [= _ <-]; by left].
    destruct (s_textureCache w !! first.1) as [[t |] |] eqn:Hcache;
      [intros [= _ <-]; by left | done |].
    cbn zeta. destruct (load_from (s_textureMap w) first.1) as [t |] eqn:Hfirst;
      [| intros [= _ <-]; by left].
    intros [= _ <-]. cbn.
    destruct (decide (entry.1 = first.1)) as [Heq | Hne].
    - right. by rewrite Heq, lookup_insert_eq, Hfirst.
    - left. by rewrite lookup_insert_ne. }
  assert (entry = first → is_Some (s_textureCache w1 !! entry.1)) as Hhead.
  { intros ->. revert Hentry. rewrite Prefetch_entry_eq.
    rewrite bool_decide_eq_true_2 by done.
    destruct (s_textureCache w !! first.1) as [[t |] |] eqn:Hcache;
      [intros [= _ <-]; cbn; rewrite Hcache; eauto | done |].
    cbn zeta. destruct Hload as [t ->]. intros [= _ <-]. cbn.
    rewrite lookup_insert_eq. eauto. }
  destruct (s_textureCache w1 !! entry.1) as [ptr |] eqn:Hcached.
  - split; [rewrite (Hkeep' _ _ Hcached); eauto |].
    intros Hmiss. destruct (Hstep Hmiss) as [? | Hloaded]; [done |].
    rewrite (Hkeep' _ _ Hcached). congruence.
  - apply elem_of_cons in Hin as [-> | Hin].
    { destruct Hhead as [? ?]; [done | congruence]. }
    rewrite <- Hmap in Hload |- *.
    destruct (IH _ _ _ Hrest entry Hin Hname Hload) as [Hsome Hnew].
    split; [done |]. intros _. by apply Hnew.
Qed.

(** X19: when the prefetcher has run to the end and posted its summary,
    every texture of the catalog that is not a mip level and that [Load]
    can load is in the cache, as [Load] returns it when it was not cached
    before: a search for it is a hit. *)
Theorem Prefetch_caches_every_loadable_texture (w w' : World) (total elapsed : Z) :
  Prefetch_from w = Ok (tt, w') →
  osd w' = osd w ++ [OsdPrefetchLoaded total elapsed] →
  ∀ name file,
    s_textureMap w !! name = Some file →
    String.index 0 "_mip" name = None →
    is_Some (load_from (s_textureMap w) name) →
    is_Some (s_textureCache w' !! name)
    ∧ (s_textureCache w !! name = None →
       s_textureCache w' !! name = Some (load_from (s_textureMap w) name)).
Proof.
  unfold Prefetch, Prefetch_in_order. unfold_M.
  destruct (Prefetch_loop_from _ (map_to_list (s_textureMap w)) 0 0 w)
    as [[r w1] |] eqn:Hloop; [| done].
  destruct r as [size_sum |].
  - intros [= <-] _ name file Hfile. cbn.
    apply (Prefetch_loop_complete _ _ _ _ _ _ _ Hloop (name, file)).
    by apply elem_of_map_to_list.
  - intros [= <-] Hosd.
    apply Prefetch_loop_outcome in Hloop
      as [_ [(Hsame & _) | (size_sum & _ & Haborted & _)]].
    + rewrite Hsame in Hosd. apply (f_equal length) in Hosd.
      rewrite length_app in Hosd. cbn in Hosd. lia.
    + rewrite Haborted in Hosd. by apply app_inv_head in Hosd.
Qed.

End CacheCatalog.

Lemma cache_stays_within_catalog_witness :
  cache_in_catalog searched_world
  ∧ ∀ t, Some sample_texture = Some t →
      ∃ name w1,
        GenBaseName XXHash.XXH64 [x00] [] 4 4 0 false false sample_world
        = Ok (name, w1)
        ∧ is_Some (s_textureMap sample_world !! name).
Proof.
  apply (proj1 (proj2 (cache_stays_within_catalog
                         no_dds_file no_dds_level sample_ReadFile sample_LoadPNG
                         XXHash.XXH64 0 0 0 (λ _, false) [] (λ _, []) (λ s, s)))
           [x00] [] 4 4 0 false sample_world searched_world (Some sample_texture)).
  - vm_compute. reflexivity.
  - intros name [ptr Hname]. vm_compute in Hname. discriminate.
Defined.

Lemma Update_sweep_removes_nothing_witness :
  ∃ w',
    Update ["pack"] (λ _, ["pack/tex1_8x8_$_1_arb.png"]) sample_SplitPath_filename
           searched_world
    = Ok (tt, w')
    ∧ s_textureCache w' = s_textureCache searched_world.
Proof.
  apply (Update_sweep_removes_nothing ["pack"] (λ _, ["pack/tex1_8x8_$_1_arb.png"])
           sample_SplitPath_filename searched_world).
  - reflexivity.
  - reflexivity.
  - intros name [ptr Hname]. unfold searched_world in Hname.
    cbn [s_textureCache] in Hname.
    apply lookup_singleton_Some in Hname as [<- _]. vm_compute. eauto.
Defined.

Lemma Search_again_is_a_hit_witness :
  ∃ w2,
    sample_Search [x00] [] 4 4 0 false searched_world = Ok (Some sample_texture, w2)
    ∧ s_textureCache w2 = s_textureCache searched_world
    ∧ trace w2 = trace searched_world ++ [EvLock; EvUnlock].
Proof.
  apply (Search_again_is_a_hit no_dds_file no_dds_level sample_ReadFile
           sample_LoadPNG XXHash.XXH64 [x00] [] 4 4 0 false sample_world
           searched_world sample_texture).
  - vm_compute. reflexivity.
  - reflexivity.
  - lia.
Defined.

Lemma Search_only_adds_to_cache_witness :
  ∃ name w1,
    GenBaseName XXHash.XXH64 [x00] [] 4 4 0 false false sample_world = Ok (name, w1)
    ∧ s_textureMap searched_world = s_textureMap sample_world
    ∧ g_ActiveConfig searched_world = g_ActiveConfig sample_world
    ∧ GFX_HIRES_TEXTURES searched_world = GFX_HIRES_TEXTURES sample_world
    ∧ osd searched_world = osd sample_world
    ∧ (s_textureCache sample_world !! name = None →
       is_Some (Some sample_texture) →
       bCacheHiresTextures (g_ActiveConfig sample_world) = true →
       s_textureCache searched_world
       = <[name := Some sample_texture]> (s_textureCache sample_world))
    ∧ (is_Some (s_textureCache sample_world !! name) ∨ Some sample_texture = None
       ∨ bCacheHiresTextures (g_ActiveConfig sample_world) = false →
       s_textureCache searched_world = s_textureCache sample_world)
    ∧ (∀ other ptr, s_textureCache sample_world !! other = Some ptr →
                    s_textureCache searched_world !! other = Some ptr)
    ∧ ∃ events,
        trace searched_world = trace sample_world ++ events
        ∧ inserts_without_mutex false events = []
        ∧ held_after false events = false.
Proof.
  apply (Search_only_adds_to_cache no_dds_file no_dds_level sample_ReadFile
           sample_LoadPNG XXHash.XXH64 [x00] [] 4 4 0 false sample_world
           searched_world (Some sample_texture)).
  vm_compute. reflexivity.
Defined.

Lemma Prefetch_outcomes_witness :
  s_textureMap prefetched_single_world = s_textureMap single_world
  ∧ ((osd prefetched_single_world = osd single_world
      ∧ GFX_HIRES_TEXTURES prefetched_single_world = GFX_HIRES_TEXTURES single_world
      ∧ ∃ n, (n < length (map_to_list (s_textureMap single_world)))%nat
             ∧ (λ _ : nat, true) n = true)
     ∨ (∃ total,
          max_mem 2 < total
          ∧ osd prefetched_single_world = osd single_world ++ [OsdPrefetchAborted total]
          ∧ GFX_HIRES_TEXTURES prefetched_single_world = false)
     ∨ (∃ total,
          osd prefetched_single_world
          = osd single_world ++ [OsdPrefetchLoaded total (wrap32 (0 - 0))]
          ∧ GFX_HIRES_TEXTURES prefetched_single_world
            = GFX_HIRES_TEXTURES single_world
          ∧ (∀ n, (n < length (map_to_list (s_textureMap single_world)))%nat →
                  (λ _ : nat, true) n = false)
          ∧ (map_to_list (s_textureMap single_world) = []
             ∨ total ≤ max_mem 2))).
Proof.
  apply (Prefetch_outcomes no_dds_file no_dds_level sample_ReadFile sample_LoadPNG
           2 0 0 (λ _, true) (map_to_list (s_textureMap single_world))
           single_world prefetched_single_world).
  vm_compute. reflexivity.
Defined.

Lemma Prefetch_caches_every_loadable_texture_witness :
  is_Some (s_textureCache
             (add_osd (OsdPrefetchLoaded 8 0) prefetched_single_world)
           !! "tex1_4x4_$_0").
Proof.
  apply (Prefetch_caches_every_loadable_texture no_dds_file no_dds_level
           sample_ReadFile sample_LoadPNG (2 ^ 33) 0 0 (λ _, false)
           single_world (add_osd (OsdPrefetchLoaded 8 0) prefetched_single_world)
           8 0 eq_refl eq_refl
           "tex1_4x4_$_0" (mkDiskTexture "pack/tex1_4x4_$_0.png" false)).
  - vm_compute. reflexivity.
  - reflexivity.
  - vm_compute. eauto.
Defined.

(** ** The texture directories *)

Lemma substr_from_append (root x : string) :
  substr_from (String.length root) (root +:+ x) = Some x.
Proof.
  unfold substr_from. rewrite length_append.
  rewrite bool_decide_eq_true_2 by lia. f_equal.
  replace (String.length root + String.length x - String.length root)%nat
    with (String.length x) by lia.
  rewrite <- (Nat.add_0_r (String.length root)) at 1.
  rewrite substring_append_tail. apply substring_whole.
Qed.

Lemma find_first_of_append (c : ascii) (a rest : string) :
  find_first_of c a = None →
  find_first_of c (a +:+ String c rest) = Some (String.length a).
Proof.
  induction a as [| c' a IH]; cbn [find_first_of].
  { intros _. change ("" +:+ String c rest) with (String c rest).
    cbn [find_first_of]. by rewrite Ascii.eqb_refl. }
  rewrite append_String. cbn [find_first_of String.length].
  destruct (Ascii.eqb c' c); [done |].
  destruct (find_first_of c a); [done |]. intros _. by rewrite IH.
Qed.

(** What is cut off at the first separator holds no separator. *)
Lemma find_first_of_substr_to (c : ascii) (p : string) :
  find_first_of c (substr_to (find_first_of c p) p) = None.
Proof.
  induction p as [| c' p IH]; [done |]. cbn [find_first_of].
  destruct (Ascii.eqb c' c) eqn:Hc; [done |].
  destruct (find_first_of c p) as [n |]; cbn [option_map substr_to substring] in *.
  - cbn [find_first_of]. by rewrite Hc, IH.
  - cbn [find_first_of]. by rewrite Hc, IH.
Qed.

(** A path is what is cut off at its first separator, alone or followed
    by the separator and a rest. *)
Lemma substr_to_first_separator (c : ascii) (p : string) :
  p = substr_to (find_first_of c p) p
  ∨ ∃ tail, p = substr_to (find_first_of c p) p +:+ String c tail.
Proof.
  induction p as [| c' p IH]; [by left |]. cbn [find_first_of].
  destruct (Ascii.eqb_spec c' c) as [-> | Hc].
  { right. by exists p. }
  destruct (find_first_of c p) as [n |]; cbn [option_map substr_to substring] in *.
  - destruct IH as [IH | [tail IH]].
    + left. by rewrite <- IH.
    + right. exists tail. rewrite append_String. by rewrite <- IH.
  - by left.
Qed.

Section DirectoryProperties.

Variable File_Exists : string → bool.
Variable DoFileSearch_txt : string → list string.
Variable SplitPath_filename : string → string.
Variable DIR_SEP_CHR : ascii.

Local Abbreviation match_gameid_from := (match_gameid SplitPath_filename).
Local Abbreviation add_gameid_directories_from :=
  (add_gameid_directories SplitPath_filename DIR_SEP_CHR).
Local Abbreviation GetTextureDirectoriesWithGameId_from :=
  (GetTextureDirectoriesWithGameId File_Exists DoFileSearch_txt
     SplitPath_filename DIR_SEP_CHR).

Lemma add_gameid_directories_sound (root_directory game_id : string)
    (files : list string) (result dirs : gset string) :
  add_gameid_directories_from root_directory game_id files result = Some dirs →
  ∀ d, d ∈ dirs →
    d ∈ result
    ∨ ∃ file directory_path rest,
        file ∈ files
        ∧ match_gameid_from game_id file = true
        ∧ substr_from (String.length root_directory) file = Some directory_path
        ∧ (directory_path = rest
           ∨ ∃ tail, directory_path = rest +:+ String DIR_SEP_CHR tail)
        ∧ find_first_of DIR_SEP_CHR rest = None
        ∧ d = root_directory +:+ rest.
Proof.
  revert result. induction files as [| file files IH]; intros result;
    cbn [add_gameid_directories].
  { intros [= <-] d Hd. by left. }
  destruct (match_gameid_from game_id file) eqn:Hmatch.
  - destruct (substr_from (String.length root_directory) file)
      as [directory_path |] eqn:Hpath; [| done].
    intros Hrest d Hd.
    destruct (IH _ Hrest d Hd) as [Hnew | (file' & path' & rest & Hin & ?)].
    + apply elem_of_union in Hnew as [->%elem_of_singleton | Hold]; [| by left].
      right. exists file, directory_path,
               (substr_to (find_first_of DIR_SEP_CHR directory_path) directory_path).
      split_and!; [apply elem_of_cons; by left | done | done | | | done].
      * apply substr_to_first_separator.
      * apply find_first_of_substr_to.
    + right. exists file', path', rest.
      split; [apply elem_of_cons; by right | done].
  - intros Hrest d Hd.
    destruct (IH _ Hrest d Hd) as [Hold | (file' & path' & rest & Hin & ?)];
      [by left |].
    right. exists file', path', rest. split; [apply elem_of_cons; by right | done].
Qed.

Lemma add_gameid_directories_complete (root_directory game_id : string)
    (files : list string) (result : gset string) :
  (∀ file, file ∈ files → match_gameid_from game_id file = true →
           (String.length root_directory ≤ String.length file)%nat) →
  ∃ dirs,
    add_gameid_directories_from root_directory game_id files result = Some dirs
    ∧ result ⊆ dirs
    ∧ ∀ file directory_path,
        file ∈ files → match_gameid_from game_id file = true →
        substr_from (String.length root_directory) file = Some directory_path →
        root_directory
        +:+ substr_to (find_first_of DIR_SEP_CHR directory_path) directory_path
        ∈ dirs.
Proof.
  revert result. induction files as [| file files IH]; intros result Hlong;
    cbn [add_gameid_directories].
  { exists result. split_and!; [done | done |]. by intros ? ? ?%elem_of_nil. }
  assert (∀ file', file' ∈ files → match_gameid_from game_id file' = true →
                   (String.length root_directory ≤ String.length file')%nat)
    as Hlong' by (intros file' ?; apply Hlong, elem_of_cons; by right).
  destruct (match_gameid_from game_id file) eqn:Hmatch.
  - destruct (substr_from (String.length root_directory) file)
      as [directory_path |] eqn:Hpath.
    2: { unfold substr_from in Hpath.
         rewrite bool_decide_eq_true_2 in Hpath; [done |].
         apply Hlong; [apply elem_of_cons; by left | done]. }
    destruct (IH ({[ root_directory
                     +:+ substr_to (find_first_of DIR_SEP_CHR directory_path)
                                   directory_path ]} ∪ result) Hlong')
      as (dirs & -> & Hsub & Hall).
    exists dirs. split_and!; [done | set_solver |].
    intros file' directory_path' [-> | Hin]%elem_of_cons Hmatch' Hpath'.
    + assert (directory_path' = directory_path) as -> by congruence. set_solver.
    + by eapply Hall.
  - destruct (IH result Hlong') as (dirs & -> & Hsub & Hall).
    exists dirs. split_and!; [done | done |].
    intros file' directory_path' [-> | Hin]%elem_of_cons Hmatch' Hpath';
      [congruence | by eapply Hall].
Qed.

(** X20: every directory [GetTextureDirectoriesWithGameId] returns is the
    root followed by the game id, when that directory exists; or by the
    first three characters of the id, when that directory exists and the
    one of the full id does not; or by what is cut off at the first
    separator from the path, less the length of the root, of a [.txt]
    file found below the root that is named after the id or after its
    first three characters. *)
Theorem GetTextureDirectoriesWithGameId_sound (root_directory game_id : string)
    (dirs : gset string) (d : string) :
  GetTextureDirectoriesWithGameId_from root_directory game_id = Some dirs →
  d ∈ dirs →
  (d = root_directory +:+ game_id
   ∧ File_Exists (root_directory +:+ game_id) = true)
  ∨ (d = root_directory +:+ substring 0 3 game_id
     ∧ File_Exists (root_directory +:+ game_id) = false
     ∧ File_Exists (root_directory +:+ substring 0 3 game_id) = true)
  ∨ ∃ file directory_path rest,
      file ∈ DoFileSearch_txt root_directory
      ∧ match_gameid_from game_id file = true
      ∧ substr_from (String.length root_directory) file = Some directory_path
      ∧ (directory_path = rest
         ∨ ∃ tail, directory_path = rest +:+ String DIR_SEP_CHR tail)
      ∧ find_first_of DIR_SEP_CHR rest = None
      ∧ d = root_directory +:+ rest.
Proof.
  unfold GetTextureDirectoriesWithGameId. cbn zeta. intros Hrun Hd.
  destruct (add_gameid_directories_sound _ _ _ _ _ Hrun d Hd) as [Hfirst | Hfile];
    [| by right; right].
  destruct (File_Exists (root_directory +:+ game_id)) eqn:Hid.
  { left. by apply elem_of_singleton in Hfirst. }
  destruct (File_Exists (root_directory +:+ substring 0 3 game_id)) eqn:Hfree.
  { right. left. by apply elem_of_singleton in Hfirst. }
  by apply elem_of_empty in Hfirst.
Qed.

(** X21: when every [.txt] file named after the id is at least as long
    as the root, as the paths of a search below the root are,
    [GetTextureDirectoriesWithGameId] returns without an exception. The
    result holds the directory of the game id when it exists, and
    otherwise the directory of its first three characters when that
    exists. For each such file it holds the entry of the root the file
    lies below; a file that lies in the root itself is returned as a
    directory. *)
Theorem GetTextureDirectoriesWithGameId_complete (root_directory game_id : string) :
  (∀ file, file ∈ DoFileSearch_txt root_directory →
           match_gameid_from game_id file = true →
           (String.length root_directory ≤ String.length file)%nat) →
  ∃ dirs,
    GetTextureDirectoriesWithGameId_from root_directory game_id = Some dirs
    ∧ (File_Exists (root_directory +:+ game_id) = true →
       root_directory +:+ game_id ∈ dirs)
    ∧ (File_Exists (root_directory +:+ game_id) = false →
       File_Exists (root_directory +:+ substring 0 3 game_id) = true →
       root_directory +:+ substring 0 3 game_id ∈ dirs)
    ∧ (∀ top rest,
         root_directory +:+ top +:+ String DIR_SEP_CHR rest
           ∈ DoFileSearch_txt root_directory →
         match_gameid_from game_id (root_directory +:+ top +:+ String DIR_SEP_CHR rest)
         = true →
         find_first_of DIR_SEP_CHR top = None →
         root_directory +:+ top ∈ dirs)
    ∧ (∀ name,
         root_directory +:+ name ∈ DoFileSearch_txt root_directory →
         match_gameid_from game_id (root_directory +:+ name) = true →
         find_first_of DIR_SEP_CHR name = None →
         root_directory +:+ name ∈ dirs).
Proof.
  intros Hlong. unfold GetTextureDirectoriesWithGameId. cbn zeta.
  match goal with
  | |- context [add_gameid_directories_from _ _ _ ?result] =>
      destruct (add_gameid_directories_complete root_directory game_id
                  (DoFileSearch_txt root_directory) result Hlong)
        as (dirs & -> & Hsub & Hall)
  end.
  exists dirs. split_and!; [done | | | |].
  - intros Hid. rewrite Hid in Hsub. set_solver.
  - intros Hid Hfree. rewrite Hid, Hfree in Hsub. set_solver.
  - intros top rest Hin Hmatch Htop.
    specialize (Hall _ _ Hin Hmatch (substr_from_append _ _)).
    rewrite find_first_of_append in Hall by done. cbn [substr_to] in Hall.
    by rewrite substring_append_head in Hall.
  - intros name Hin Hmatch Hname.
    specialize (Hall _ _ Hin Hmatch (substr_from_append _ _)).
    by rewrite Hname in Hall.
Qed.

End DirectoryProperties.

Lemma GetTextureDirectoriesWithGameId_sound_witness :
  ("Load/Textures/My pack" = "Load/Textures/" +:+ "GALE01"
   ∧ sample_Exists ("Load/Textures/" +:+ "GALE01") = true)
  ∨ ("Load/Textures/My pack" = "Load/Textures/" +:+ substring 0 3 "GALE01"
     ∧ sample_Exists ("Load/Textures/" +:+ "GALE01") = false
     ∧ sample_Exists ("Load/Textures/" +:+ substring 0 3 "GALE01") = true)
  ∨ ∃ file directory_path rest,
      file ∈ sample_txt_files "Load/Textures/"
      ∧ match_gameid sample_SplitPath_filename "GALE01" file = true
      ∧ substr_from (String.length "Load/Textures/") file = Some directory_path
      ∧ (directory_path = rest ∨ ∃ tail, directory_path = rest +:+ String "/" tail)
      ∧ find_first_of "/" rest = None
      ∧ "Load/Textures/My pack" = "Load/Textures/" +:+ rest.
Proof.
  apply (GetTextureDirectoriesWithGameId_sound sample_Exists sample_txt_files
           sample_SplitPath_filename "/" "Load/Textures/" "GALE01"
           {[ "Load/Textures/GAL"; "Load/Textures/My pack"; "Load/Textures/GAL.txt" ]}).
  - vm_compute. reflexivity.
  - set_solver.
Defined.

Lemma GetTextureDirectoriesWithGameId_complete_witness :
  ∃ dirs,
    GetTextureDirectoriesWithGameId sample_Exists sample_txt_files
      sample_SplitPath_filename "/" "Load/Textures/" "GALE01"
    = Some dirs
    ∧ "Load/Textures/GAL" ∈ dirs
    ∧ "Load/Textures/My pack" ∈ dirs
    ∧ "Load/Textures/GAL.txt" ∈ dirs.
Proof.
  destruct (GetTextureDirectoriesWithGameId_complete sample_Exists sample_txt_files
              sample_SplitPath_filename "/" "Load/Textures/" "GALE01")
    as (dirs & Hrun & _ & Hfree & Htop & Hroot).
  - intros file Hin _. apply list_elem_of_In in Hin. cbn in Hin.
    destruct Hin as [<- | [<- | [<- | []]]]; cbn; lia.
  - exists dirs. split_and!; [exact Hrun | | |].
    + apply Hfree; reflexivity.
    + apply (Htop "My pack" "ids/GALE01.txt"); [| reflexivity | reflexivity].
      apply list_elem_of_In. cbn. auto.
    + apply (Hroot "GAL.txt"); [| reflexivity | reflexivity].
      apply list_elem_of_In. cbn. auto.
Defined.

(** ** After a reset *)

Section AfterReset.

Variable LoadDDSTexture_file : string → list Level.
Variable LoadDDSTexture_level : string → nat → option Level.
Variable ReadFile : string → list byte.
Variable LoadPNG : list byte → option (list byte * Z * Z).
Variable XXH64 : list byte → Z → Z.
Variable texture_directories : list string.
Variable DoFileSearch : string → list string.
Variable SplitPath_filename : string → string.

Local Abbreviation Search_from :=
  (Search LoadDDSTexture_file LoadDDSTexture_level ReadFile LoadPNG XXH64).
Local Abbreviation Update_from :=
  (Update texture_directories DoFileSearch SplitPath_filename).

(** With an empty catalog and an empty cache a search finds nothing. *)
Lemma Search_in_empty_state (texture tlut : list byte) (width height format : Z)
    (has_mipmaps : bool) (w : World) :
  s_textureMap w = ∅ → s_textureCache w = ∅ →
  Search_from texture tlut width height format has_mipmaps w
  = Ok (None, add_event EvUnlock (add_event (EvLoad "") (add_event EvLock w))).
Proof.
  intros Hmap Hcache. rewrite Search_eq. unfold GenBaseName. unfold_M.
  unfold is_empty. rewrite Hmap, bool_decide_eq_true_2 by apply map_size_empty.
  cbn [negb andb]. rewrite Hcache, lookup_empty. cbn zeta.
  unfold load_texture. rewrite Hmap, lookup_empty. reflexivity.
Qed.

(** X22: after [Clear], after [Shutdown], and after an [Update] with the
    feature disabled, which all return, every search returns null, for
    whatever texture and palette, also ones for which the resolver would
    read outside the palette: it returns before it hashes anything. The
    search stores nothing and leaves the pending mask row as it is. *)
Theorem Search_after_reset_returns_null (w : World) :
  ∃ w1,
    Clear w = Ok (tt, w1)
    ∧ Shutdown w = Ok (tt, w1)
    ∧ (bHiresTextures (g_ActiveConfig w) = false → Update_from w = Ok (tt, w1))
    ∧ ∀ texture tlut width height format has_mipmaps,
        ∃ w2,
          Search_from texture tlut width height format has_mipmaps w1
          = Ok (None, w2)
          ∧ s_textureMap w2 = ∅
          ∧ s_textureCache w2 = ∅
          ∧ tlutToId w2 = tlutToId w.
Proof.
  exists (set_textureCache ∅ (set_textureMap ∅ w)).
  split_and!; [done | done | by apply Update_disabled |].
  intros texture tlut width height format has_mipmaps. eexists.
  split; [by apply Search_in_empty_state | done].
Qed.

End AfterReset.

(** ** Packs of PNG files *)

Lemma mip_chain_prefix_subseteq (w h : Z) (rest : list Level) :
  mip_chain_prefix w h rest ⊆ rest.
Proof.
  revert w h. induction rest as [| level rest IH]; intros w h;
    cbn [mip_chain_prefix]; [done |].
  destruct ((w =? 1) && (h =? 1)); [apply list_subseteq_nil |].
  destruct (_ && _); [| apply list_subseteq_nil].
  intros l [-> | Hl]%elem_of_cons; apply elem_of_cons; [by left |].
  right. by eapply IH.
Qed.

Lemma consistent_formats (f : AbstractTextureFormat) (levels : list Level) :
  (∀ level, level ∈ levels → format level = f) →
  inconsistent_formats levels = false.
Proof.
  intros Hall. destruct levels as [| first_mip rest]; [done |].
  unfold inconsistent_formats.
  destruct (existsb _ _) eqn:Hsome; [| done].
  apply existsb_exists in Hsome as (level & Hin%list_elem_of_In & Hdiffer).
  rewrite bool_decide_eq_true_2 in Hdiffer; [done |].
  rewrite (Hall level Hin). symmetry. apply Hall, elem_of_cons. by left.
Qed.

Section PngPack.

Variable LoadDDSTexture_file : string → list Level.
Variable LoadDDSTexture_level : string → nat → option Level.
Variable ReadFile : string → list byte.
Variable LoadPNG : list byte → option (list byte * Z * Z).

Local Abbreviation LoadTexture_from := (LoadTexture LoadPNG).
Local Abbreviation level_from :=
  (load_level LoadDDSTexture_level ReadFile LoadPNG).
Local Abbreviation levels_from :=
  (load_levels LoadDDSTexture_level ReadFile LoadPNG).
Local Abbreviation Load_from :=
  (Load LoadDDSTexture_file LoadDDSTexture_level ReadFile LoadPNG).
Local Abbreviation assembled_levels :=
  (assembled_levels LoadDDSTexture_file LoadDDSTexture_level ReadFile LoadPNG).
Local Abbreviation load_texture :=
  (load_texture LoadDDSTexture_file LoadDDSTexture_level ReadFile LoadPNG).

(** A level [LoadTexture] fills in. *)
Lemma LoadTexture_level (buffer : list byte) (level : Level) :
  LoadTexture_from buffer = Some level →
  format level = RGBA8 ∧ data level ≠ [] ∧ row_length level = width level.
Proof.
  unfold LoadTexture. destruct (LoadPNG buffer) as [[[pixels w] h] |]; [| done].
  destruct pixels; [done |]. by intros [= <-].
Qed.

(** The loop over the mip files extends the levels it starts with, by
    levels the loaders have returned. *)
Lemma load_levels_extends (P : Level → Prop) (textureMap : gmap string DiskTexture)
    (base_filename : string) (fuel mip_level : nat) (levels r : list Level) :
  (∀ path n level, level_from path n = Some level → P level) →
  levels_from fuel textureMap base_filename mip_level levels = Some r →
  ∃ more, r = levels ++ more ∧ ∀ level, level ∈ more → P level.
Proof.
  intros Hloader. revert mip_level levels.
  induction fuel as [| fuel IH]; intros mip_level levels; [done |].
  cbn [load_levels].
  destruct (textureMap !! mip_filename base_filename mip_level) as [file |].
  2: { intros [= <-]. exists []. split; [by rewrite app_nil_r |].
       by intros ? ?%elem_of_nil. }
  destruct (level_from (path file) mip_level) as [level |] eqn:Hlevel.
  2: { intros [= <-]. exists []. split; [by rewrite app_nil_r |].
       by intros ? ?%elem_of_nil. }
  intros (more & -> & Hmore)%IH. exists (level :: more).
  split; [by rewrite <- app_assoc |].
  intros l [-> | ?]%elem_of_cons; [by eapply Hloader | by apply Hmore].
Qed.

(** X23: in a pack without DDS files every level [Load] returns was
    decoded by [LoadTexture]: its format is RGBA8, its data is not empty
    and its row length is its width. The check of the formats then rejects
    nothing, and [Load] returns null only when the catalog lacks the name
    or the file of level 0 cannot be decoded. *)
Theorem Load_of_png_pack (base_filename : string) (native_width native_height : Z)
    (w : World) :
  (∀ path, LoadDDSTexture_file path = []) →
  (∀ path n, LoadDDSTexture_level path n = None) →
  ∃ r,
    value (Load_from base_filename native_width native_height w) = Ok r
    ∧ (r = None ↔
       ∀ file, s_textureMap w !! base_filename = Some file →
               LoadTexture_from (ReadFile (path file)) = None)
    ∧ ∀ t level,
        r = Some t → level ∈ m_levels t →
        format level = RGBA8 ∧ data level ≠ [] ∧ row_length level = width level.
Proof.
  intros Hfile Hlevel. rewrite Load_eq. cbn [value]. eexists. split; [done |].
  assert (∀ path n level, level_from path n = Some level →
            format level = RGBA8 ∧ data level ≠ []
            ∧ row_length level = width level) as Hpng.
  { intros path n level. unfold load_level. rewrite Hlevel.
    apply LoadTexture_level. }
  unfold load_texture.
  destruct (s_textureMap w !! base_filename) as [first_mip_file |] eqn:Hentry.
  2: { split; [done |]. by intros t level [=]. }
  assert (∃ levels,
            assembled_levels (s_textureMap w) base_filename first_mip_file = levels
            ∧ (∀ level, level ∈ levels →
                 format level = RGBA8 ∧ data level ≠ []
                 ∧ row_length level = width level)
            ∧ (levels = [] ↔
               LoadTexture_from (ReadFile (path first_mip_file)) = None))
    as (levels & -> & Hall & Hnone).
  { unfold assembled_levels. cbn zeta. rewrite Hfile. cbn [length].
    destruct (load_levels_terminates LoadDDSTexture_level ReadFile LoadPNG
                (s_textureMap w) base_filename 0 []) as [r Hr].
    rewrite Hr. exists r. split; [done |].
    revert Hr. cbn [load_levels mip_filename]. rewrite Hentry.
    unfold load_level at 1. rewrite Hlevel.
    destruct (LoadTexture_from (ReadFile (path first_mip_file)))
      as [first_mip |] eqn:Hfirst.
    - intros Hr.
      apply (load_levels_extends
               (λ level, format level = RGBA8 ∧ data level ≠ []
                         ∧ row_length level = width level)) in Hr
        as (more & -> & Hmore); [| exact Hpng].
      split; [| done].
      intros level [->%list_elem_of_singleton | ?]%elem_of_app; [| by apply Hmore].
      by eapply LoadTexture_level.
    - intros [= <-]. split; [by intros ? ?%elem_of_nil | done]. }
  destruct levels as [| first_mip rest].
  { split; [| by intros t level [=]]. split; [| done].
    intros _ file [= <-]. by apply Hnone. }
  rewrite check_levels_eq by done. cbn [valid_mip_prefix].
  assert (first_mip :: mip_chain_prefix (width first_mip) (height first_mip) rest
          ⊆ first_mip :: rest) as Hsub.
  { intros l [-> | Hl]%elem_of_cons; apply elem_of_cons; [by left | right].
    by eapply mip_chain_prefix_subseteq. }
  rewrite (consistent_formats RGBA8) by (intros level Hin%Hsub; by apply Hall).
  split.
  - split; [done |]. intros Hundecodable.
    specialize (Hundecodable _ eq_refl). by apply Hnone in Hundecodable.
  - intros t level [= <-] Hin%Hsub. by apply Hall.
Qed.

End PngPack.

Lemma Load_of_png_pack_witness :
  ∃ r,
    value (sample_Load "tex1_4x4_$_0" 4 4 sample_world) = Ok r
    ∧ (r = None ↔
       ∀ file, s_textureMap sample_world !! "tex1_4x4_$_0" = Some file →
               LoadTexture sample_LoadPNG (sample_ReadFile (path file)) = None)
    ∧ ∀ t level,
        r = Some t → level ∈ m_levels t →
        format level = RGBA8 ∧ data level ≠ [] ∧ row_length level = width level.
Proof.
  apply (Load_of_png_pack no_dds_file no_dds_level sample_ReadFile sample_LoadPNG
           "tex1_4x4_$_0" 4 4 sample_world); reflexivity.
Defined.

(** ** The loads of a prefetch run *)

Lemma loaded_names_app (events1 events2 : list Event) :
  loaded_names (events1 ++ events2) = loaded_names events1 ++ loaded_names events2.
Proof.
  induction events1 as [| [| | name | name] events1 IH]; cbn; by rewrite ?IH.
Qed.

Section PrefetchRun.

Variable LoadDDSTexture_file : string → list Level.
Variable LoadDDSTexture_level : string → nat → option Level.
Variable ReadFile : string → list byte.
Variable LoadPNG : list byte → option (list byte * Z * Z).
Variable MemPhysical : Z.
Variable start_time stop_time : Z.
Variable IsSet : nat → bool.

Local Abbreviation load_from :=
  (load_texture LoadDDSTexture_file LoadDDSTexture_level ReadFile LoadPNG).
Local Abbreviation Prefetch_entry_from :=
  (Prefetch_entry LoadDDSTexture_file LoadDDSTexture_level ReadFile LoadPNG).
Local Abbreviation Prefetch_loop_from :=
  (Prefetch_loop LoadDDSTexture_file LoadDDSTexture_level ReadFile LoadPNG IsSet).
Local Abbreviation Prefetch_from :=
  (Prefetch LoadDDSTexture_file LoadDDSTexture_level ReadFile LoadPNG
            MemPhysical start_time stop_time IsSet).

(** One entry: [Load] is entered at most once, for the name of the entry,
    and only when that is no mip file and has no entry in the cache. *)
Lemma Prefetch_entry_loads (base_filename : string) (size_sum r : Z) (w w' : World) :
  Prefetch_entry_from base_filename size_sum w = Ok (r, w') →
  ∃ events,
    trace w' = trace w ++ events
    ∧ (loaded_names events = []
       ∨ (loaded_names events = [base_filename]
          ∧ String.index 0 "_mip" base_filename = None
          ∧ s_textureCache w !! base_filename = None)).
Proof.
  rewrite Prefetch_entry_eq. case_bool_decide as Hmip.
  2: { intros [= _ <-]. exists []. split; [by rewrite app_nil_r | by left]. }
  destruct (s_textureCache w !! base_filename) as [[t |] |] eqn:Hcache; [| done |].
  { intros [= _ <-]. exists [EvLock; EvUnlock]. cbn. rewrite <- app_assoc.
    split; [done | by left]. }
  cbn zeta. intros Hret. destruct (load_from _ _); injection Hret as _ <-.
  - exists [EvLock; EvUnlock; EvLoad base_filename; EvLock;
            EvInsert base_filename; EvUnlock].
    cbn. rewrite <- !app_assoc. split; [done | by right].
  - exists [EvLock; EvUnlock; EvLoad base_filename; EvLock; EvUnlock].
    cbn. rewrite <- !app_assoc. split; [done | by right].
Qed.

Lemma Prefetch_loop_loads (max : Z) (entries : list (string * DiskTexture))
    (polls : nat) (size_sum : Z) (r : option Z) (w w' : World) :
  Prefetch_loop_from max entries polls size_sum w = Ok (r, w') →
  ∃ events,
    trace w' = trace w ++ events
    ∧ loaded_names events `sublist_of` entries.*1
    ∧ ∀ name, name ∈ loaded_names events →
        String.index 0 "_mip" name = None ∧ s_textureCache w !! name = None.
Proof.
  revert polls size_sum w.
  induction entries as [| entry entries IH]; intros polls size_sum w.
  { intros [= _ <-]. exists []. rewrite app_nil_r. split_and!; [done | done |].
    by intros ? ?%elem_of_nil. }
  cbn [Prefetch_loop]. unfold_M.
  destruct (Prefetch_entry_from entry.1 size_sum w) as [[size_sum' w1] |] eqn:Hentry;
    [| done].
  destruct (Prefetch_entry_loads _ _ _ _ _ Hentry) as (events & Htrace & Hloads).
  destruct (Prefetch_entry_effect _ _ _ _ _ _ _ _ _ Hentry) as (_ & Hkeep & _).
  assert (loaded_names events `sublist_of` [entry.1]
          ∧ ∀ name, name ∈ loaded_names events →
              String.index 0 "_mip" name = None ∧ s_textureCache w !! name = None)
    as [Hsub Hnames].
  { destruct Hloads as [-> | (-> & ? & ?)].
    - split; [apply sublist_nil_l | by intros ? ?%elem_of_nil].
    - split; [done |]. by intros ? ->%list_elem_of_singleton. }
  assert (∀ w2 : World,
            (∃ events',
               trace w2 = trace w1 ++ events'
               ∧ loaded_names events' `sublist_of` entries.*1
               ∧ ∀ name, name ∈ loaded_names events' →
                   String.index 0 "_mip" name = None
                   ∧ s_textureCache w1 !! name = None) →
            ∃ events0,
              trace w2 = trace w ++ events0
              ∧ loaded_names events0 `sublist_of` (entry :: entries).*1
              ∧ ∀ name, name ∈ loaded_names events0 →
                  String.index 0 "_mip" name = None
                  ∧ s_textureCache w !! name = None) as Hjoin.
  { intros w2 (events' & Htrace' & Hsub' & Hnames'). exists (events ++ events').
    rewrite Htrace', Htrace, <- app_assoc, loaded_names_app.
    split_and!; [done | |].
    - change ((entry :: entries).*1) with ([entry.1] ++ entries.*1).
      by apply sublist_app.
    - intros name [? | Hlater]%elem_of_app; [by apply Hnames |].
      destruct (Hnames' name Hlater) as [? Hmiss]. split; [done |].
      destruct (s_textureCache w !! name) as [ptr |] eqn:Hcached; [| done].
      apply Hkeep in Hcached. congruence. }
  assert (∀ w2 : World, trace w2 = trace w1 →
            ∃ events',
              trace w2 = trace w1 ++ events'
              ∧ loaded_names events' `sublist_of` entries.*1
              ∧ ∀ name, name ∈ loaded_names events' →
                  String.index 0 "_mip" name = None
                  ∧ s_textureCache w1 !! name = None) as Hstop.
  { intros w2 Htr. exists []. rewrite app_nil_r.
    split_and!; [done | apply sublist_nil_l | by intros ? ?%elem_of_nil]. }
  destruct (IsSet polls); [intros [= _ <-]; by apply Hjoin, Hstop |].
  destruct (max <? size_sum'); [intros [= _ <-]; by apply Hjoin, Hstop |].
  intros Hrest. by apply Hjoin, (IH _ _ _ Hrest).
Qed.

(** X24: in a run of [Prefetch], [Load] is entered at most once for each
    name, and only for names of the catalog that are no mip files and had
    no entry in the cache when the run began. The run returns with the
    mutex released. *)
Theorem Prefetch_loads_each_texture_once (w w' : World) :
  Prefetch_from w = Ok (tt, w') →
  ∃ events,
    trace w' = trace w ++ events
    ∧ held_after false events = false
    ∧ NoDup (loaded_names events)
    ∧ ∀ name, name ∈ loaded_names events →
        is_Some (s_textureMap w !! name)
        ∧ String.index 0 "_mip" name = None
        ∧ s_textureCache w !! name = None.
Proof.
  unfold Prefetch, Prefetch_in_order. unfold_M.
  destruct (Prefetch_loop_from _ (map_to_list (s_textureMap w)) 0 0 w)
    as [[r w1] |] eqn:Hloop; [| done].
  destruct (Prefetch_loop_loads _ _ _ _ _ _ _ Hloop)
    as (events & Htrace & Hsub & Hnames).
  destruct (Prefetch_loop_effect _ _ _ _ _ _ _ _ _ _ _ _ Hloop)
    as (_ & _ & events' & Htrace' & _ & Hheld).
  assert (events' = events) as -> by (apply (app_inv_head (trace w)); congruence).
  intros Hend. exists events.
  assert (trace w' = trace w1) as -> by (destruct r; by injection Hend as <-).
  split_and!; [done | done | |].
  - eapply sublist_NoDup; [| exact Hsub]. apply NoDup_fst_map_to_list.
  - intros name Hname. destruct (Hnames name Hname) as [? ?].
    split_and!; [| done | done].
    apply (sublist_subseteq _ _ Hsub) in Hname.
    apply list_elem_of_fmap in Hname as ([name' file] & -> & Hin).
    apply elem_of_map_to_list in Hin. cbn. by rewrite Hin.
Qed.

End PrefetchRun.

Lemma Prefetch_loads_each_texture_once_witness :
  ∃ events,
    trace prefetched_single_world = trace single_world ++ events
    ∧ held_after false events = false
    ∧ NoDup (loaded_names events)
    ∧ ∀ name, name ∈ loaded_names events →
        is_Some (s_textureMap single_world !! name)
        ∧ String.index 0 "_mip" name = None
        ∧ s_textureCache single_world !! name = None.
Proof.
  apply (Prefetch_loads_each_texture_once no_dds_file no_dds_level sample_ReadFile
           sample_LoadPNG 2 0 0 (λ _, true) single_world prefetched_single_world).
  vm_compute. reflexivity.
Defined.

Section PrefetchSize.

Variable LoadDDSTexture_file : string → list Level.
Variable LoadDDSTexture_level : string → nat → option Level.
Variable ReadFile : string → list byte.
Variable LoadPNG : list byte → option (list byte * Z * Z).
Variable MemPhysical : Z.
Variable start_time stop_time : Z.
Variable IsSet : nat → bool.

Local Abbreviation load_from :=
  (load_texture LoadDDSTexture_file LoadDDSTexture_level ReadFile LoadPNG).
Local Abbreviation Prefetch_entry_from :=
  (Prefetch_entry LoadDDSTexture_file LoadDDSTexture_level ReadFile LoadPNG).
Local Abbreviation Prefetch_loop_from :=
  (Prefetch_loop LoadDDSTexture_file LoadDDSTexture_level ReadFile LoadPNG IsSet).
Local Abbreviation Prefetch_from :=
  (Prefetch LoadDDSTexture_file LoadDDSTexture_level ReadFile LoadPNG
            MemPhysical start_time stop_time IsSet).

(** A name whose load fails does not enter the cache. *)
Lemma Prefetch_entry_keeps_miss (base_filename name : string) (size_sum r : Z)
    (w w' : World) :
  Prefetch_entry_from base_filename size_sum w = Ok (r, w') →
  s_textureCache w !! name = None →
  load_from (s_textureMap w) name = None →
  s_textureCache w' !! name = None.
Proof.
  rewrite Prefetch_entry_eq. case_bool_decide; [| by intros [= _ <-]].
  destruct (s_textureCache w !! base_filename) as [[t |] |] eqn:Hcache;
    [by intros [= _ <-] | done |].
  cbn zeta. destruct (load_from _ base_filename) as [t |] eqn:Hload;
    [| by intros [= _ <-]].
  intros [= _ <-] Hmiss Hfails. cbn.
  rewrite lookup_insert_ne; [done | congruence].
Qed.

Lemma Prefetch_loop_keeps_miss (max : Z) (entries : list (string * DiskTexture))
    (polls : nat) (size_sum : Z) (r : option Z) (name : string) (w w' : World) :
  Prefetch_loop_from max entries polls size_sum w = Ok (r, w') →
  s_textureCache w !! name = None →
  load_from (s_textureMap w) name = None →
  s_textureCache w' !! name = None.
Proof.
  revert polls size_sum w.
  induction entries as [| entry entries IH]; intros polls size_sum w;
    [by intros [= _ <-] |].
  cbn [Prefetch_loop]. unfold_M.
  destruct (Prefetch_entry_from entry.1 size_sum w) as [[size_sum' w1] |] eqn:Hentry;
    [| done].
  intros Hrest Hmiss Hfails.
  pose proof (Prefetch_entry_keeps_miss _ _ _ _ _ _ Hentry Hmiss Hfails) as Hmiss1.
  apply Prefetch_entry_effect in Hentry as (_ & _ & Hmap & _).
  destruct (IsSet polls); [by injection Hrest as _ <- |].
  destruct (max <? size_sum'); [by injection Hrest as _ <- |].
  eapply IH; [done | done | by rewrite Hmap].
Qed.

(** The sum a run of the loop to its end has added up, in terms of the
    cache it leaves. *)
Lemma Prefetch_loop_size (max : Z) (entries : list (string * DiskTexture))
    (polls : nat) (size_sum total : Z) (w w' : World) :
  Prefetch_loop_from max entries polls size_sum w = Ok (Some total, w') →
  total
  = fold_left (λ sum entry, add_cached_size (s_textureCache w') sum entry.1)
              entries size_sum.
Proof.
  revert polls size_sum w.
  induction entries as [| entry entries IH]; intros polls size_sum w;
    [by intros [= <- _] |].
  cbn [Prefetch_loop fold_left]. unfold_M.
  destruct (Prefetch_entry_from entry.1 size_sum w) as [[size_sum' w1] |] eqn:Hentry;
    [| done].
  destruct (IsSet polls); [done |].
  destruct (max <? size_sum'); [done |].
  intros Hrest. rewrite (IH _ _ _ Hrest). f_equal.
  destruct (Prefetch_loop_effect _ _ _ _ _ _ _ _ _ _ _ _ Hrest) as (_ & Hkeep & _).
  revert Hentry. rewrite Prefetch_entry_eq. unfold add_cached_size.
  case_bool_decide; [| by intros [= <- _]].
  destruct (s_textureCache w !! entry.1) as [[t |] |] eqn:Hcache; [| done |].
  { intros [= <- <-]. by rewrite (Hkeep entry.1 (Some t)). }
  cbn zeta. destruct (load_from (s_textureMap w) entry.1) as [t |] eqn:Hload.
  - intros [= <- <-]. rewrite (Hkeep entry.1 (Some t)); [done |].
    cbn. by rewrite lookup_insert_eq.
  - intros [= <- <-].
    by rewrite (Prefetch_loop_keeps_miss _ _ _ _ _ entry.1 _ _ Hrest).
Qed.


End PrefetchSize.


(** ** The scan of the texture directories *)

Section CatalogScan.

Variable texture_directories : list string.
Variable DoFileSearch : string → list string.
Variable SplitPath_filename : string → string.

Local Abbreviation add_texture_path_from := (add_texture_path SplitPath_filename).
Local Abbreviation Update_from :=
  (Update texture_directories DoFileSearch SplitPath_filename).

Lemma add_texture_path_sound (path k : string) (v : DiskTexture)
    (m : gmap string DiskTexture) :
  add_texture_path_from path m !! k = Some v →
  m !! k = Some v ∨ add_texture_path_from path ∅ !! k = Some v.
Proof.
  unfold add_texture_path.
  destruct (String.prefix s_format_prefix (SplitPath_filename path)); [| by left].
  unfold try_emplace. rewrite lookup_empty.
  match goal with
  | |- context [m !! ?key] => destruct (m !! key) eqn:Hkey; [by left |]
  end.
  rewrite !lookup_insert. case_decide; [by right | by left].
Qed.

Lemma add_texture_path_complete (path k : string) (v : DiskTexture)
    (m : gmap string DiskTexture) :
  add_texture_path_from path ∅ !! k = Some v →
  is_Some (add_texture_path_from path m !! k).
Proof.
  unfold add_texture_path.
  destruct (String.prefix s_format_prefix (SplitPath_filename path));
    [| by rewrite lookup_empty].
  unfold try_emplace. rewrite lookup_empty, lookup_insert.
  case_decide as Hk; [subst k | by rewrite lookup_empty].
  intros _.
  match goal with
  | |- context [m !! ?key] => destruct (m !! key) eqn:Hkey; [by rewrite Hkey |]
  end.
  rewrite lookup_insert_eq. eauto.
Qed.

Lemma add_texture_path_grows (path k : string) (m : gmap string DiskTexture) :
  is_Some (m !! k) → is_Some (add_texture_path_from path m !! k).
Proof. intros [v Hk]. exists v. by apply add_texture_path_keeps. Qed.

(** X26: with the feature enabled, the catalog after [Update] holds what
    it held before and what the scan registers: each entry was there
    before or is the entry that a file found in one of the texture
    directories registers, and every file found that registers an entry
    has one under its name afterwards, its own unless the name was
    taken. *)
Theorem Update_catalog_is_old_and_found (w : World) :
  bHiresTextures (g_ActiveConfig w) = true →
  ∃ w',
    Update_from w = Ok (tt, w')
    ∧ (∀ name file,
         s_textureMap w' !! name = Some file →
         s_textureMap w !! name = Some file
         ∨ ∃ texture_directory path,
             texture_directory ∈ texture_directories
             ∧ path ∈ DoFileSearch texture_directory
             ∧ add_texture_path_from path ∅ !! name = Some file)
    ∧ (∀ texture_directory path name file,
         texture_directory ∈ texture_directories →
         path ∈ DoFileSearch texture_directory →
         add_texture_path_from path ∅ !! name = Some file →
         is_Some (s_textureMap w' !! name)).
Proof.
  intros Henabled. eexists. split; [by apply Update_enabled |]. cbn.
  generalize (s_textureMap w). clear w Henabled.
  induction texture_directories as [| directory directories IH]; intros m.
  { split; [by left |]. by intros ? ? ? ? ?%elem_of_nil. }
  cbn [fold_left].
  assert (∀ paths m,
            (∀ name file,
               fold_left (λ m path, add_texture_path_from path m) paths m !! name
               = Some file →
               m !! name = Some file
               ∨ ∃ path, path ∈ paths
                         ∧ add_texture_path_from path ∅ !! name = Some file)
            ∧ (∀ path name file,
                 path ∈ paths →
                 add_texture_path_from path ∅ !! name = Some file →
                 is_Some (fold_left (λ m path, add_texture_path_from path m) paths m
                          !! name))
            ∧ (∀ name, is_Some (m !! name) →
                 is_Some (fold_left (λ m path, add_texture_path_from path m) paths m
                          !! name))) as Hfiles.
  { clear. induction paths as [| path paths IH]; intros m.
    { split_and!; [by left | by intros ? ? ? ?%elem_of_nil | done]. }
    cbn [fold_left]. destruct (IH (add_texture_path_from path m)) as (Hsound & Hfound & Hgrows).
    split_and!.
    - intros name file [Hhere | (path' & ? & ?)]%Hsound.
      + apply add_texture_path_sound in Hhere as [? | ?]; [by left |].
        right. exists path. split; [apply elem_of_cons; by left | done].
      + right. exists path'. split; [apply elem_of_cons; by right | done].
    - intros path' name file [-> | ?]%elem_of_cons Hregisters; [| by eapply Hfound].
      by eapply Hgrows, add_texture_path_complete.
    - intros name ?. by apply Hgrows, add_texture_path_grows. }
  destruct (Hfiles (DoFileSearch directory) m) as (Hsound & Hfound & Hgrows).
  destruct (IH (fold_left (λ m path, add_texture_path_from path m)
                          (DoFileSearch directory) m)) as [Hsound' Hfound'].
  split.
  - intros name file [Hhere | (directory' & path & ? & ?)]%Hsound'.
    + apply Hsound in Hhere as [? | (path & ? & ?)]; [by left |].
      right. exists directory, path. split; [apply elem_of_cons; by left | done].
    + right. exists directory', path. split; [apply elem_of_cons; by right | done].
  - intros directory' path name file [-> | ?]%elem_of_cons Hpath Hregisters;
      [| by eapply Hfound'].
    assert (is_Some (fold_left (λ m path, add_texture_path_from path m)
                               (DoFileSearch directory) m !! name)) as [file' Hfile']
      by (by eapply Hfound).
    exists file'. by apply scanned_catalog_keeps.
Qed.

End CatalogScan.

Lemma Update_catalog_is_old_and_found_witness :
  ∃ w',
    Update ["pack"] (λ _, ["pack/tex1_8x8_$_1_arb.png"]) sample_SplitPath_filename
           sample_world
    = Ok (tt, w')
    ∧ is_Some (s_textureMap w' !! "tex1_8x8_$_1").
Proof.
  destruct (Update_catalog_is_old_and_found ["pack"]
              (λ _, ["pack/tex1_8x8_$_1_arb.png"]) sample_SplitPath_filename
              sample_world eq_refl) as (w' & Hrun & _ & Hfound).
  exists w'. split; [exact Hrun |].
  apply (Hfound "pack" "pack/tex1_8x8_$_1_arb.png" "tex1_8x8_$_1"
           (mkDiskTexture "pack/tex1_8x8_$_1_arb.png" true)).
  - apply list_elem_of_singleton. reflexivity.
  - apply list_elem_of_singleton. reflexivity.
  - vm_compute. reflexivity.
Defined.

(** ** Initialisation with a row pending *)

(** X28: [Init] always returns and refills the mask table, leaving the
    catalog and the cache. When no mask row is pending, none is
    afterwards. When one is pending, [tlutToId] is left pointing into the
    cleared table: the next call of the mask hack for width 256
    dereferences the dangling pointer, and so does every dump of a texture
    of width 256 that gets as far as the hack. *)
Theorem Init_leaves_pending_row_dangling (w : World) :
  ∃ w1,
    Init w = Ok (tt, w1)
    ∧ reThreeHackTexMap w1 = ReThreeMaskHackInit_table
    ∧ s_textureMap w1 = s_textureMap w
    ∧ s_textureCache w1 = s_textureCache w
    ∧ (tlutToId w = None → tlutToId w1 = None ∧ pending_valid w1)
    ∧ (is_Some (tlutToId w) →
       ¬ pending_valid w1
       ∧ (∀ texname tlutname, ReThreeMaskHack texname tlutname 256 w1 = Fault)
       ∧ ∀ XXH64 texture tlut height format has_mipmaps,
           GenBaseName XXH64 texture tlut 256 height format has_mipmaps true w1
           = Fault).
Proof.
  eexists. split; [reflexivity |]. cbn. split_and!; [done | done | done | |].
  - intros ->. split; [done |]. by intros key [=].
  - intros [key ->].
    assert (∀ (w0 : World) texname tlutname,
              tlutToId w0 = Some dangling →
              reThreeHackTexMap w0 = ReThreeMaskHackInit_table →
              ReThreeMaskHack texname tlutname 256 w0 = Fault) as Hhack.
    { intros w0 texname tlutname Hkey Htable. unfold ReThreeMaskHack. unfold_M.
      cbn. by rewrite Hkey, Htable. }
    split_and!.
    + intros Hvalid. by destruct (Hvalid dangling eq_refl).
    + intros texname tlutname. by apply Hhack.
    + intros XXH64 texture tlut height format has_mipmaps.
      unfold GenBaseName, name_parts. unfold_M. cbn [negb andb].
      match goal with
      | |- context [hash_tlut XXH64 texture tlut ?w0] =>
          destruct (hash_tlut XXH64 texture tlut w0) as [[h w1] |] eqn:Hhash;
          [| done]
      end.
      apply hash_tlut_palette_part in Hhash as [-> _].
      by rewrite Hhack.
Qed.

(** ** Dumping and looking up *)

Section DumpAndLookup.

Variable XXH64 : list byte → Z → Z.

(** X27: the name a texture is dumped under is a name it is found under.
    When the catalog has an entry for the name [GenBaseName] returns for a
    dump, the lookup of the same texture in the same state returns a name
    of the catalog: the name with the palette wildcard when that has an
    entry; else the name with the texture wildcard when that has one;
    else the name of the dump. *)
Theorem GenBaseName_dump_then_lookup (texture tlut : list byte)
    (width height format : Z) (has_mipmaps : bool) (w : World) (name : string) :
  value (GenBaseName XXH64 texture tlut width height format has_mipmaps true w)
  = Ok name →
  is_Some (s_textureMap w !! name) →
  ∃ found p w',
    name_parts XXH64 texture tlut width height format has_mipmaps w = Ok (p, w')
    ∧ name = full_name p
    ∧ value (GenBaseName XXH64 texture tlut width height format has_mipmaps false w)
      = Ok found
    ∧ is_Some (s_textureMap w !! found)
    ∧ (is_Some (s_textureMap w
                !! (base_name p +:+ tex_name p +:+ "_$" +:+ format_name p)) →
       found = base_name p +:+ tex_name p +:+ "_$" +:+ format_name p)
    ∧ (s_textureMap w !! (base_name p +:+ tex_name p +:+ "_$" +:+ format_name p)
       = None →
       is_Some (s_textureMap w
                !! (base_name p +:+ "_$" +:+ tlut_name p +:+ format_name p)) →
       found = base_name p +:+ "_$" +:+ tlut_name p +:+ format_name p)
    ∧ (s_textureMap w !! (base_name p +:+ tex_name p +:+ "_$" +:+ format_name p)
       = None →
       s_textureMap w !! (base_name p +:+ "_$" +:+ tlut_name p +:+ format_name p)
       = None →
       found = name).
Proof.
  intros Hdump Hentry.
  destruct (name_parts XXH64 texture tlut width height format has_mipmaps w)
    as [[p w'] |] eqn:Hparts.
  2: { revert Hdump. unfold GenBaseName. unfold_M. cbn [negb andb].
       by rewrite Hparts. }
  assert (name = full_name p) as ->.
  { revert Hdump. unfold GenBaseName. unfold_M. cbn [negb andb orb].
    rewrite Hparts. cbn. by intros [= <-]. }
  assert (is_empty (s_textureMap w) = false) as Hempty.
  { apply bool_decide_eq_false_2. intros Hnone%map_size_empty_iff.
    rewrite Hnone, lookup_empty in Hentry. by destruct Hentry. }
  assert (∃ found,
            value (GenBaseName XXH64 texture tlut width height format has_mipmaps
                               false w) = Ok found
            ∧ found
              = if contains (s_textureMap w)
                     (base_name p +:+ tex_name p +:+ "_$" +:+ format_name p)
                then base_name p +:+ tex_name p +:+ "_$" +:+ format_name p
                else if contains (s_textureMap w)
                          (base_name p +:+ "_$" +:+ tlut_name p +:+ format_name p)
                then base_name p +:+ "_$" +:+ tlut_name p +:+ format_name p
                else full_name p)
    as (found & Hfound & Hwhich).
  { unfold GenBaseName. unfold_M. cbn [negb andb orb]. rewrite Hempty, Hparts.
    replace (contains (s_textureMap w) (full_name p)) with true
      by (symmetry; by apply bool_decide_eq_true_2).
    eexists. split; [| reflexivity].
    by repeat (match goal with
               | |- context [if ?b then _ else _] => destruct b
               end). }
  exists found, p, w'. unfold contains in Hwhich.
  split_and!; [done | done | done | | | |].
  - rewrite Hwhich. by repeat case_bool_decide.
  - intros Hfirst. rewrite Hwhich. by rewrite bool_decide_eq_true_2.
  - intros Hfirst Hsecond. rewrite Hwhich.
    rewrite bool_decide_eq_false_2 by (rewrite Hfirst; by intros [? ?]).
    by rewrite bool_decide_eq_true_2.
  - intros Hfirst Hsecond. rewrite Hwhich.
    rewrite bool_decide_eq_false_2 by (rewrite Hfirst; by intros [? ?]).
    by rewrite bool_decide_eq_false_2 by (rewrite Hsecond; by intros [? ?]).
Qed.

End DumpAndLookup.

Lemma GenBaseName_dump_then_lookup_witness :
  value (GenBaseName XXHash.XXH64 two_index_texels zero_palette 8 8 8 false false
           palette_wildcard_world)
  = Ok "tex1_8x8_$_ef6eb604187a17fa_8".
Proof.
  destruct (GenBaseName_dump_then_lookup XXHash.XXH64 two_index_texels zero_palette
              8 8 8 false palette_wildcard_world
              "tex1_8x8_60f60626e794fd17_ef6eb604187a17fa_8")
    as (found & p & w' & Hparts & _ & Hfound & _ & _ & Hsecond & _).
  - vm_compute. reflexivity.
  - vm_compute. eauto.
  - assert (Ok (p, w')
            = Ok (mkNameParts "tex1_8x8" "_60f60626e794fd17" "_ef6eb604187a17fa" "_8",
                  palette_wildcard_world)) as Hrun.
    { rewrite <- Hparts. vm_compute. reflexivity. }
    injection Hrun as -> ->. rewrite Hfound. f_equal. apply Hsecond.
    + vm_compute. reflexivity.
    + vm_compute. eauto.
Defined.
